(** * EasySearch: the search provider and the search modal

    A shallow embedding of [searchProvider.ts] (class [SearchProvider]) and of
    [searchModal.ts]: the class [SearchModal], the script of its webview page
    and the two commands that [activate] registers.

    A JavaScript string that the code computes on (a query, the text of a
    document, a history entry, an exclude pattern, markup) is the list of its
    UTF-16 code units, [Js.string]; a code unit is an [N].  Texts that the
    modelled code only hands on (file paths, console labels, the messages of
    errors) are kept as [String.string].  Numbers that only count (line
    numbers, columns, request ids) are [nat].

    [String.prototype.toLowerCase] is the host's, and its table is no part of
    the sources: the code is modelled, and the theorems are proved, for every
    function in its place; what a theorem needs of it is a hypothesis.
    [Js.toLowerCase] tabulates it for the code units of the closed examples. *)

From Stdlib Require Import Ascii String Arith NArith Lia ZArith.
From stdpp Require Import base list strings sorting.

Local Open Scope nat_scope.

(** ** JavaScript string primitives used by the source *)

Module Js.

(** A string: its code units, first to last. *)
Definition string : Type := list N.

(** Code units that [String.prototype.trim] strips: WhiteSpace (TAB, VT, FF,
    SP, NBSP, U+FEFF and the other space separators U+1680, U+2000..U+200A,
    U+202F, U+205F, U+3000) and LineTerminator (LF, CR, U+2028, U+2029). *)
Definition isWhiteSpace (c : N) : bool :=
  ((c =? 9) || (c =? 10) || (c =? 11) || (c =? 12) || (c =? 13)
   || (c =? 32) || (c =? 160) || (c =? 5760)
   || ((8192 <=? c) && (c <=? 8202))
   || (c =? 8232) || (c =? 8233) || (c =? 8239) || (c =? 8287)
   || (c =? 12288) || (c =? 65279))%N.

Fixpoint trimStart (s : string) : string :=
  match s with
  | [] => []
  | c :: t => if isWhiteSpace c then trimStart t else s
  end.

Fixpoint trimEnd (s : string) : string :=
  match s with
  | [] => []
  | c :: t =>
      match trimEnd t with
      | [] => if isWhiteSpace c then [] else [c]
      | c' :: t' => c :: c' :: t'
      end
  end.

(** [s.trim()] *)
Definition trim (s : string) : string := trimEnd (trimStart s).

(** The lower case of one code unit, for the code units tabulated here: the
    letters A-Z and the Latin-1 capitals U+00C0..U+00DE, except the
    multiplication sign U+00D7, move up by 32; U+0130, the capital I with a
    dot above, becomes the two code units U+0069 U+0307; every other code
    unit below U+0100 is its own lower case. *)
Definition lowerUnit (c : N) : list N :=
  (if ((65 <=? c) && (c <=? 90))
      || ((192 <=? c) && (c <=? 222) && negb (c =? 215))
   then [c + 32]
   else if c =? 304 then [105; 775]
   else [c])%N.

(** [s.toLowerCase()] for a string [s] over the code units below U+0100 and
    U+0130.  On other code units it leaves [s] alone, which is not the host's
    function for the cased letters among them: it stands in for the host's
    function in closed examples only. *)
Definition toLowerCase (s : string) : string := flat_map lowerUnit s.

(** [needle] is what [hay] starts with. *)
Fixpoint startsWith (hay needle : string) : bool :=
  match needle, hay with
  | [], _ => true
  | _ :: _, [] => false
  | a :: needle', b :: hay' => (a =? b)%N && startsWith hay' needle'
  end.

(** The least position from [n] on at which [needle] stands in [hay]. *)
Fixpoint index (n : nat) (needle hay : string) : option nat :=
  match hay, n with
  | [], 0 => if startsWith hay needle then Some 0 else None
  | [], S _ => None
  | _ :: hay', 0 =>
      if startsWith hay needle then Some 0 else S <$> index 0 needle hay'
  | _ :: hay', S n' => S <$> index n' needle hay'
  end.

(** [hay.indexOf(needle, from)]: the start position is clamped to the length
    of [hay]; [None] stands for the result [-1]. *)
Definition indexOf (hay needle : string) (from : nat) : option nat :=
  index (Nat.min from (length hay)) needle hay.

(** [s.substring(start, end)]: both indices are clamped to the length of
    [s], and swapped when [start] is the larger. *)
Definition substring (s : string) (start end_ : nat) : string :=
  let a := Nat.min start (length s) in
  let b := Nat.min end_ (length s) in
  take (Nat.max a b - Nat.min a b) (drop (Nat.min a b) s).

(** [!s] on a string: true exactly for the empty string. *)
Definition isEmpty (s : string) : bool :=
  match s with
  | [] => true
  | _ :: _ => false
  end.

(** [a === b] on strings. *)
Definition eqb (a b : string) : bool := bool_decide (a = b).

(** [new Error(message)] *)
Inductive Error : Type := mkError (message : String.string).

Definition message (e : Error) : String.string :=
  match e with mkError m => m end.

End Js.

(** The string of a literal: one code unit per character, with the
    character's code. *)
Definition str (s : string) : Js.string :=
  map N_of_ascii (list_ascii_of_string s).

(** ** The host's value types ([vscode.Uri], [Position], [Range],
       [TextDocument]) *)

Record Uri : Type := { fsPath : string }.

Record Position : Type := { line : nat; character : nat }.

Record Range : Type := { start : Position; end_ : Position }.

(** What [searchInSingleDocument] pushes: [{ uri, range, detail }]. *)
Record SearchResult : Type :=
  { uri : Uri; range : Range; detail : Js.string }.

Definition LF : N := 10.
Definition CR : N := 13.

(** The host splits a document's text into physical lines at LF, CR LF and
    CR; a line's text excludes its line break. *)
Fixpoint splitLines (s : Js.string) : list Js.string :=
  match s with
  | [] => [[]]
  | c :: t =>
      if (c =? LF)%N then [] :: splitLines t
      else if (c =? CR)%N then
        match t with
        | c' :: t' =>
            if (c' =? LF)%N then [] :: splitLines t'
            else [] :: splitLines t
        | [] => [] :: splitLines t
        end
      else
        match splitLines t with
        | l :: ls => (c :: l) :: ls
        | [] => [[c]]
        end
  end.

(** A [vscode.TextDocument] is determined by its text. *)
Record TextDocument : Type := { getText : Js.string }.

Definition lineCount (doc : TextDocument) : nat :=
  length (splitLines (getText doc)).

(** [doc.lineAt(line).text] *)
Definition lineAt (doc : TextDocument) (n : nat) : Js.string :=
  nth n (splitLines (getText doc)) [].

(** [AbortSignal]: the flag [aborted] as it stands during one synchronous
    stretch of code.  The flag can only change while the code awaits; the
    loop over the lines and the [catch] clause of [search] both run after the
    last [await] has settled, so they read one and the same value. *)
Record AbortSignal : Type := { aborted : bool }.

(** [signal?.aborted] used as a condition. *)
Definition signalAborted (signal : option AbortSignal) : bool :=
  match signal with
  | Some s => aborted s
  | None => false
  end.

(** ** Effects: what an awaited call may do

    A computation yields the host calls it made, oldest first, and how it
    ended: with a value, with a thrown [Error], or not at all. *)

Inductive outcome (A : Type) : Type :=
  | Return (a : A)
  | Throw (e : Js.Error)
  | Diverge.

Arguments Return {A} a.
Arguments Throw {A} e.
Arguments Diverge {A}.

Inductive event : Type :=
  | EvOpenTextDocument (u : Uri)
  | EvConsoleError (label : string) (e : Js.Error)
  | EvWaitForReady
  | EvIndexSearch (query : Js.string).

Definition Eff (A : Type) : Type := (list event * outcome A)%type.

Definition calls {A} (m : Eff A) : list event := fst m.
Definition result {A} (m : Eff A) : outcome A := snd m.

#[global] Instance Eff_ret : MRet Eff := λ A a, ([], Return a).

#[global] Instance Eff_bind : MBind Eff := λ A B f m,
  match m with
  | (t, Return a) => let '(t', r) := f a in (t ++ t', r)
  | (t, Throw e) => (t, Throw e)
  | (t, Diverge) => (t, Diverge)
  end.

Definition throw {A} (e : Js.Error) : Eff A := ([], Throw e).

(** [try { m } catch (error) { handler error }] *)
Definition tryCatch {A} (m : Eff A) (handler : Js.Error → Eff A) : Eff A :=
  match m with
  | (t, Throw e) => let '(t', r) := handler e in (t ++ t', r)
  | other => other
  end.

Definition consoleError (label : string) (e : Js.Error) : Eff unit :=
  ([EvConsoleError label e], Return tt).

(** ** searchProvider.ts *)

(** The settings a [TextSearcher] holds; [getExcludePatterns] hands out
    [{ patterns, enabled }]. *)
Record SearchState : Type :=
  { caseSensitive : bool;
    excludePatterns : list Js.string;
    excludeEnabled : bool }.

(** [textSearcher.ts] is not among the sources.  A [TextSearcher] is its
    settings and its two awaited operations, which are left abstract. *)
Record TextSearcher : Type :=
  { searchState : SearchState;
    waitForReady : Eff unit;
    indexSearch : Js.string → option AbortSignal → Eff (list SearchResult) }.

Definition getCaseSensitive (ts : TextSearcher) : bool :=
  caseSensitive (searchState ts).

(** [{ currentFileOnly?: boolean; currentFileUri?: vscode.Uri }] *)
Record SearchOptions : Type :=
  { currentFileOnly : option bool;
    currentFileUri : option Uri }.

(** [a ?? b] *)
Definition nullish {A} (a b : option A) : option A :=
  match a with
  | Some x => Some x
  | None => b
  end.

Definition searchCancelled : Js.Error := Js.mkError "Search cancelled".

Section Provider.

(** [vscode.workspace.openTextDocument], as the workspace stands when it is
    called: a document, or the error the promise rejects with. *)
Variable workspace : Uri → Js.Error + TextDocument.

(** [String.prototype.toLowerCase], the host's. *)
Variable toLowerCase : Js.string → Js.string.

Definition openTextDocument (u : Uri) : Eff TextDocument :=
  ([EvOpenTextDocument u],
   match workspace u with
   | inl e => Throw e
   | inr doc => Return doc
   end).

(** The [while (true)] loop over one line.  The source's loop has no bound;
    here [fuel] bounds the number of iterations and [None] means that the
    bound was hit.  [whileIndexOf_line] shows that the bound [forLines] gives
    is never hit when the needle is not empty, [whileIndexOf_empty_needle]
    that every bound is hit when it is. *)
Fixpoint whileIndexOf (fuel : nat) (u : Uri) (q needle : Js.string)
    (lineNo : nat) (lineText hay : Js.string) (from : nat)
    (results : list SearchResult) : option (list SearchResult) :=
  match fuel with
  | 0 => None
  | S fuel' =>
      match Js.indexOf hay needle from with
      | None => Some results
      | Some at_ =>
          let start_ := {| line := lineNo; character := at_ |} in
          let stop := {| line := lineNo; character := at_ + length q |} in
          let range_ := {| start := start_; end_ := stop |} in
          whileIndexOf fuel' u q needle lineNo lineText hay
            (at_ + Nat.max 1 (length q))
            (results ++ [{| uri := u; range := range_; detail := lineText |}])
      end
  end.

(** The [for] loop over the lines [lineNo], [lineNo + 1], ... of which
    [remaining] are left. *)
Fixpoint forLines (signal : option AbortSignal) (cs : bool) (u : Uri)
    (q needle : Js.string) (doc : TextDocument) (remaining lineNo : nat)
    (results : list SearchResult) : outcome (list SearchResult) :=
  match remaining with
  | 0 => Return results
  | S remaining' =>
      if signalAborted signal then Throw searchCancelled
      else
        let lineText := lineAt doc lineNo in
        let hay := if cs then lineText else toLowerCase lineText in
        match whileIndexOf (S (length hay)) u q needle lineNo
                lineText hay 0 results with
        | None => Diverge
        | Some results' =>
            forLines signal cs u q needle doc remaining' (S lineNo) results'
        end
  end.

Definition searchInSingleDocument (ts : TextSearcher) (u : Uri)
    (query : Js.string) (signal : option AbortSignal)
    : Eff (list SearchResult) :=
  let q := Js.trim query in
  if Js.isEmpty q then mret []
  else
    doc ← openTextDocument u;
    let cs := getCaseSensitive ts in
    let needle := if cs then q else toLowerCase q in
    ([], forLines signal cs u q needle doc (lineCount doc) 0 []).

(** [SearchProvider.search]; [own] is [this.options]. *)
Definition search (ts : TextSearcher) (own : option SearchOptions)
    (query : Js.string) (signal : option AbortSignal)
    (options : option SearchOptions) : Eff (list SearchResult) :=
  tryCatch
    (_ ← waitForReady ts;
     let effectiveCurrentFileOnly :=
       nullish (options ≫= currentFileOnly) (own ≫= currentFileOnly) in
     let effectiveUri :=
       nullish (options ≫= currentFileUri) (own ≫= currentFileUri) in
     match effectiveCurrentFileOnly, effectiveUri with
     | Some true, Some u => searchInSingleDocument ts u query signal
     | _, _ => indexSearch ts query signal
     end)
    (λ error,
       if signalAborted signal then throw searchCancelled
       else (_ ← consoleError "Search provider error:" error; throw error)).

End Provider.

(** ** searchModal.ts *)

(** One entry of [currentResults]. *)
Record ResultItem : Type :=
  { filePath : string;
    fileName : string;
    relativePath : string;
    lineNumber : nat;
    lineText : Js.string;
    itemRange : Range }.

(** What the modal posts to its webview. *)
Inductive Message : Type :=
  | SearchResults (results : list ResultItem) (query : Js.string) (searchId : nat)
  | ClearPreview
  | SearchError (error : string) (query : Js.string) (searchId : nat)
  | FilePreview (content : Js.string) (path name : string) (lineNo : nat)
      (query : Js.string)
  | CaseSensitiveChanged (newState : bool)
  | HistoryUpdated (history : list Js.string).

(** A call of [searchProvider.search] whose promise has not settled:
    the request id of the [performSearch] that awaits it, the controller whose
    signal it was given, and its arguments. *)
Record SearchCall : Type :=
  { callId : nat;
    callController : nat;
    callQuery : Js.string;
    callOptions : SearchOptions }.

(** A call of [showFilePreview] awaiting its document. *)
Record PreviewCall : Type :=
  { previewPath : string;
    previewLine : nat;
    previewQuery : Js.string }.

(** What the modal does to the world around it, oldest first. *)
Inductive effect : Type :=
  | Posted (msg : Message)
  | Logged (label : string) (e : Js.Error)
  | Aborted (controller : nat)
  | Called (call : SearchCall)
  | Stored (history : list Js.string).

(** Everything of the host the modal reads or writes: the [AbortController]s
    constructed so far (a controller is its number) and those whose [abort]
    has run, the promises not yet settled, the value of [globalState] under
    [HISTORY_KEY], and the trace of effects. *)
Record Host : Type :=
  { controllers : nat;
    abortedControllers : list nat;
    inflight : list SearchCall;
    previews : list PreviewCall;
    globalHistory : option (list Js.string);
    trace : list effect }.

(** [new SearchProvider(context, options)]: its [TextSearcher] and the
    options it was constructed with. *)
Record SearchProvider : Type :=
  { textSearcher : TextSearcher;
    providerOptions : option SearchOptions }.

(** The fields of a [SearchModal] that the modelled methods use;
    [initialEditor] is the editor's [document.uri]. *)
Record SearchModal : Type :=
  { searchProvider : SearchProvider;
    currentResults : list ResultItem;
    currentSearchId : nat;
    abortController : option nat;
    initialEditor : option Uri;
    options : option SearchOptions }.

Definition MAX_HISTORY : nat := 20.

Definition withTrace (e : effect) (h : Host) : Host :=
  {| controllers := controllers h;
     abortedControllers := abortedControllers h;
     inflight := inflight h;
     previews := previews h;
     globalHistory := globalHistory h;
     trace := trace h ++ [e] |}.

(** [panel.webview.postMessage(msg)] *)
Definition postMessage (msg : Message) (h : Host) : Host :=
  withTrace (Posted msg) h.

(** [console.error(label, e)] *)
Definition logError (label : string) (e : Js.Error) (h : Host) : Host :=
  withTrace (Logged label e) h.

(** [controller.abort()] *)
Definition abort (c : nat) (h : Host) : Host :=
  withTrace (Aborted c)
    {| controllers := controllers h;
       abortedControllers := c :: abortedControllers h;
       inflight := inflight h;
       previews := previews h;
       globalHistory := globalHistory h;
       trace := trace h |}.

(** [new AbortController()]: the new controller and the host that has it. *)
Definition newAbortController (h : Host) : nat * Host :=
  (controllers h,
   {| controllers := S (controllers h);
      abortedControllers := abortedControllers h;
      inflight := inflight h;
      previews := previews h;
      globalHistory := globalHistory h;
      trace := trace h |}).

(** [searchProvider.search(...)] is called and awaited. *)
Definition callSearch (call : SearchCall) (h : Host) : Host :=
  withTrace (Called call)
    {| controllers := controllers h;
       abortedControllers := abortedControllers h;
       inflight := inflight h ++ [call];
       previews := previews h;
       globalHistory := globalHistory h;
       trace := trace h |}.

Definition setInflight (l : list SearchCall) (h : Host) : Host :=
  {| controllers := controllers h;
     abortedControllers := abortedControllers h;
     inflight := l;
     previews := previews h;
     globalHistory := globalHistory h;
     trace := trace h |}.

Definition setPreviews (l : list PreviewCall) (h : Host) : Host :=
  {| controllers := controllers h;
     abortedControllers := abortedControllers h;
     inflight := inflight h;
     previews := l;
     globalHistory := globalHistory h;
     trace := trace h |}.

(** [context.globalState.update(HISTORY_KEY, value)] *)
Definition globalStateUpdate (value : list Js.string) (h : Host) : Host :=
  withTrace (Stored value)
    {| controllers := controllers h;
       abortedControllers := abortedControllers h;
       inflight := inflight h;
       previews := previews h;
       globalHistory := Some value;
       trace := trace h |}.

(** The signal of controller [c], as it stands in [h]. *)
Definition signalOf (c : nat) (h : Host) : AbortSignal :=
  {| aborted := bool_decide (c ∈ abortedControllers h) |}.

Definition setCurrentResults (l : list ResultItem) (m : SearchModal) : SearchModal :=
  {| searchProvider := searchProvider m;
     currentResults := l;
     currentSearchId := currentSearchId m;
     abortController := abortController m;
     initialEditor := initialEditor m;
     options := options m |}.

Definition setCurrentSearchId (n : nat) (m : SearchModal) : SearchModal :=
  {| searchProvider := searchProvider m;
     currentResults := currentResults m;
     currentSearchId := n;
     abortController := abortController m;
     initialEditor := initialEditor m;
     options := options m |}.

Definition setAbortController (c : option nat) (m : SearchModal) : SearchModal :=
  {| searchProvider := searchProvider m;
     currentResults := currentResults m;
     currentSearchId := currentSearchId m;
     abortController := c;
     initialEditor := initialEditor m;
     options := options m |}.

(** Modelled from the spec: [TextSearcher.setCaseSensitive], of the absent
    [textSearcher.ts].  [SearchState] is mutated only through explicit setter
    calls; the setter stores the flag and does nothing else. *)
Definition TextSearcher_setCaseSensitive (b : bool) (st : SearchState)
    : outcome SearchState :=
  Return {| caseSensitive := b;
            excludePatterns := excludePatterns st;
            excludeEnabled := excludeEnabled st |}.

(** Modelled from the spec: [TextSearcher.setExcludePatterns], of the absent
    [textSearcher.ts]: the setter stores the patterns and the enabled flag and
    does nothing else. *)
Definition TextSearcher_setExcludePatterns (patterns : list Js.string)
    (enabled : bool) (st : SearchState) : outcome SearchState :=
  Return {| caseSensitive := caseSensitive st;
            excludePatterns := patterns;
            excludeEnabled := enabled |}.

(** [this.context.globalState.get(HISTORY_KEY, [])] *)
Definition loadHistory (h : Host) : list Js.string :=
  default [] (globalHistory h).

(** [history.slice(0, MAX_HISTORY)] is what is stored. *)
Definition saveHistory (history : list Js.string) (h : Host) : Host :=
  globalStateUpdate (take MAX_HISTORY history) h.

Definition addToHistory (query : Js.string) (h : Host) : Host :=
  let q := Js.trim query in
  if Js.isEmpty q then h
  else
    let history := loadHistory h in
    let next := q :: filter (λ x, x ≠ q) history in
    let h := saveHistory next h in
    postMessage (HistoryUpdated next) h.

Definition setSearchProvider (sp : SearchProvider) (m : SearchModal) : SearchModal :=
  {| searchProvider := sp;
     currentResults := currentResults m;
     currentSearchId := currentSearchId m;
     abortController := abortController m;
     initialEditor := initialEditor m;
     options := options m |}.

Definition withSearchState (st : SearchState) (sp : SearchProvider) : SearchProvider :=
  {| textSearcher :=
       {| searchState := st;
          waitForReady := waitForReady (textSearcher sp);
          indexSearch := indexSearch (textSearcher sp) |};
     providerOptions := providerOptions sp |}.

(** [SearchProvider.setCaseSensitive]: hands the flag to its [TextSearcher]. *)
Definition setCaseSensitive (b : bool) (sp : SearchProvider)
    : outcome SearchProvider :=
  match TextSearcher_setCaseSensitive b (searchState (textSearcher sp)) with
  | Return st => Return (withSearchState st sp)
  | Throw e => Throw e
  | Diverge => Diverge
  end.

(** [SearchProvider.setExcludePatterns] *)
Definition setExcludePatterns (patterns : list Js.string) (enabled : bool)
    (sp : SearchProvider) : outcome SearchProvider :=
  match TextSearcher_setExcludePatterns patterns enabled
          (searchState (textSearcher sp)) with
  | Return st => Return (withSearchState st sp)
  | Throw e => Throw e
  | Diverge => Diverge
  end.

(** A condition [x] where [x] is an optional boolean. *)
Definition truthy (x : option bool) : bool := default false x.

(** The constructor: [options] is copied, and in current-file mode the
    editor's uri is written into the copy, which the provider shares. *)
Definition newSearchModal (ts : TextSearcher) (editor : option Uri)
    (opts : option SearchOptions) : SearchModal :=
  let own :=
    match opts with
    | Some o =>
        match truthy (currentFileOnly o), editor with
        | true, Some u =>
            Some {| currentFileOnly := currentFileOnly o; currentFileUri := Some u |}
        | _, _ => Some o
        end
    | None => None
    end in
  {| searchProvider := {| textSearcher := ts; providerOptions := own |};
     currentResults := [];
     currentSearchId := 0;
     abortController := None;
     initialEditor := editor;
     options := own |}.

Definition newHost : Host :=
  {| controllers := 0;
     abortedControllers := [];
     inflight := [];
     previews := [];
     globalHistory := None;
     trace := [] |}.

Section Modal.

(** [path.basename] and [vscode.workspace.asRelativePath] *)
Variable basename : string → string.
Variable asRelativePath : Uri → string.

(** The body of [results.map(r => ...)] in [performSearch]. *)
Definition toItem (r : SearchResult) : ResultItem :=
  {| filePath := fsPath (uri r);
     fileName := basename (fsPath (uri r));
     relativePath := asRelativePath (uri r);
     lineNumber := line (start (range r)) + 1;
     lineText := detail r;
     itemRange := range r |}.

Definition toggleCaseSensitive (m : SearchModal) (h : Host)
    : SearchModal * Host :=
  let currentState := getCaseSensitive (textSearcher (searchProvider m)) in
  let newState := negb currentState in
  match setCaseSensitive newState (searchProvider m) with
  | Return sp =>
      (setSearchProvider sp m, postMessage (CaseSensitiveChanged newState) h)
  | Throw e => (m, logError "Failed to toggle case sensitivity:" e h)
  | Diverge => (m, h)
  end.

Definition saveExcludePatterns (patterns : list Js.string) (enabled : bool)
    (m : SearchModal) (h : Host) : SearchModal * Host :=
  match setExcludePatterns patterns enabled (searchProvider m) with
  | Return sp => (setSearchProvider sp m, h)
  | Throw e => (m, logError "Failed to save exclude patterns:" e h)
  | Diverge => (m, h)
  end.

(** [performSearch] up to its [await]. *)
Definition performSearch (query : Js.string) (excludePatterns : list Js.string)
    (searchAllFiles : option bool) (m : SearchModal) (h : Host)
    : SearchModal * Host :=
  let '(m, h) :=
    match abortController m with
    | Some c => (setAbortController None m, abort c h)
    | None => (m, h)
    end in
  let searchId := S (currentSearchId m) in
  let m := setCurrentSearchId searchId m in
  let '(c, h) := newAbortController h in
  let m := setAbortController (Some c) m in
  if length query <? 2 then
    let m := setCurrentResults [] m in
    let h := postMessage (SearchResults [] query searchId) h in
    let h := postMessage ClearPreview h in
    (m, h)
  else
    let effectiveSearchAllFiles :=
      match searchAllFiles with
      | Some b => b
      | None => negb (truthy (options m ≫= currentFileOnly))
      end in
    (m, callSearch
          {| callId := searchId;
             callController := c;
             callQuery := query;
             callOptions :=
               {| currentFileOnly := Some (negb effectiveSearchAllFiles);
                  currentFileUri :=
                    nullish (options m ≫= currentFileUri) (initialEditor m) |} |}
          h).

(** [showFilePreview] up to its [await]. *)
Definition showFilePreview (path : string) (lineNo : nat) (query : Js.string)
    (h : Host) : Host :=
  setPreviews (previews h ++ [{| previewPath := path;
                                previewLine := lineNo;
                                previewQuery := query |}]) h.

(** [showFilePreview] once [openTextDocument] has settled. *)
Definition showFilePreview_settled (p : PreviewCall)
    (reply : Js.Error + TextDocument) (h : Host) : Host :=
  match reply with
  | inr document =>
      postMessage (FilePreview (getText document) (previewPath p)
                     (basename (previewPath p)) (previewLine p)
                     (previewQuery p)) h
  | inl error => logError "Preview error:" error h
  end.

(** [performSearch] once [searchProvider.search] has returned [results]. *)
Definition performSearch_returned (call : SearchCall)
    (results : list SearchResult) (m : SearchModal) (h : Host)
    : SearchModal * Host :=
  let searchId := callId call in
  let query := callQuery call in
  if negb (searchId =? currentSearchId m) then (m, h)
  else
    let m := setCurrentResults (map toItem results) m in
    let h := postMessage (SearchResults (currentResults m) query searchId) h in
    match currentResults m with
    | first :: _ =>
        (m, showFilePreview (filePath first) (lineNumber first) query h)
    | [] => (m, postMessage ClearPreview h)
    end.

(** [performSearch] once [searchProvider.search] has thrown [error]. *)
Definition performSearch_threw (call : SearchCall) (error : Js.Error)
    (m : SearchModal) (h : Host) : SearchModal * Host :=
  let searchId := callId call in
  let query := callQuery call in
  let h := logError "Search error:" error h in
  if searchId =? currentSearchId m then
    let h := postMessage (SearchError (Js.message error) query searchId) h in
    let h := postMessage ClearPreview h in
    (m, h)
  else (m, h).

(** What can happen to a modal: a message of its webview arrives, or one of
    the promises it awaits settles. *)
Inductive action : Type :=
  | DoSearch (query : Js.string) (excludePatterns : list Js.string)
      (searchAllFiles : option bool)
  | SearchSettles (searchId : nat) (reply : outcome (list SearchResult))
  | SelectFile (path : string) (lineNo : nat) (query : Js.string)
  | PreviewSettles (n : nat) (reply : Js.Error + TextDocument)
  | CommitHistory (query : Js.string)
  | ToggleCaseSensitive
  | SaveExcludePatterns (patterns : list Js.string) (enabled : bool).

Definition step (a : action) (s : SearchModal * Host) : SearchModal * Host :=
  let '(m, h) := s in
  match a with
  | DoSearch query excludePatterns searchAllFiles =>
      performSearch query excludePatterns searchAllFiles m h
  | SearchSettles searchId reply =>
      match list_find (λ c, callId c = searchId) (inflight h) with
      | Some (i, call) =>
          match reply with
          | Return results =>
              performSearch_returned call results m
                (setInflight (delete i (inflight h)) h)
          | Throw error =>
              performSearch_threw call error m
                (setInflight (delete i (inflight h)) h)
          | Diverge => (m, h)
          end
      | None => (m, h)
      end
  | SelectFile path lineNo query => (m, showFilePreview path lineNo query h)
  | PreviewSettles n reply =>
      match previews h !! n with
      | Some p =>
          (m, showFilePreview_settled p reply
                (setPreviews (delete n (previews h)) h))
      | None => (m, h)
      end
  | CommitHistory query => (m, addToHistory query h)
  | ToggleCaseSensitive => toggleCaseSensitive m h
  | SaveExcludePatterns patterns enabled =>
      saveExcludePatterns patterns enabled m h
  end.

(** The actions of [l] happen one after the other. *)
Definition run (l : list action) (s : SearchModal * Host)
    : SearchModal * Host :=
  fold_left (λ s a, step a s) l s.

End Modal.

(** ** Vocabulary of the statements *)

(** [needle] stands in [hay] at column [p]. *)
Definition occursAt (hay needle : Js.string) (p : nat) : Prop :=
  take (length needle) (drop p hay) = needle.

(** What the comparison sees of a string, [toLowerCase] being the host's
    function. *)
Definition normalise (toLowerCase : Js.string → Js.string) (cs : bool)
    (s : Js.string) : Js.string :=
  if cs then s else toLowerCase s.

(** The columns at which the loop of [whileIndexOf] finds [needle], when it
    starts at [from] and moves on by [stride] after a match. *)
Fixpoint scanColumns (fuel : nat) (hay needle : Js.string) (stride from : nat)
    : list nat :=
  match fuel with
  | 0 => []
  | S fuel' =>
      match Js.indexOf hay needle from with
      | None => []
      | Some at_ => at_ :: scanColumns fuel' hay needle stride (at_ + stride)
      end
  end.

(** The record pushed for a match at column [at_] of line [lineNo]. *)
Definition matchAt (u : Uri) (q : Js.string) (lineNo : nat) (text : Js.string)
    (at_ : nat) : SearchResult :=
  {| uri := u;
     range := {| start := {| line := lineNo; character := at_ |};
                 end_ := {| line := lineNo; character := at_ + length q |} |};
     detail := text |}.

(** The matches of one line, and of a whole document. *)
Definition lineMatches (toLowerCase : Js.string → Js.string) (cs : bool)
    (u : Uri) (q : Js.string) (lineNo : nat) (text : Js.string)
    : list SearchResult :=
  map (matchAt u q lineNo text)
    (scanColumns (S (length (normalise toLowerCase cs text)))
       (normalise toLowerCase cs text) (normalise toLowerCase cs q)
       (Nat.max 1 (length q)) 0).

Definition documentMatches (toLowerCase : Js.string → Js.string) (cs : bool)
    (u : Uri) (q : Js.string) (doc : TextDocument) : list SearchResult :=
  concat (map (λ i, lineMatches toLowerCase cs u q i (lineAt doc i))
            (seq 0 (lineCount doc))).

Definition startLine (r : SearchResult) : nat := line (start (range r)).
Definition startColumn (r : SearchResult) : nat := character (start (range r)).
Definition endLine (r : SearchResult) : nat := line (end_ (range r)).
Definition endColumn (r : SearchResult) : nat := character (end_ (range r)).

(** The order of a result list: by line, then by column. *)
Definition before (a b : SearchResult) : Prop :=
  startLine a < startLine b
  ∨ (startLine a = startLine b ∧ startColumn a < startColumn b).

(** The start columns of the results that lie on line [lineNo]. *)
Definition columnsOn (lineNo : nat) (results : list SearchResult) : list nat :=
  map startColumn (filter (λ r, startLine r = lineNo) results).

(** Every code unit of [s] is white space. *)
Fixpoint allWhiteSpace (s : Js.string) : bool :=
  match s with
  | [] => true
  | c :: t => Js.isWhiteSpace c && allWhiteSpace t
  end.

(** [c] is among the code units of [s]. *)
Fixpoint contains (c : N) (s : Js.string) : bool :=
  match s with
  | [] => false
  | d :: t => (d =? c)%N || contains c t
  end.

(** What a theorem may ask of the host's [toLowerCase]: that the lower case
    of a string with code units has code units, and that lower-casing
    neither makes nor loses a line feed. *)
Definition keepsText (toLowerCase : Js.string → Js.string) : Prop :=
  ∀ s, s ≠ [] → toLowerCase s ≠ [].

Definition keepsLineFeeds (toLowerCase : Js.string → Js.string) : Prop :=
  ∀ s, contains LF (toLowerCase s) = contains LF s.

(** The comparison sees [s] code unit by code unit: what it sees of a
    stretch of [s] is that stretch of what it sees of [s].  It is so for
    every string when the search is case-sensitive, and otherwise where
    lower-casing maps each code unit of [s] to one code unit, whatever its
    neighbours; not where it lengthens [s], as U+0130 does. *)
Definition inPlace (toLowerCase : Js.string → Js.string) (cs : bool)
    (s : Js.string) : Prop :=
  ∀ p n, normalise toLowerCase cs (take n (drop p s))
         = take n (drop p (normalise toLowerCase cs s)).

(** [q] stands in [text] at column [p], as the comparison sees the two. *)
Definition standsAt (toLowerCase : Js.string → Js.string) (cs : bool)
    (text q : Js.string) (p : nat) : Prop :=
  p + length q ≤ length text
  ∧ normalise toLowerCase cs (take (length q) (drop p text))
    = normalise toLowerCase cs q.

(** A workspace that holds one document, at [u]. *)
Definition oneFile (u : Uri) (text : Js.string) : Uri → Js.Error + TextDocument :=
  λ v, if String.eqb (fsPath v) (fsPath u) then inr {| getText := text |}
       else inl (Js.mkError "cannot open file").

(** A workspace in which no document can be opened. *)
Definition noFile (e : Js.Error) : Uri → Js.Error + TextDocument := λ _, inl e.

(** A searcher that is ready at once and whose index is empty. *)
Definition idleSearcher (cs : bool) : TextSearcher :=
  {| searchState :=
       {| caseSensitive := cs; excludePatterns := []; excludeEnabled := false |};
     waitForReady := ([EvWaitForReady], Return tt);
     indexSearch := λ q _, ([EvIndexSearch q], Return []) |}.

Definition sampleUri : Uri := {| fsPath := "/w/a.txt" |}.

(** The options [performSearch] passes in current-file mode. *)
Definition inCurrentFile (u : Uri) : option SearchOptions :=
  Some {| currentFileOnly := Some true; currentFileUri := Some u |}.

(** The messages in a trace, oldest first. *)
Definition postedIn (t : list effect) : list Message :=
  omap (λ e, match e with Posted msg => Some msg | _ => None end) t.

(** The request ids for which a result set or an error was delivered. *)
Definition deliveredIds (t : list effect) : list nat :=
  omap (λ msg, match msg with
               | SearchResults _ _ i => Some i
               | SearchError _ _ i => Some i
               | _ => None
               end) (postedIn t).

(** The calls of [searchProvider.search] in a trace. *)
Definition searchCallsIn (t : list effect) : list SearchCall :=
  omap (λ e, match e with Called c => Some c | _ => None end) t.

(** The queries committed by the actions of [l], in order. *)
Definition committed (l : list action) : list Js.string :=
  omap (λ a, match a with CommitHistory q => Some q | _ => None end) l.

(** The texts that [addToHistory] accepts among [l]: trimmed, blank ones
    dropped. *)
Definition accepted (l : list Js.string) : list Js.string :=
  filter (λ q, q ≠ []) (map Js.trim l).

(** The history as the specification words it: every text once, at its
    first occurrence. *)
Fixpoint dedupe (l : list Js.string) : list Js.string :=
  match l with
  | [] => []
  | x :: t => x :: filter (λ y, y ≠ x) (dedupe t)
  end.

(** The history as the specification words it: the most recent texts first,
    without repetition, at most [MAX_HISTORY] of them. *)
Definition recentFirst (l : list Js.string) : list Js.string :=
  take MAX_HISTORY (dedupe (reverse l)).

(** The effects [performSearch] has before it looks at the query. *)
Definition superseding (m : SearchModal) : list effect :=
  match abortController m with
  | Some c => [Aborted c]
  | None => []
  end.

(** The call [performSearch] makes for a query of two code units or more. *)
Definition callOf (query : Js.string) (searchAllFiles : option bool)
    (m : SearchModal) (h : Host) : SearchCall :=
  {| callId := S (currentSearchId m);
     callController := controllers h;
     callQuery := query;
     callOptions :=
       {| currentFileOnly :=
            Some (negb match searchAllFiles with
                       | Some b => b
                       | None => negb (truthy (options m ≫= currentFileOnly))
                       end);
          currentFileUri :=
            nullish (options m ≫= currentFileUri) (initialEditor m) |} |}.

(** Controller [c] is the live one, or it has been aborted. *)
Definition liveOrAborted (c : nat) (s : SearchModal * Host) : Prop :=
  (abortController (fst s) = Some c ∨ c ∈ abortedControllers (snd s))
  ∧ c < controllers (snd s).

(** ** searchModal.ts: opening and revealing the modal *)

(** What the modal reads of a [vscode.TextEditor]: its document's uri,
    whether its selection is empty, the text of the selection, and the text of
    the word at the cursor, if there is a word there. *)
Record TextEditor : Type :=
  { editorUri : Uri;
    selectionIsEmpty : bool;
    selectedText : Js.string;
    wordAtCursor : option Js.string }.

(** [getInitialQuery]; [editor] is [this.initialEditor] and [active] is
    [vscode.window.activeTextEditor]. *)
Definition getInitialQuery (editor active : option TextEditor) : Js.string :=
  match nullish editor active with
  | None => []
  | Some e =>
      let fromWord :=
        match wordAtCursor e with
        | Some w => let word := Js.trim w in
                    if Js.isEmpty word then [] else word
        | None => []
        end in
      if negb (selectionIsEmpty e) then
        let selected := Js.trim (selectedText e) in
        if Js.isEmpty selected then fromWord else selected
      else fromWord
  end.

(** The messages of the modal that are no answer to a search. *)
Inductive PanelMessage : Type :=
  | SetInitialQuery (query : Js.string) (searchAllFiles : bool)
  | FocusSearch
  | SearchInitialized (caseSensitive : bool)
  | ExcludePatternsLoaded (patterns : list Js.string) (enabled : bool)
  | HistoryLoaded (history : list Js.string) (initialQuery : Js.string)
      (initialSearchAllFiles : bool)
  | SearchInitializationError (error : string).

Inductive panelEffect : Type :=
  | PanelPosted (msg : PanelMessage)
  | PanelLogged (label : string) (e : Js.Error).

(** [{ ...a, ...b }] on options: a property that [b] has wins.  A property is
    [None] when the object does not have it. *)
Definition spread (a : option SearchOptions) (b : SearchOptions) : SearchOptions :=
  {| currentFileOnly := nullish (currentFileOnly b) (a ≫= currentFileOnly);
     currentFileUri := nullish (currentFileUri b) (a ≫= currentFileUri) |}.

Definition setInitialEditor (e : option Uri) (m : SearchModal) : SearchModal :=
  {| searchProvider := searchProvider m;
     currentResults := currentResults m;
     currentSearchId := currentSearchId m;
     abortController := abortController m;
     initialEditor := e;
     options := options m |}.

Definition setOptions (o : option SearchOptions) (m : SearchModal) : SearchModal :=
  {| searchProvider := searchProvider m;
     currentResults := currentResults m;
     currentSearchId := currentSearchId m;
     abortController := abortController m;
     initialEditor := initialEditor m;
     options := o |}.

(** [SearchModal.createOrShow]: [currentModal] is the static field, which
    holds the returned modal afterwards; [ts] is the searcher a new provider
    constructs. *)
Definition createOrShow (currentModal : option SearchModal) (ts : TextSearcher)
    (editor : option TextEditor) (opts : option SearchOptions)
    (active : option TextEditor) : SearchModal * list PanelMessage :=
  match currentModal with
  | Some modal =>
      let modal := setInitialEditor (editorUri <$> editor) modal in
      let modal :=
        setOptions
          match opts with
          | Some o => Some (spread (options modal) o)
          | None => options modal
          end modal in
      let modal :=
        match truthy (opts ≫= currentFileOnly), editor with
        | true, Some e =>
            setOptions (Some {| currentFileOnly := Some true;
                                currentFileUri := Some (editorUri e) |}) modal
        | _, _ => modal
        end in
      let initialQuery := getInitialQuery editor active in
      let searchAllFiles := negb (truthy (options modal ≫= currentFileOnly)) in
      (modal, [SetInitialQuery initialQuery searchAllFiles; FocusSearch])
  | None => (newSearchModal ts (editorUri <$> editor) opts, [])
  end.

(** [initializeSearch]; [excludeData] is how
    [searchProvider.getExcludePatterns()] settles, and [editor] and [active]
    are as for [getInitialQuery]. *)
Definition initializeSearch (m : SearchModal) (h : Host)
    (editor active : option TextEditor)
    (excludeData : outcome (list Js.string * bool)) : list panelEffect :=
  let failed error :=
    [PanelLogged "Search initialization error:" error;
     PanelPosted (SearchInitializationError (Js.message error))] in
  match result (waitForReady (textSearcher (searchProvider m))) with
  | Return _ =>
      PanelPosted
        (SearchInitialized (getCaseSensitive (textSearcher (searchProvider m))))
      :: match excludeData with
         | Return (patterns, enabled) =>
             [PanelPosted (ExcludePatternsLoaded patterns enabled);
              PanelPosted
                (HistoryLoaded (loadHistory h) (getInitialQuery editor active)
                   (negb (truthy (options m ≫= currentFileOnly))))]
         | Throw error => failed error
         | Diverge => []
         end
  | Throw error => failed error
  | Diverge => []
  end.

(** The two commands that [activate] registers. *)
Inductive command : Type :=
  | SearchInFiles
  | SearchInCurrentFile.

(** A command runs: [active] is [vscode.window.activeTextEditor]. *)
Definition invoke (c : command) (currentModal : option SearchModal)
    (ts : TextSearcher) (active : option TextEditor)
    : SearchModal * list PanelMessage :=
  createOrShow currentModal ts active
    match c with
    | SearchInFiles => None
    | SearchInCurrentFile =>
        Some {| currentFileOnly := Some true; currentFileUri := None |}
    end active.

(** What happens to the extension: a command runs, or something happens to
    the modal there is. *)
Inductive extensionEvent : Type :=
  | Command (c : command) (active : option TextEditor)
  | Act (a : action).

Definition extensionStep (basename : string → string)
    (asRelativePath : Uri → string) (ts : TextSearcher)
    (s : option (SearchModal * Host)) (e : extensionEvent)
    : option (SearchModal * Host) :=
  match e, s with
  | Command c active, Some (m, h) => Some (fst (invoke c (Some m) ts active), h)
  | Command c active, None => Some (fst (invoke c None ts active), newHost)
  | Act a, Some s => Some (step basename asRelativePath a s)
  | Act a, None => None
  end.

Definition extensionRun (basename : string → string)
    (asRelativePath : Uri → string) (ts : TextSearcher)
    (l : list extensionEvent) (s : option (SearchModal * Host))
    : option (SearchModal * Host) :=
  fold_left (extensionStep basename asRelativePath ts) l s.

(** ** The script of the webview

    The script that [getWebviewContent] puts into the page, as a machine: its
    variables, the value of the search box, its pending timers and the
    messages it has posted.  What it writes into the page (markup, classes,
    focus, scrolling) is not read back by it and is left out; what it reads
    from the page comes with the event.  A state is a state of one load of
    the page: the panel is created with [retainContextWhenHidden: false], so
    the script starts anew when a hidden panel is shown again. *)

Module Webview.

(** [vscode.postMessage(...)], by [type]. *)
Inductive Outgoing : Type :=
  | PostInitializeSearch
  | PostSearch (query : Js.string) (searchId : nat) (searchAllFiles : bool)
      (excludePatterns : list Js.string)
  | PostCommitHistory (query : Js.string)
  | PostToggleCaseSensitive
  | PostSelectFile (path : string) (lineNo : nat) (query : Js.string)
  | PostOpenFile (path : string) (lineNo : nat)
  | PostClose
  | PostSaveExcludePatterns (patterns : list Js.string) (enabled : bool)
  | PostClearPreview.

(** What the window's [message] listener receives. *)
Inductive Incoming : Type :=
  | FromSearch (msg : Message)
  | FromPanel (msg : PanelMessage)
  | SearchProgress (message : string) (progress : option nat).

(** What the timer held in [searchTimeout] runs when it fires: the closure of
    the input listener with its [query], or [performNewSearch]. *)
Inductive Timer : Type :=
  | InputSearch (query : Js.string)
  | NewSearch.

Record State : Type :=
  { searchInputValue : Js.string;
    searchTimeout : option Timer;
    commitTimer : bool;
    currentResults : list ResultItem;
    currentResultsCount : nat;
    lastCommittedQuery : Js.string;
    selectedIndex : Z;
    currentSearchId : nat;
    searchAllFiles : bool;
    isSearching : bool;
    searchInitialized : bool;
    caseSensitive : bool;
    lastQuery : Js.string;
    history : list Js.string;
    initialQuery : Js.string;
    excludePatterns : list Js.string;
    excludeEnabled : bool;
    sent : list Outgoing }.

Definition set_searchInputValue (v : Js.string) (s : State) : State :=
  {| searchInputValue := v;
     searchTimeout := searchTimeout s;
     commitTimer := commitTimer s;
     currentResults := currentResults s;
     currentResultsCount := currentResultsCount s;
     lastCommittedQuery := lastCommittedQuery s;
     selectedIndex := selectedIndex s;
     currentSearchId := currentSearchId s;
     searchAllFiles := searchAllFiles s;
     isSearching := isSearching s;
     searchInitialized := searchInitialized s;
     caseSensitive := caseSensitive s;
     lastQuery := lastQuery s;
     history := history s;
     initialQuery := initialQuery s;
     excludePatterns := excludePatterns s;
     excludeEnabled := excludeEnabled s;
     sent := sent s |}.

Definition set_searchTimeout (v : option Timer) (s : State) : State :=
  {| searchInputValue := searchInputValue s;
     searchTimeout := v;
     commitTimer := commitTimer s;
     currentResults := currentResults s;
     currentResultsCount := currentResultsCount s;
     lastCommittedQuery := lastCommittedQuery s;
     selectedIndex := selectedIndex s;
     currentSearchId := currentSearchId s;
     searchAllFiles := searchAllFiles s;
     isSearching := isSearching s;
     searchInitialized := searchInitialized s;
     caseSensitive := caseSensitive s;
     lastQuery := lastQuery s;
     history := history s;
     initialQuery := initialQuery s;
     excludePatterns := excludePatterns s;
     excludeEnabled := excludeEnabled s;
     sent := sent s |}.

Definition set_commitTimer (v : bool) (s : State) : State :=
  {| searchInputValue := searchInputValue s;
     searchTimeout := searchTimeout s;
     commitTimer := v;
     currentResults := currentResults s;
     currentResultsCount := currentResultsCount s;
     lastCommittedQuery := lastCommittedQuery s;
     selectedIndex := selectedIndex s;
     currentSearchId := currentSearchId s;
     searchAllFiles := searchAllFiles s;
     isSearching := isSearching s;
     searchInitialized := searchInitialized s;
     caseSensitive := caseSensitive s;
     lastQuery := lastQuery s;
     history := history s;
     initialQuery := initialQuery s;
     excludePatterns := excludePatterns s;
     excludeEnabled := excludeEnabled s;
     sent := sent s |}.

Definition set_currentResults (v : list ResultItem) (s : State) : State :=
  {| searchInputValue := searchInputValue s;
     searchTimeout := searchTimeout s;
     commitTimer := commitTimer s;
     currentResults := v;
     currentResultsCount := currentResultsCount s;
     lastCommittedQuery := lastCommittedQuery s;
     selectedIndex := selectedIndex s;
     currentSearchId := currentSearchId s;
     searchAllFiles := searchAllFiles s;
     isSearching := isSearching s;
     searchInitialized := searchInitialized s;
     caseSensitive := caseSensitive s;
     lastQuery := lastQuery s;
     history := history s;
     initialQuery := initialQuery s;
     excludePatterns := excludePatterns s;
     excludeEnabled := excludeEnabled s;
     sent := sent s |}.

Definition set_currentResultsCount (v : nat) (s : State) : State :=
  {| searchInputValue := searchInputValue s;
     searchTimeout := searchTimeout s;
     commitTimer := commitTimer s;
     currentResults := currentResults s;
     currentResultsCount := v;
     lastCommittedQuery := lastCommittedQuery s;
     selectedIndex := selectedIndex s;
     currentSearchId := currentSearchId s;
     searchAllFiles := searchAllFiles s;
     isSearching := isSearching s;
     searchInitialized := searchInitialized s;
     caseSensitive := caseSensitive s;
     lastQuery := lastQuery s;
     history := history s;
     initialQuery := initialQuery s;
     excludePatterns := excludePatterns s;
     excludeEnabled := excludeEnabled s;
     sent := sent s |}.

Definition set_lastCommittedQuery (v : Js.string) (s : State) : State :=
  {| searchInputValue := searchInputValue s;
     searchTimeout := searchTimeout s;
     commitTimer := commitTimer s;
     currentResults := currentResults s;
     currentResultsCount := currentResultsCount s;
     lastCommittedQuery := v;
     selectedIndex := selectedIndex s;
     currentSearchId := currentSearchId s;
     searchAllFiles := searchAllFiles s;
     isSearching := isSearching s;
     searchInitialized := searchInitialized s;
     caseSensitive := caseSensitive s;
     lastQuery := lastQuery s;
     history := history s;
     initialQuery := initialQuery s;
     excludePatterns := excludePatterns s;
     excludeEnabled := excludeEnabled s;
     sent := sent s |}.

Definition set_selectedIndex (v : Z) (s : State) : State :=
  {| searchInputValue := searchInputValue s;
     searchTimeout := searchTimeout s;
     commitTimer := commitTimer s;
     currentResults := currentResults s;
     currentResultsCount := currentResultsCount s;
     lastCommittedQuery := lastCommittedQuery s;
     selectedIndex := v;
     currentSearchId := currentSearchId s;
     searchAllFiles := searchAllFiles s;
     isSearching := isSearching s;
     searchInitialized := searchInitialized s;
     caseSensitive := caseSensitive s;
     lastQuery := lastQuery s;
     history := history s;
     initialQuery := initialQuery s;
     excludePatterns := excludePatterns s;
     excludeEnabled := excludeEnabled s;
     sent := sent s |}.

Definition set_currentSearchId (v : nat) (s : State) : State :=
  {| searchInputValue := searchInputValue s;
     searchTimeout := searchTimeout s;
     commitTimer := commitTimer s;
     currentResults := currentResults s;
     currentResultsCount := currentResultsCount s;
     lastCommittedQuery := lastCommittedQuery s;
     selectedIndex := selectedIndex s;
     currentSearchId := v;
     searchAllFiles := searchAllFiles s;
     isSearching := isSearching s;
     searchInitialized := searchInitialized s;
     caseSensitive := caseSensitive s;
     lastQuery := lastQuery s;
     history := history s;
     initialQuery := initialQuery s;
     excludePatterns := excludePatterns s;
     excludeEnabled := excludeEnabled s;
     sent := sent s |}.

Definition set_searchAllFiles (v : bool) (s : State) : State :=
  {| searchInputValue := searchInputValue s;
     searchTimeout := searchTimeout s;
     commitTimer := commitTimer s;
     currentResults := currentResults s;
     currentResultsCount := currentResultsCount s;
     lastCommittedQuery := lastCommittedQuery s;
     selectedIndex := selectedIndex s;
     currentSearchId := currentSearchId s;
     searchAllFiles := v;
     isSearching := isSearching s;
     searchInitialized := searchInitialized s;
     caseSensitive := caseSensitive s;
     lastQuery := lastQuery s;
     history := history s;
     initialQuery := initialQuery s;
     excludePatterns := excludePatterns s;
     excludeEnabled := excludeEnabled s;
     sent := sent s |}.

Definition set_isSearching (v : bool) (s : State) : State :=
  {| searchInputValue := searchInputValue s;
     searchTimeout := searchTimeout s;
     commitTimer := commitTimer s;
     currentResults := currentResults s;
     currentResultsCount := currentResultsCount s;
     lastCommittedQuery := lastCommittedQuery s;
     selectedIndex := selectedIndex s;
     currentSearchId := currentSearchId s;
     searchAllFiles := searchAllFiles s;
     isSearching := v;
     searchInitialized := searchInitialized s;
     caseSensitive := caseSensitive s;
     lastQuery := lastQuery s;
     history := history s;
     initialQuery := initialQuery s;
     excludePatterns := excludePatterns s;
     excludeEnabled := excludeEnabled s;
     sent := sent s |}.

Definition set_searchInitialized (v : bool) (s : State) : State :=
  {| searchInputValue := searchInputValue s;
     searchTimeout := searchTimeout s;
     commitTimer := commitTimer s;
     currentResults := currentResults s;
     currentResultsCount := currentResultsCount s;
     lastCommittedQuery := lastCommittedQuery s;
     selectedIndex := selectedIndex s;
     currentSearchId := currentSearchId s;
     searchAllFiles := searchAllFiles s;
     isSearching := isSearching s;
     searchInitialized := v;
     caseSensitive := caseSensitive s;
     lastQuery := lastQuery s;
     history := history s;
     initialQuery := initialQuery s;
     excludePatterns := excludePatterns s;
     excludeEnabled := excludeEnabled s;
     sent := sent s |}.

Definition set_caseSensitive (v : bool) (s : State) : State :=
  {| searchInputValue := searchInputValue s;
     searchTimeout := searchTimeout s;
     commitTimer := commitTimer s;
     currentResults := currentResults s;
     currentResultsCount := currentResultsCount s;
     lastCommittedQuery := lastCommittedQuery s;
     selectedIndex := selectedIndex s;
     currentSearchId := currentSearchId s;
     searchAllFiles := searchAllFiles s;
     isSearching := isSearching s;
     searchInitialized := searchInitialized s;
     caseSensitive := v;
     lastQuery := lastQuery s;
     history := history s;
     initialQuery := initialQuery s;
     excludePatterns := excludePatterns s;
     excludeEnabled := excludeEnabled s;
     sent := sent s |}.

Definition set_lastQuery (v : Js.string) (s : State) : State :=
  {| searchInputValue := searchInputValue s;
     searchTimeout := searchTimeout s;
     commitTimer := commitTimer s;
     currentResults := currentResults s;
     currentResultsCount := currentResultsCount s;
     lastCommittedQuery := lastCommittedQuery s;
     selectedIndex := selectedIndex s;
     currentSearchId := currentSearchId s;
     searchAllFiles := searchAllFiles s;
     isSearching := isSearching s;
     searchInitialized := searchInitialized s;
     caseSensitive := caseSensitive s;
     lastQuery := v;
     history := history s;
     initialQuery := initialQuery s;
     excludePatterns := excludePatterns s;
     excludeEnabled := excludeEnabled s;
     sent := sent s |}.

Definition set_history (v : list Js.string) (s : State) : State :=
  {| searchInputValue := searchInputValue s;
     searchTimeout := searchTimeout s;
     commitTimer := commitTimer s;
     currentResults := currentResults s;
     currentResultsCount := currentResultsCount s;
     lastCommittedQuery := lastCommittedQuery s;
     selectedIndex := selectedIndex s;
     currentSearchId := currentSearchId s;
     searchAllFiles := searchAllFiles s;
     isSearching := isSearching s;
     searchInitialized := searchInitialized s;
     caseSensitive := caseSensitive s;
     lastQuery := lastQuery s;
     history := v;
     initialQuery := initialQuery s;
     excludePatterns := excludePatterns s;
     excludeEnabled := excludeEnabled s;
     sent := sent s |}.

Definition set_initialQuery (v : Js.string) (s : State) : State :=
  {| searchInputValue := searchInputValue s;
     searchTimeout := searchTimeout s;
     commitTimer := commitTimer s;
     currentResults := currentResults s;
     currentResultsCount := currentResultsCount s;
     lastCommittedQuery := lastCommittedQuery s;
     selectedIndex := selectedIndex s;
     currentSearchId := currentSearchId s;
     searchAllFiles := searchAllFiles s;
     isSearching := isSearching s;
     searchInitialized := searchInitialized s;
     caseSensitive := caseSensitive s;
     lastQuery := lastQuery s;
     history := history s;
     initialQuery := v;
     excludePatterns := excludePatterns s;
     excludeEnabled := excludeEnabled s;
     sent := sent s |}.

Definition set_excludePatterns (v : list Js.string) (s : State) : State :=
  {| searchInputValue := searchInputValue s;
     searchTimeout := searchTimeout s;
     commitTimer := commitTimer s;
     currentResults := currentResults s;
     currentResultsCount := currentResultsCount s;
     lastCommittedQuery := lastCommittedQuery s;
     selectedIndex := selectedIndex s;
     currentSearchId := currentSearchId s;
     searchAllFiles := searchAllFiles s;
     isSearching := isSearching s;
     searchInitialized := searchInitialized s;
     caseSensitive := caseSensitive s;
     lastQuery := lastQuery s;
     history := history s;
     initialQuery := initialQuery s;
     excludePatterns := v;
     excludeEnabled := excludeEnabled s;
     sent := sent s |}.

Definition set_excludeEnabled (v : bool) (s : State) : State :=
  {| searchInputValue := searchInputValue s;
     searchTimeout := searchTimeout s;
     commitTimer := commitTimer s;
     currentResults := currentResults s;
     currentResultsCount := currentResultsCount s;
     lastCommittedQuery := lastCommittedQuery s;
     selectedIndex := selectedIndex s;
     currentSearchId := currentSearchId s;
     searchAllFiles := searchAllFiles s;
     isSearching := isSearching s;
     searchInitialized := searchInitialized s;
     caseSensitive := caseSensitive s;
     lastQuery := lastQuery s;
     history := history s;
     initialQuery := initialQuery s;
     excludePatterns := excludePatterns s;
     excludeEnabled := v;
     sent := sent s |}.

Definition set_sent (v : list Outgoing) (s : State) : State :=
  {| searchInputValue := searchInputValue s;
     searchTimeout := searchTimeout s;
     commitTimer := commitTimer s;
     currentResults := currentResults s;
     currentResultsCount := currentResultsCount s;
     lastCommittedQuery := lastCommittedQuery s;
     selectedIndex := selectedIndex s;
     currentSearchId := currentSearchId s;
     searchAllFiles := searchAllFiles s;
     isSearching := isSearching s;
     searchInitialized := searchInitialized s;
     caseSensitive := caseSensitive s;
     lastQuery := lastQuery s;
     history := history s;
     initialQuery := initialQuery s;
     excludePatterns := excludePatterns s;
     excludeEnabled := excludeEnabled s;
     sent := v |}.

(** The state once the script has run to its end. *)
Definition initial : State :=
  {| searchInputValue := [];
     searchTimeout := None;
     commitTimer := false;
     currentResults := [];
     currentResultsCount := 0;
     lastCommittedQuery := [];
     selectedIndex := 0%Z;
     currentSearchId := 0;
     searchAllFiles := true;
     isSearching := false;
     searchInitialized := false;
     caseSensitive := false;
     lastQuery := [];
     history := [];
     initialQuery := [];
     excludePatterns := [];
     excludeEnabled := false;
     sent := [PostInitializeSearch] |}.

Definition post (msg : Outgoing) (s : State) : State :=
  set_sent (sent s ++ [msg]) s.

(** [l[i]] for a number [i] that holds an integer. *)
Definition at_ {A : Type} (l : list A) (i : Z) : option A :=
  if (i <? 0)%Z then None else l !! Z.to_nat i.

(** [updateResultsCount(count)] *)
Definition updateResultsCount (count : nat) (s : State) : State :=
  set_currentResultsCount count s.

Definition commitHistoryIfNeeded (s : State) : State :=
  let q := Js.trim (searchInputValue s) in
  if length q <? 2 then s
  else if currentResultsCount s <=? 0 then s
  else if Js.eqb q (lastCommittedQuery s) then s
  else post (PostCommitHistory q) (set_lastCommittedQuery q s).

Definition scheduleCommitHistory (s : State) : State :=
  set_commitTimer true s.

(** The message that the three places which start a search all post. *)
Definition postSearch (query : Js.string) (s : State) : State :=
  let s := set_isSearching true s in
  let s := set_currentSearchId (S (currentSearchId s)) s in
  post (PostSearch query (currentSearchId s) (searchAllFiles s)
          (if excludeEnabled s then excludePatterns s else [])) s.

Definition performNewSearch (s : State) : State :=
  if negb (isSearching s) && searchInitialized s
     && (2 <=? length (lastQuery s))
  then postSearch (lastQuery s) (updateResultsCount 0 s)
  else s.

Definition saveExcludePatterns (s : State) : State :=
  post (PostSaveExcludePatterns (excludePatterns s) (excludeEnabled s)) s.

(** The [input] listener of the search box; the value of the box is
    [e.target.value]. *)
Definition onInput (s : State) : State :=
  let s := set_searchTimeout None s in
  let query := searchInputValue s in
  let s := set_lastQuery query s in
  let s := set_currentResults [] s in
  let s := set_selectedIndex 0%Z s in
  if length query =? 0 then
    post PostClearPreview (updateResultsCount 0 s)
  else if length query <? 2 then
    post PostClearPreview (updateResultsCount 0 s)
  else
    set_searchTimeout (Some (InputSearch query)) (updateResultsCount 0 s).

(** The closure that the input listener hands to [setTimeout]. *)
Definition inputTimerFired (query : Js.string) (s : State) : State :=
  if negb (isSearching s) && searchInitialized s
     && (2 <=? length query)
  then postSearch query s
  else s.

(** What a [textarea] gives back as its [value] after [raw] was assigned to
    it: CR LF and a lone CR read as LF. *)
Fixpoint textareaValue (raw : Js.string) : Js.string :=
  match raw with
  | [] => []
  | c :: t =>
      if (c =? CR)%N then
        match t with
        | c' :: t' =>
            if (c' =? LF)%N then LF :: textareaValue t'
            else LF :: textareaValue t
        | [] => [LF]
        end
      else c :: textareaValue t
  end.

(** What an [input] of type [text] gives back as its [value] after [raw] was
    assigned to it: LF and CR are stripped. *)
Definition inputValue (raw : Js.string) : Js.string :=
  filter (λ c, c ≠ LF ∧ c ≠ CR) raw.

Definition setQueryInInput (q : Js.string) (s : State) : State :=
  set_lastQuery q (set_searchInputValue (textareaValue q) s).

Definition selectFile (r : option ResultItem) (s : State) : State :=
  let s := commitHistoryIfNeeded s in
  match r with
  | Some result =>
      post (PostSelectFile (filePath result) (lineNumber result)
              (searchInputValue s)) s
  | None => s
  end.

Definition navigateResults (direction : Z) (s : State) : State :=
  if length (currentResults s) =? 0 then s
  else
    let s :=
      set_selectedIndex
        (Z.max 0 (Z.min (Z.of_nat (length (currentResults s)) - 1)
                    (selectedIndex s + direction))) s in
    selectFile (at_ (currentResults s) (selectedIndex s)) s.

Definition openCurrentFile (s : State) : State :=
  let s := commitHistoryIfNeeded s in
  match at_ (currentResults s) (selectedIndex s) with
  | Some r => post (PostOpenFile (filePath r) (lineNumber r)) s
  | None => s
  end.

Definition selectResult (index : Z) (s : State) : State :=
  let s := set_selectedIndex index s in
  selectFile (at_ (currentResults s) index) s.

Definition openResult (index : Z) (s : State) : State :=
  match at_ (currentResults s) index with
  | Some r => post (PostOpenFile (filePath r) (lineNumber r)) s
  | None => s
  end.

(** The test under which a result set or an error is taken. *)
Definition taken (searchId : nat) (s : State) : bool :=
  ((searchId =? 0) || (currentSearchId s <=? searchId))
  && (2 <=? length (lastQuery s)).

(** The [message] listener of the window. *)
Definition onMessage (msg : Incoming) (s : State) : State :=
  match msg with
  | FromSearch (SearchResults results query searchId) =>
      if taken searchId s then
        let s := set_currentResults results s in
        let s := set_selectedIndex 0%Z s in
        let s := updateResultsCount (length results) s in
        set_isSearching false s
      else s
  | FromSearch (SearchError error query searchId) =>
      if taken searchId s then
        set_isSearching false (updateResultsCount 0 s)
      else s
  | SearchProgress message progress =>
      if (2 <=? length (lastQuery s))
         && (isSearching s || negb (searchInitialized s))
      then updateResultsCount 0 s
      else s
  | FromPanel (SearchInitialized cs) =>
      set_caseSensitive cs (set_searchInitialized true s)
  | FromSearch (CaseSensitiveChanged cs) =>
      let s := set_caseSensitive cs s in
      if (2 <=? length (lastQuery s)) && searchInitialized s
      then postSearch (lastQuery s) (updateResultsCount 0 s)
      else s
  | FromPanel (SearchInitializationError error) =>
      updateResultsCount 0 (set_searchInitialized false s)
  | FromSearch (FilePreview _ _ _ _ _) => s
  | FromSearch ClearPreview => s
  | FromPanel FocusSearch => s
  | FromPanel (SetInitialQuery q saf) =>
      let s := setQueryInInput q s in
      let s := set_searchAllFiles saf s in
      onInput s
  | FromPanel (HistoryLoaded hist initial saf) =>
      let s := set_history hist s in
      let s := set_initialQuery initial s in
      let s := set_searchAllFiles saf s in
      let s :=
        if negb (Js.isEmpty (initialQuery s))
           && Js.isEmpty (searchInputValue s)
        then setQueryInInput (initialQuery s) s
        else s in
      onInput s
  | FromSearch (HistoryUpdated hist) => set_history hist s
  | FromPanel (ExcludePatternsLoaded patterns enabled) =>
      set_excludeEnabled enabled (set_excludePatterns patterns s)
  end.

(** [s.split(',')] *)
Fixpoint splitComma (s : Js.string) : list Js.string :=
  match s with
  | [] => [[]]
  | c :: t =>
      if (c =? 44)%N then [] :: splitComma t
      else
        match splitComma t with
        | p :: ps => (c :: p) :: ps
        | [] => [[c]]
        end
  end.

(** The patterns the exclude box holds:
    [value.split(',').map(p => p.trim()).filter(p => p.length > 0)]. *)
Definition parsePatterns (value : Js.string) : list Js.string :=
  filter (λ p, 0 < length p) (map Js.trim (splitComma value)).

(** [patterns.join(', ')] *)
Fixpoint joinPatterns (l : list Js.string) : Js.string :=
  match l with
  | [] => []
  | [p] => p
  | p :: ps => p ++ str ", " ++ joinPatterns ps
  end.

(** What the exclude box holds once [loadExcludePatterns] has assigned
    [excludePatterns.join(', ')] to its [value]. *)
Definition excludeBoxValue (patterns : list Js.string) : Js.string :=
  inputValue (joinPatterns patterns).

(** What the user or a timer does, and what arrives. *)
Inductive Event : Type :=
  | Input (value : Js.string)
  | SearchTimerFires
  | CommitTimerFires
  | ScopeChanged (checked : bool)
  | CaseButtonClicked
  | ExcludeToggleClicked
  | ExcludeInput (value : Js.string)
  | ArrowKey (down : bool)
  | EnterKey (modifier : bool)
  | EscapeKey (inSearchBox : bool)
  | BackdropClicked
  | ResultsScrolled
  | ResultsMouseDown
  | PreviewScrolled
  | PreviewMouseDown
  | ResultClicked (index : Z)
  | ResultDoubleClicked (index : Z)
  | HistoryItemPicked (q : Js.string)
  | Receive (msg : Incoming).

Definition step (e : Event) (s : State) : State :=
  match e with
  | Input value => onInput (set_searchInputValue value s)
  | SearchTimerFires =>
      match searchTimeout s with
      | Some (InputSearch query) =>
          inputTimerFired query (set_searchTimeout None s)
      | Some NewSearch => performNewSearch (set_searchTimeout None s)
      | None => s
      end
  | CommitTimerFires =>
      if commitTimer s then commitHistoryIfNeeded (set_commitTimer false s)
      else s
  | ScopeChanged checked =>
      let s := set_searchAllFiles checked s in
      let q := Js.trim (searchInputValue s) in
      if (2 <=? length q) && searchInitialized s
      then set_searchTimeout (Some NewSearch) s
      else s
  | CaseButtonClicked => post PostToggleCaseSensitive s
  | ExcludeToggleClicked =>
      let s := set_excludeEnabled (negb (excludeEnabled s)) s in
      let s := saveExcludePatterns s in
      if 2 <=? length (lastQuery s) then performNewSearch s else s
  | ExcludeInput value =>
      let s := set_excludePatterns (parsePatterns value) s in
      let s := saveExcludePatterns s in
      if (2 <=? length (lastQuery s)) && excludeEnabled s
      then set_searchTimeout (Some NewSearch) s
      else s
  | ArrowKey down => navigateResults (if down then 1 else -1)%Z s
  | EnterKey modifier =>
      if modifier then s
      else
        match at_ (currentResults s) (selectedIndex s) with
        | Some _ => openCurrentFile s
        | None => s
        end
  | EscapeKey inSearchBox =>
      if inSearchBox then post PostClose (post PostClose s)
      else post PostClose s
  | BackdropClicked => post PostClose s
  | ResultsScrolled => scheduleCommitHistory s
  | ResultsMouseDown => commitHistoryIfNeeded s
  | PreviewScrolled => scheduleCommitHistory s
  | PreviewMouseDown => commitHistoryIfNeeded s
  | ResultClicked index => selectResult index s
  | ResultDoubleClicked index => openResult index s
  | HistoryItemPicked q => onInput (setQueryInInput q s)
  | Receive msg => onMessage msg s
  end.

Definition run (l : list Event) (s : State) : State :=
  fold_left (λ s e, step e s) l s.

(** The search requests among posted messages: query and request id. *)
Definition searches (l : list Outgoing) : list (Js.string * nat) :=
  omap (λ m, match m with
             | PostSearch q i _ _ => Some (q, i)
             | _ => None
             end) l.

(** The queries committed to the history among posted messages. *)
Definition commits (l : list Outgoing) : list Js.string :=
  omap (λ m, match m with PostCommitHistory q => Some q | _ => None end) l.

(** ** What the script renders *)

(** How the page serialises one code unit of a text node when [innerHTML] is
    read: the ampersand, the angle brackets and the no-break space become
    character references, every other code unit stands for itself. *)
Definition escapeChar (c : N) : Js.string :=
  if (c =? 38)%N then str "&amp;"
  else if (c =? 60)%N then str "&lt;"
  else if (c =? 62)%N then str "&gt;"
  else if (c =? 160)%N then str "&nbsp;"
  else [c].

(** [escapeHtml(text)]: the second declaration of this name in the script,
    which is the one in force; it sets [div.textContent] and reads
    [div.innerHTML] back. *)
Definition escapeHtml (text : Js.string) : Js.string :=
  flat_map escapeChar text.

(** The double quote. *)
Definition quote : N := 34.

Definition spanOpen : Js.string :=
  str "<span class=" ++ [quote] ++ str "search-highlight" ++ [quote] ++ str ">".

Definition spanClose : Js.string := str "</span>".

(** The [while (foundIndex !== -1)] loop of [highlightText], bounded by
    [fuel]; it gives [result] and [currentIndex] as they are when the loop is
    left, and [None] when the bound was hit. *)
Fixpoint highlightLoop (fuel : nat) (escapedText escapedQuery : Js.string)
    (searchText searchQuery : Js.string) (currentIndex : nat)
    (foundIndex : option nat) (result : Js.string) : option (Js.string * nat) :=
  match fuel with
  | 0 => None
  | S fuel' =>
      match foundIndex with
      | None => Some (result, currentIndex)
      | Some found =>
          let result := result ++ Js.substring escapedText currentIndex found in
          let matchText :=
            Js.substring escapedText found (found + length escapedQuery) in
          let result := result ++ ((spanOpen ++ matchText) ++ spanClose) in
          let currentIndex := found + length escapedQuery in
          highlightLoop fuel' escapedText escapedQuery searchText searchQuery
            currentIndex (Js.indexOf searchText searchQuery currentIndex)
            result
      end
  end.

(** [highlightText(text, query)]; it reads the variable [caseSensitive], and
    [toLowerCase] is the host's function.  The loop is given as many rounds
    as [searchText] has code units, and one more. *)
Definition highlightText (toLowerCase : Js.string → Js.string) (s : State)
    (text query : Js.string) : option Js.string :=
  if Js.isEmpty query || (length query <? 2) then Some (escapeHtml text)
  else
    let escapedText := escapeHtml text in
    let escapedQuery := escapeHtml query in
    let searchText :=
      if caseSensitive s then escapedText else toLowerCase escapedText in
    let searchQuery :=
      if caseSensitive s then escapedQuery else toLowerCase escapedQuery in
    match highlightLoop (S (length searchText)) escapedText
            escapedQuery searchText searchQuery 0
            (Js.indexOf searchText searchQuery 0) [] with
    | Some (result, currentIndex) =>
        Some (result
              ++ Js.substring escapedText currentIndex (length escapedText))
    | None => None
    end.

End Webview.

(** ** Vocabulary of the further statements *)

(** What holds of a modal and its host however they were reached: the live
    controller is not aborted; a search in flight was given the live
    controller's signal if it belongs to the current request and an aborted
    one otherwise; and the searches in flight carry growing request ids. *)
Definition wellFormed (s : SearchModal * Host) : Prop :=
  (∀ c, abortController (fst s) = Some c →
        c < controllers (snd s) ∧ c ∉ abortedControllers (snd s))
  ∧ (∀ c, c ∈ abortedControllers (snd s) → c < controllers (snd s))
  ∧ (∀ call, call ∈ inflight (snd s) →
       callId call ≤ currentSearchId (fst s)
       ∧ (callId call = currentSearchId (fst s) →
          abortController (fst s) = Some (callController call))
       ∧ (callId call < currentSearchId (fst s) →
          callController call ∈ abortedControllers (snd s)))
  ∧ StronglySorted (λ a b, callId a < callId b) (inflight (snd s)).

(** [e] brings a result set or an error that [s] takes. *)
Definition answered (e : Webview.Event) (s : Webview.State) : bool :=
  match e with
  | Webview.Receive (Webview.FromSearch (SearchResults _ _ searchId)) =>
      Webview.taken searchId s
  | Webview.Receive (Webview.FromSearch (SearchError _ _ searchId)) =>
      Webview.taken searchId s
  | _ => false
  end.

(** [e] is something the user or a timer does in the page, no message. *)
Definition inPage (e : Webview.Event) : bool :=
  match e with
  | Webview.Receive _ => false
  | _ => true
  end.

(** The [switch] of the modal's message listener, for the messages whose
    handlers are among the actions; [initializeSearch], [openFile] and [close]
    have handlers of their own, and [clearPreview] has no case. *)
Definition dispatch (msg : Webview.Outgoing) : option action :=
  match msg with
  | Webview.PostSearch query _ searchAllFiles excludePatterns =>
      Some (DoSearch query excludePatterns (Some searchAllFiles))
  | Webview.PostCommitHistory query => Some (CommitHistory query)
  | Webview.PostToggleCaseSensitive => Some ToggleCaseSensitive
  | Webview.PostSelectFile path lineNo query => Some (SelectFile path lineNo query)
  | Webview.PostSaveExcludePatterns patterns enabled =>
      Some (SaveExcludePatterns patterns enabled)
  | _ => None
  end.

(** A call of the provider, as the page numbers it. *)
Definition queryAndId (c : SearchCall) : Js.string * nat := (callQuery c, callId c).

(** What the page receives of what [initializeSearch] does. *)
Definition received (l : list panelEffect) : list Webview.Event :=
  omap (λ e, match e with
             | PanelPosted msg => Some (Webview.Receive (Webview.FromPanel msg))
             | PanelLogged _ _ => None
             end) l.

(** A pattern as the exclude box gives it back: trimmed, not empty, without
    a comma and, the box being an [input] of type [text], without LF and
    CR. *)
Definition plainPattern (p : Js.string) : Prop :=
  Js.trim p = p ∧ p ≠ [] ∧ contains 44 p = false
  ∧ contains LF p = false ∧ contains CR p = false.

(** A stretch of rendered text: as it is, or wrapped into the highlighting
    [span]. *)
Inductive piece : Type :=
  | Plain (t : Js.string)
  | Marked (t : Js.string).

Definition pieceText (p : piece) : Js.string :=
  match p with Plain t => t | Marked t => t end.

Definition renderPiece (p : piece) : Js.string :=
  match p with
  | Plain t => t
  | Marked t => (Webview.spanOpen ++ t) ++ Webview.spanClose
  end.

Definition joined (l : list Js.string) : Js.string := concat l.

(** A marked piece is the query as the comparison sees it, and a plain piece
    has no room for it. *)
Definition pieceOK (toLowerCase : Js.string → Js.string) (cs : bool)
    (escapedQuery : Js.string) (p : piece) : Prop :=
  match p with
  | Plain t =>
      ∀ k, ¬ occursAt (normalise toLowerCase cs t)
               (normalise toLowerCase cs escapedQuery) k
  | Marked t =>
      normalise toLowerCase cs t = normalise toLowerCase cs escapedQuery
  end.

(** * Properties *)

(** ** Strings *)

Lemma isEmpty_true (s : Js.string) : Js.isEmpty s = true ↔ s = [].
Proof. destruct s; simpl; split; congruence. Qed.

Lemma isEmpty_false (s : Js.string) : Js.isEmpty s = false ↔ s ≠ [].
Proof. destruct s; simpl; split; congruence. Qed.

Lemma length_nonempty (s : Js.string) : s ≠ [] → 0 < length s.
Proof. destruct s; simpl; [congruence | lia]. Qed.

Lemma normalise_sensitive (toLowerCase : Js.string → Js.string) (s : Js.string) :
  normalise toLowerCase true s = s.
Proof. reflexivity. Qed.

Lemma normalise_nonempty (toLowerCase : Js.string → Js.string) (cs : bool)
    (s : Js.string) :
  keepsText toLowerCase → s ≠ [] → normalise toLowerCase cs s ≠ [].
Proof. intros Hk Hs. destruct cs; [exact Hs | by apply Hk]. Qed.

Lemma startsWith_take (needle : Js.string) :
  ∀ hay, Js.startsWith hay needle = true ↔ take (length needle) hay = needle.
Proof.
  induction needle as [|a needle IH]; intros hay; [by destruct hay |].
  destruct hay as [|b hay]; simpl; [split; discriminate |].
  rewrite andb_true_iff, N.eqb_eq, IH. split.
  - intros [-> ->]. reflexivity.
  - intros [= -> ->]. by split.
Qed.

Lemma startsWith_occursAt (hay needle : Js.string) :
  Js.startsWith hay needle = true ↔ occursAt hay needle 0.
Proof. apply startsWith_take. Qed.

Lemma occursAt_cons (b : N) (hay needle : Js.string) (p : nat) :
  occursAt (b :: hay) needle (S p) ↔ occursAt hay needle p.
Proof. reflexivity. Qed.

Lemma occursAt_bound (hay needle : Js.string) (p : nat) :
  needle ≠ [] → occursAt hay needle p → p + length needle ≤ length hay.
Proof.
  intros Hne Hocc. unfold occursAt in Hocc.
  assert (Hlen : length (take (length needle) (drop p hay)) = length needle)
    by (by rewrite Hocc).
  rewrite length_take, length_drop in Hlen.
  pose proof (length_nonempty _ Hne). lia.
Qed.

(** What [Js.index] finds is the first occurrence from [n] on. *)
Lemma index_Some (needle hay : Js.string) :
  ∀ n m, Js.index n needle hay = Some m →
    n ≤ m ∧ occursAt hay needle m
    ∧ ∀ p, n ≤ p → p < m → ¬ occursAt hay needle p.
Proof.
  induction hay as [|b hay IH]; intros n m H.
  - destruct n; [| discriminate].
    change (Js.index 0 needle [])
      with (if Js.startsWith [] needle then Some 0 else None) in H.
    destruct (Js.startsWith [] needle) eqn:E; [| discriminate].
    injection H as <-. split; [lia |]. split; [by apply startsWith_occursAt |].
    intros; lia.
  - destruct n as [|n].
    + change (Js.index 0 needle (b :: hay))
        with (if Js.startsWith (b :: hay) needle then Some 0
              else S <$> Js.index 0 needle hay) in H.
      destruct (Js.startsWith (b :: hay) needle) eqn:E.
      * injection H as <-. split; [lia |].
        split; [by apply startsWith_occursAt | intros; lia].
      * destruct (Js.index 0 needle hay) as [k|] eqn:Ek; [| discriminate].
        simpl in H. injection H as <-.
        destruct (IH 0 k Ek) as (_ & Hocc & Hmin).
        split; [lia |]. split; [exact Hocc |].
        intros [|p] _ Hp.
        -- intros Ho. apply startsWith_occursAt in Ho. congruence.
        -- apply (Hmin p); lia.
    + change (Js.index (S n) needle (b :: hay))
        with (S <$> Js.index n needle hay) in H.
      destruct (Js.index n needle hay) as [k|] eqn:Ek; [| discriminate].
      simpl in H. injection H as <-.
      destruct (IH n k Ek) as (Hge & Hocc & Hmin).
      split; [lia |]. split; [exact Hocc |].
      intros [|p] Hp1 Hp2; [lia |]. apply (Hmin p); lia.
Qed.

(** When [Js.index] finds nothing, there is no occurrence from [n] on. *)
Lemma index_None (needle hay : Js.string) :
  needle ≠ [] →
  ∀ n, Js.index n needle hay = None →
    ∀ p, n ≤ p → ¬ occursAt hay needle p.
Proof.
  intros Hne. induction hay as [|b hay IH]; intros n H p Hp Ho.
  - pose proof (occursAt_bound _ _ _ Hne Ho) as Hb.
    pose proof (length_nonempty _ Hne). simpl in Hb. lia.
  - destruct n as [|n].
    + change (Js.index 0 needle (b :: hay))
        with (if Js.startsWith (b :: hay) needle then Some 0
              else S <$> Js.index 0 needle hay) in H.
      destruct (Js.startsWith (b :: hay) needle) eqn:E; [discriminate |].
      destruct (Js.index 0 needle hay) as [k|] eqn:Ek; [discriminate |].
      destruct p as [|p].
      * apply startsWith_occursAt in Ho. congruence.
      * apply (IH 0 Ek p); [lia | exact Ho].
    + change (Js.index (S n) needle (b :: hay))
        with (S <$> Js.index n needle hay) in H.
      destruct (Js.index n needle hay) as [k|] eqn:Ek; [discriminate |].
      destruct p as [|p]; [lia |]. apply (IH n Ek p); [lia | exact Ho].
Qed.

(** An empty needle is found where the search starts. *)
Lemma index_empty (hay : Js.string) :
  ∀ n, n ≤ length hay → Js.index n [] hay = Some n.
Proof.
  induction hay as [|b hay IH]; intros n Hn.
  - simpl in Hn. assert (n = 0) as -> by lia. reflexivity.
  - destruct n as [|n]; [reflexivity |]. simpl in *. by rewrite IH by lia.
Qed.

Lemma indexOf_Some (hay needle : Js.string) (from at_ : nat) :
  needle ≠ [] → Js.indexOf hay needle from = Some at_ →
  from ≤ at_ ∧ at_ + length needle ≤ length hay
  ∧ occursAt hay needle at_
  ∧ ∀ p, from ≤ p → p < at_ → ¬ occursAt hay needle p.
Proof.
  unfold Js.indexOf. intros Hne H.
  destruct (index_Some _ _ _ _ H) as (Hge & Hocc & Hmin).
  pose proof (occursAt_bound _ _ _ Hne Hocc) as Hb.
  pose proof (length_nonempty _ Hne).
  split; [lia |]. split; [exact Hb |]. split; [exact Hocc |].
  intros p Hp1 Hp2. apply Hmin; lia.
Qed.

Lemma indexOf_None (hay needle : Js.string) (from : nat) :
  needle ≠ [] → Js.indexOf hay needle from = None →
  ∀ p, from ≤ p → ¬ occursAt hay needle p.
Proof.
  unfold Js.indexOf. intros Hne H p Hp.
  apply (index_None _ _ Hne _ H). lia.
Qed.

Lemma indexOf_empty (hay : Js.string) (from : nat) :
  Js.indexOf hay [] from = Some (Nat.min from (length hay)).
Proof. unfold Js.indexOf. apply index_empty. lia. Qed.

(** ** The loop over one line *)

Section OneLine.

Variables (hay needle : Js.string) (stride : nat).
Hypothesis needle_nonempty : needle ≠ [].
Hypothesis stride_positive : 1 ≤ stride.

Lemma scanColumns_sound :
  ∀ fuel from,
    Forall (λ c, from ≤ c ∧ occursAt hay needle c)
      (scanColumns fuel hay needle stride from).
Proof.
  induction fuel as [|fuel IH]; intros from; simpl; [constructor |].
  destruct (Js.indexOf hay needle from) as [at_|] eqn:E; [| constructor].
  destruct (indexOf_Some _ _ _ _ needle_nonempty E) as (Hge & _ & Hocc & _).
  constructor; [by split |].
  eapply Forall_impl; [apply IH |]. intros c [Hc ?]. split; [lia | assumption].
Qed.

Lemma scanColumns_sorted :
  ∀ fuel from,
    StronglySorted (λ a b, a + stride ≤ b)
      (scanColumns fuel hay needle stride from).
Proof.
  induction fuel as [|fuel IH]; intros from; simpl; [constructor |].
  destruct (Js.indexOf hay needle from) as [at_|] eqn:E; [| constructor].
  constructor; [apply IH |].
  eapply Forall_impl; [apply scanColumns_sound |]. intros c [Hc _]. exact Hc.
Qed.

Lemma scanColumns_complete :
  ∀ fuel from,
    length hay < fuel + Nat.min from (length hay) →
    ∀ p, from ≤ p → occursAt hay needle p →
      ∃ c, c ∈ scanColumns fuel hay needle stride from ∧ c ≤ p ∧ p < c + stride.
Proof.
  induction fuel as [|fuel IH]; intros from Hfuel p Hp Hocc; [lia |].
  simpl. destruct (Js.indexOf hay needle from) as [at_|] eqn:E.
  - destruct (indexOf_Some _ _ _ _ needle_nonempty E) as (Hge & Hb & _ & Hmin).
    pose proof (length_nonempty _ needle_nonempty).
    destruct (le_lt_dec at_ p) as [Hle|Hlt]; [| by destruct (Hmin p)].
    destruct (le_lt_dec (at_ + stride) p) as [Hfar|Hnear].
    + destruct (IH (at_ + stride) ltac:(lia) p Hfar Hocc) as (c & Hc & ? & ?).
      exists c. split; [by right | lia].
    + exists at_. split; [by left | lia].
  - by destruct (indexOf_None _ _ _ needle_nonempty E p).
Qed.

End OneLine.

(** What the loop returns, when it returns, is the matches at the scanned
    columns. *)
Lemma whileIndexOf_returned (u : Uri) (q needle : Js.string) (lineNo : nat)
    (text hay : Js.string) :
  ∀ fuel from results results',
    whileIndexOf fuel u q needle lineNo text hay from results = Some results' →
    results' = results ++ map (matchAt u q lineNo text)
                 (scanColumns fuel hay needle (Nat.max 1 (length q)) from).
Proof.
  induction fuel as [|fuel IH]; intros from results results' H; [discriminate |].
  simpl in *. destruct (Js.indexOf hay needle from) as [at_|] eqn:E.
  - rewrite (IH _ _ _ H). simpl. by rewrite <- app_assoc.
  - injection H as <-. by rewrite app_nil_r.
Qed.

(** With a needle that has code units the loop returns, within as many
    rounds as the line has code units, and one more. *)
Lemma whileIndexOf_scan (u : Uri) (q needle : Js.string) (lineNo : nat)
    (text hay : Js.string) :
  needle ≠ [] →
  ∀ fuel from results,
    length hay < fuel + Nat.min from (length hay) →
    whileIndexOf fuel u q needle lineNo text hay from results
    = Some (results ++ map (matchAt u q lineNo text)
              (scanColumns fuel hay needle (Nat.max 1 (length q)) from)).
Proof.
  intros Hne. induction fuel as [|fuel IH]; intros from results Hfuel; [lia |].
  simpl. destruct (Js.indexOf hay needle from) as [at_|] eqn:E.
  - destruct (indexOf_Some _ _ _ _ Hne E) as (Hge & Hb & _ & _).
    pose proof (length_nonempty _ Hne).
    rewrite IH by lia. simpl. by rewrite <- app_assoc.
  - by rewrite app_nil_r.
Qed.

(** With an empty needle the loop never exits: every bound is hit. *)
Lemma whileIndexOf_empty_needle (u : Uri) (q : Js.string) (lineNo : nat)
    (text hay : Js.string) :
  ∀ fuel from results,
    whileIndexOf fuel u q [] lineNo text hay from results = None.
Proof.
  induction fuel as [|fuel IH]; intros from results; [reflexivity |].
  simpl. rewrite indexOf_empty. apply IH.
Qed.

Lemma whileIndexOf_needle (u : Uri) (q needle : Js.string) (lineNo : nat)
    (text hay : Js.string) (fuel from : nat) (results results' : list SearchResult) :
  whileIndexOf fuel u q needle lineNo text hay from results = Some results' →
  needle ≠ [].
Proof. intros H ->. by rewrite whileIndexOf_empty_needle in H. Qed.

(** The loop over one line ends, whatever the line. *)
Lemma whileIndexOf_line (toLowerCase : Js.string → Js.string) (cs : bool)
    (u : Uri) (q : Js.string) (lineNo : nat) (text : Js.string)
    (results : list SearchResult) :
  normalise toLowerCase cs q ≠ [] →
  whileIndexOf (S (length (normalise toLowerCase cs text))) u q
    (normalise toLowerCase cs q) lineNo text (normalise toLowerCase cs text) 0
    results
  = Some (results ++ lineMatches toLowerCase cs u q lineNo text).
Proof.
  intros Hq. unfold lineMatches. apply whileIndexOf_scan; [exact Hq | lia].
Qed.

(** ** The loop over the lines *)

Section Lines.

Variable toLowerCase : Js.string → Js.string.
Variables (signal : option AbortSignal) (cs : bool) (u : Uri).
Variable doc : TextDocument.

Lemma forLines_aborted (q needle : Js.string) (remaining lineNo : nat)
    (results : list SearchResult) :
  signalAborted signal = true → 0 < remaining →
  forLines toLowerCase signal cs u q needle doc remaining lineNo results
  = Throw searchCancelled.
Proof.
  intros Hs Hr. destruct remaining; [lia |]. simpl. by rewrite Hs.
Qed.

Lemma forLines_step (q needle : Js.string) (k lineNo : nat)
    (results : list SearchResult) :
  forLines toLowerCase signal cs u q needle doc (S k) lineNo results
  = if signalAborted signal then Throw searchCancelled
    else
      match whileIndexOf
              (S (length (normalise toLowerCase cs (lineAt doc lineNo))))
              u q needle lineNo (lineAt doc lineNo)
              (normalise toLowerCase cs (lineAt doc lineNo)) 0 results with
      | None => Diverge
      | Some results' =>
          forLines toLowerCase signal cs u q needle doc k (S lineNo) results'
      end.
Proof. reflexivity. Qed.

Lemma forLines_returns (q : Js.string) :
  signalAborted signal = false → normalise toLowerCase cs q ≠ [] →
  ∀ remaining lineNo results,
    forLines toLowerCase signal cs u q (normalise toLowerCase cs q) doc
      remaining lineNo results
    = Return (results ++
              concat (map (λ i, lineMatches toLowerCase cs u q i (lineAt doc i))
                        (seq lineNo remaining))).
Proof.
  intros Hs Hq. induction remaining as [|k IH]; intros lineNo results.
  - simpl. by rewrite app_nil_r.
  - rewrite forLines_step, Hs, whileIndexOf_line by assumption.
    rewrite IH. simpl. by rewrite <- app_assoc.
Qed.

(** A loop that returns has seen a clear signal and a needle with code
    units, if it had a line to scan at all. *)
Lemma forLines_returned (q needle : Js.string) :
  ∀ remaining lineNo results results',
    forLines toLowerCase signal cs u q needle doc remaining lineNo results
    = Return results' →
    0 < remaining → signalAborted signal = false ∧ needle ≠ [].
Proof.
  intros [|k] lineNo results results' H Hk; [lia |].
  rewrite forLines_step in H.
  destruct (signalAborted signal); [discriminate |]. split; [reflexivity |].
  destruct (whileIndexOf _ u q needle lineNo _ _ 0 results) as [r|] eqn:E;
    [| discriminate].
  by apply whileIndexOf_needle in E.
Qed.

End Lines.

Lemma splitLines_nonempty (s : Js.string) : 0 < length (splitLines s).
Proof.
  induction s as [|c t IH]; simpl; [lia |].
  destruct (c =? LF)%N; [simpl; lia |].
  destruct (c =? CR)%N.
  - destruct t as [|c' t']; [simpl; lia |]. destruct (c' =? LF)%N; simpl; lia.
  - destruct (splitLines t); simpl; lia.
Qed.

Lemma lineCount_positive (doc : TextDocument) : 0 < lineCount doc.
Proof. apply splitLines_nonempty. Qed.

(** ** [trim] *)

Lemma trimStart_cases (s : Js.string) :
  (Js.trimStart s = [] ∧ allWhiteSpace s = true)
  ∨ (∃ c t, Js.trimStart s = c :: t ∧ Js.isWhiteSpace c = false
            ∧ allWhiteSpace s = false).
Proof.
  induction s as [|c t IH]; simpl; [by left |].
  destruct (Js.isWhiteSpace c) eqn:E; simpl; [exact IH |].
  right. by exists c, t.
Qed.

Lemma trimEnd_cons (c : N) (t : Js.string) :
  Js.trimEnd (c :: t)
  = match Js.trimEnd t with
    | [] => if Js.isWhiteSpace c then [] else [c]
    | c' :: t' => c :: c' :: t'
    end.
Proof. reflexivity. Qed.

Lemma trimEnd_head (c : N) (t : Js.string) :
  Js.isWhiteSpace c = false → ∃ t', Js.trimEnd (c :: t) = c :: t'.
Proof.
  intros Hc. rewrite trimEnd_cons. destruct (Js.trimEnd t) as [|c' t'].
  - rewrite Hc. by exists [].
  - by exists (c' :: t').
Qed.

Lemma trimEnd_idempotent (s : Js.string) : Js.trimEnd (Js.trimEnd s) = Js.trimEnd s.
Proof.
  induction s as [|c t IH]; [reflexivity |].
  rewrite trimEnd_cons. destruct (Js.trimEnd t) as [|c' t'] eqn:E.
  - destruct (Js.isWhiteSpace c) eqn:Ec; [reflexivity |].
    rewrite trimEnd_cons. simpl. by rewrite Ec.
  - rewrite trimEnd_cons. by rewrite IH.
Qed.

Lemma trim_idempotent (s : Js.string) : Js.trim (Js.trim s) = Js.trim s.
Proof.
  unfold Js.trim.
  destruct (trimStart_cases s) as [[-> _] | (c & t & -> & Hc & _)];
    [reflexivity |].
  destruct (trimEnd_head c t Hc) as [t' Ht'].
  assert (Hs : Js.trimStart (Js.trimEnd (c :: t)) = Js.trimEnd (c :: t)).
  { rewrite Ht'. simpl. by rewrite Hc. }
  rewrite Hs. apply trimEnd_idempotent.
Qed.


(** ** [searchInSingleDocument], case by case *)

Section SingleDocument.

Variable workspace : Uri → Js.Error + TextDocument.
Variable toLowerCase : Js.string → Js.string.
Variables (ts : TextSearcher) (u : Uri) (query : Js.string).
Variable signal : option AbortSignal.

Lemma single_blank :
  Js.trim query = [] →
  searchInSingleDocument workspace toLowerCase ts u query signal
  = ([], Return []).
Proof. intros H. unfold searchInSingleDocument. by rewrite H. Qed.

Lemma single_open_fails (e : Js.Error) :
  Js.trim query ≠ [] → workspace u = inl e →
  searchInSingleDocument workspace toLowerCase ts u query signal
  = ([EvOpenTextDocument u], Throw e).
Proof.
  intros Hq Hw. unfold searchInSingleDocument.
  apply isEmpty_false in Hq. rewrite Hq.
  unfold openTextDocument. rewrite Hw. reflexivity.
Qed.

(** Once the document is open, the search is the loop over its lines. *)
Lemma single_opened (doc : TextDocument) :
  Js.trim query ≠ [] → workspace u = inr doc →
  searchInSingleDocument workspace toLowerCase ts u query signal
  = ([EvOpenTextDocument u],
     forLines toLowerCase signal (getCaseSensitive ts) u (Js.trim query)
       (normalise toLowerCase (getCaseSensitive ts) (Js.trim query)) doc
       (lineCount doc) 0 []).
Proof.
  intros Hq Hw. unfold searchInSingleDocument.
  rewrite (proj2 (isEmpty_false _) Hq).
  unfold openTextDocument. rewrite Hw. reflexivity.
Qed.

Lemma single_cancelled (doc : TextDocument) :
  Js.trim query ≠ [] → workspace u = inr doc →
  signalAborted signal = true →
  searchInSingleDocument workspace toLowerCase ts u query signal
  = ([EvOpenTextDocument u], Throw searchCancelled).
Proof.
  intros Hq Hw Hs. rewrite (single_opened doc) by assumption.
  rewrite forLines_aborted by (assumption || apply lineCount_positive).
  reflexivity.
Qed.

Lemma single_returns (doc : TextDocument) :
  normalise toLowerCase (getCaseSensitive ts) (Js.trim query) ≠ [] →
  Js.trim query ≠ [] → workspace u = inr doc →
  signalAborted signal = false →
  searchInSingleDocument workspace toLowerCase ts u query signal
  = ([EvOpenTextDocument u],
     Return (documentMatches toLowerCase (getCaseSensitive ts) u
               (Js.trim query) doc)).
Proof.
  intros Hn Hq Hw Hs. rewrite (single_opened doc) by assumption.
  rewrite forLines_returns by assumption. reflexivity.
Qed.

(** The four cases are all there are, for a host whose lower-casing keeps
    text. *)
Lemma single_cases :
  keepsText toLowerCase →
  (Js.trim query = []
   ∧ searchInSingleDocument workspace toLowerCase ts u query signal
     = ([], Return []))
  ∨ (Js.trim query ≠ [] ∧
     ((∃ e, workspace u = inl e
            ∧ searchInSingleDocument workspace toLowerCase ts u query signal
              = ([EvOpenTextDocument u], Throw e))
      ∨ (∃ doc, workspace u = inr doc ∧ signalAborted signal = true
                ∧ searchInSingleDocument workspace toLowerCase ts u query signal
                  = ([EvOpenTextDocument u], Throw searchCancelled))
      ∨ (∃ doc, workspace u = inr doc ∧ signalAborted signal = false
                ∧ searchInSingleDocument workspace toLowerCase ts u query signal
                  = ([EvOpenTextDocument u],
                     Return (documentMatches toLowerCase (getCaseSensitive ts)
                               u (Js.trim query) doc))))).
Proof.
  intros Hk.
  destruct (decide (Js.trim query = [])) as [Hq|Hq].
  - left. split; [assumption | by apply single_blank].
  - right. split; [assumption |].
    destruct (workspace u) as [e|doc] eqn:Hw.
    + left. exists e. split; [reflexivity | by apply single_open_fails].
    + right. destruct (signalAborted signal) eqn:Hs.
      * left. exists doc. repeat split; by apply (single_cancelled doc).
      * right. exists doc. repeat split.
        apply (single_returns doc); try assumption.
        by apply normalise_nonempty.
Qed.

(** A returned list is the list of the document's matches; the signal was
    clear and the needle had code units. *)
Lemma single_returned (results : list SearchResult) :
  result (searchInSingleDocument workspace toLowerCase ts u query signal)
  = Return results →
  Js.trim query ≠ [] →
  ∃ doc, workspace u = inr doc
         ∧ signalAborted signal = false
         ∧ normalise toLowerCase (getCaseSensitive ts) (Js.trim query) ≠ []
         ∧ results = documentMatches toLowerCase (getCaseSensitive ts) u
                       (Js.trim query) doc.
Proof.
  intros Hr Hq.
  destruct (workspace u) as [e|doc] eqn:Hw.
  - rewrite (single_open_fails e) in Hr by assumption. discriminate.
  - rewrite (single_opened doc) in Hr by assumption. simpl in Hr.
    destruct (forLines_returned _ _ _ _ _ _ _ _ _ _ _ Hr (lineCount_positive doc))
      as [Hs Hn].
    exists doc. split; [reflexivity |]. split; [exact Hs |].
    split; [exact Hn |].
    rewrite forLines_returns in Hr by assumption. by injection Hr as <-.
Qed.

End SingleDocument.

(** ** The matches of a document *)

Lemma In_documentMatches (toLowerCase : Js.string → Js.string) (cs : bool)
    (u : Uri) (q : Js.string) (doc : TextDocument) (r : SearchResult) :
  In r (documentMatches toLowerCase cs u q doc) ↔
  ∃ i, i < lineCount doc
       ∧ In r (lineMatches toLowerCase cs u q i (lineAt doc i)).
Proof.
  unfold documentMatches. rewrite in_concat. split.
  - intros (l & Hl & Hr). apply in_map_iff in Hl as (i & <- & Hi).
    apply in_seq in Hi. exists i. split; [lia | assumption].
  - intros (i & Hi & Hr).
    exists (lineMatches toLowerCase cs u q i (lineAt doc i)).
    split; [| assumption]. apply in_map_iff. exists i.
    split; [reflexivity | apply in_seq; lia].
Qed.

Lemma In_lineMatches (toLowerCase : Js.string → Js.string) (cs : bool)
    (u : Uri) (q : Js.string) (i : nat) (text : Js.string) (r : SearchResult) :
  In r (lineMatches toLowerCase cs u q i text) ↔
  ∃ c, r = matchAt u q i text c
       ∧ In c (scanColumns (S (length (normalise toLowerCase cs text)))
                 (normalise toLowerCase cs text) (normalise toLowerCase cs q)
                 (Nat.max 1 (length q)) 0).
Proof.
  unfold lineMatches. rewrite in_map_iff. split; intros (c & H1 & H2).
  - exists c. by split.
  - exists c. by split.
Qed.

Lemma columnsOn_app (i : nat) (l1 l2 : list SearchResult) :
  columnsOn i (l1 ++ l2) = columnsOn i l1 ++ columnsOn i l2.
Proof. unfold columnsOn. by rewrite filter_app, map_app. Qed.

Lemma columnsOn_same_line (u : Uri) (q : Js.string) (i : nat) (text : Js.string)
    (l : list nat) :
  columnsOn i (map (matchAt u q i text) l) = l.
Proof.
  unfold columnsOn. induction l as [|c l IH]; [reflexivity |].
  simpl. rewrite filter_cons_True by reflexivity. simpl. by rewrite IH.
Qed.

Lemma columnsOn_other_line (u : Uri) (q : Js.string) (i j : nat) (text : Js.string)
    (l : list nat) :
  j ≠ i → columnsOn i (map (matchAt u q j text) l) = [].
Proof.
  intros Hne. unfold columnsOn. induction l as [|c l IH]; [reflexivity |].
  simpl. by rewrite filter_cons_False.
Qed.

Lemma columnsOn_lines (toLowerCase : Js.string → Js.string) (cs : bool)
    (u : Uri) (q : Js.string) (doc : TextDocument) (i : nat) :
  ∀ n a,
    columnsOn i
      (concat (map (λ j, lineMatches toLowerCase cs u q j (lineAt doc j))
                 (seq a n)))
    = if decide (a ≤ i ∧ i < a + n)
      then scanColumns (S (length (normalise toLowerCase cs (lineAt doc i))))
             (normalise toLowerCase cs (lineAt doc i))
             (normalise toLowerCase cs q) (Nat.max 1 (length q)) 0
      else [].
Proof.
  induction n as [|n IH]; intros a.
  - simpl. case_decide; [lia | reflexivity].
  - simpl. rewrite columnsOn_app, IH. unfold lineMatches at 1.
    destruct (decide (a = i)) as [->|Hne].
    + rewrite columnsOn_same_line.
      rewrite (decide_True (P := i ≤ i ∧ i < i + S n)) by lia.
      rewrite (decide_False (P := S i ≤ i ∧ _)) by lia.
      by rewrite app_nil_r.
    + rewrite columnsOn_other_line by assumption. simpl.
      repeat case_decide; try reflexivity; lia.
Qed.

Lemma columnsOn_documentMatches (toLowerCase : Js.string → Js.string)
    (cs : bool) (u : Uri) (q : Js.string) (doc : TextDocument) (i : nat) :
  i < lineCount doc →
  columnsOn i (documentMatches toLowerCase cs u q doc)
  = scanColumns (S (length (normalise toLowerCase cs (lineAt doc i))))
      (normalise toLowerCase cs (lineAt doc i)) (normalise toLowerCase cs q)
      (Nat.max 1 (length q)) 0.
Proof.
  intros Hi. unfold documentMatches. rewrite columnsOn_lines.
  by rewrite decide_True by lia.
Qed.

Lemma lineMatches_sorted (toLowerCase : Js.string → Js.string) (cs : bool)
    (u : Uri) (q : Js.string) (i : nat) (text : Js.string) :
  normalise toLowerCase cs q ≠ [] →
  StronglySorted before (lineMatches toLowerCase cs u q i text).
Proof.
  intros Hq. unfold lineMatches.
  change (map (matchAt u q i text)) with (fmap (M := list) (matchAt u q i text)).
  eapply StronglySorted_fmap;
    [| apply scanColumns_sorted; [exact Hq | lia]].
  intros a b Hab. cbv beta in Hab. assert (a < b) by lia. right. by split.
Qed.

Lemma lineMatches_line (toLowerCase : Js.string → Js.string) (cs : bool)
    (u : Uri) (q : Js.string) (i : nat) (text : Js.string) :
  Forall (λ r, startLine r = i) (lineMatches toLowerCase cs u q i text).
Proof.
  unfold lineMatches. apply Forall_forall. intros r Hr.
  apply list_elem_of_In, in_map_iff in Hr as (c & <- & _). reflexivity.
Qed.

Lemma lines_sorted (toLowerCase : Js.string → Js.string) (cs : bool)
    (u : Uri) (q : Js.string) (doc : TextDocument) :
  normalise toLowerCase cs q ≠ [] →
  ∀ n a,
    StronglySorted before
      (concat (map (λ j, lineMatches toLowerCase cs u q j (lineAt doc j))
                 (seq a n)))
    ∧ Forall (λ r, a ≤ startLine r)
        (concat (map (λ j, lineMatches toLowerCase cs u q j (lineAt doc j))
                   (seq a n))).
Proof.
  intros Hq. induction n as [|n IH]; intros a; simpl.
  - split; constructor.
  - destruct (IH (S a)) as [Hs Hf]. split.
    + apply StronglySorted_app. split; [| split];
        [| by apply lineMatches_sorted | assumption].
      intros x y Hx Hy. left.
      pose proof (lineMatches_line toLowerCase cs u q a (lineAt doc a)) as Hl.
      rewrite Forall_forall in Hl, Hf. rewrite (Hl x Hx).
      specialize (Hf y Hy). simpl in Hf. lia.
    + apply Forall_app. split.
      * eapply Forall_impl; [apply lineMatches_line |]. simpl. intros; lia.
      * eapply Forall_impl; [exact Hf |]. simpl. intros; lia.
Qed.

Lemma StronglySorted_weaken {A : Type} (R1 R2 : relation A) (l : list A) :
  (∀ x y, R1 x y → R2 x y) → StronglySorted R1 l → StronglySorted R2 l.
Proof.
  intros H. induction 1 as [|x l Hl IH Hx]; constructor; [assumption |].
  eapply Forall_impl; [exact Hx | auto].
Qed.

(** ** Columns of the lower-cased line and columns of the line *)

Lemma inPlace_sensitive (toLowerCase : Js.string → Js.string) (s : Js.string) :
  inPlace toLowerCase true s.
Proof. intros p n. reflexivity. Qed.

Lemma inPlace_length (toLowerCase : Js.string → Js.string) (cs : bool)
    (s : Js.string) :
  inPlace toLowerCase cs s →
  length (normalise toLowerCase cs s) ≤ length s.
Proof.
  intros H. specialize (H 0 (length s)). rewrite !drop_0 in H.
  rewrite firstn_all in H. rewrite H at 1. rewrite length_take. lia.
Qed.

(** Where lower-casing is in place and keeps the length of the query, the
    columns of the lower-cased line are the columns of the line. *)
Lemma standsAt_occursAt (toLowerCase : Js.string → Js.string) (cs : bool)
    (text q : Js.string) (p : nat) :
  inPlace toLowerCase cs text →
  length (normalise toLowerCase cs q) = length q →
  normalise toLowerCase cs q ≠ [] →
  standsAt toLowerCase cs text q p
  ↔ occursAt (normalise toLowerCase cs text) (normalise toLowerCase cs q) p.
Proof.
  intros Hin Hlen Hne. unfold standsAt, occursAt. rewrite Hin, Hlen. split.
  - by intros [_ H].
  - intros H. split; [| exact H].
    pose proof (inPlace_length _ _ _ Hin).
    assert (Ho : occursAt (normalise toLowerCase cs text)
                   (normalise toLowerCase cs q) p)
      by (unfold occursAt; by rewrite Hlen).
    pose proof (occursAt_bound _ _ _ Hne Ho). lia.
Qed.

(** The table of the examples keeps text and line feeds, and is in place on
    a string that has no U+0130. *)
Lemma lowerUnit_nonempty (c : N) : Js.lowerUnit c ≠ [].
Proof. unfold Js.lowerUnit. by repeat case_match. Qed.

Lemma table_keepsText : keepsText Js.toLowerCase.
Proof.
  intros [|c t] Hs; [congruence |]. unfold Js.toLowerCase. simpl.
  pose proof (lowerUnit_nonempty c). destruct (Js.lowerUnit c); by simpl.
Qed.

Lemma contains_app (c : N) (a b : Js.string) :
  contains c (a ++ b) = contains c a || contains c b.
Proof.
  induction a as [|d a IH]; [reflexivity |]. simpl. by rewrite IH, orb_assoc.
Qed.

Lemma lowerUnit_LF (c : N) : contains LF (Js.lowerUnit c) = (c =? LF)%N.
Proof.
  unfold Js.lowerUnit, LF.
  destruct ((65 <=? c) && (c <=? 90)
            || (192 <=? c) && (c <=? 222) && negb (c =? 215))%N eqn:E.
  - simpl. rewrite orb_false_r.
    destruct (N.eqb_spec (c + 32) 10) as [H1|H1];
      destruct (N.eqb_spec c 10) as [H2|H2]; try reflexivity; try lia.
    subst c. discriminate.
  - destruct (N.eqb_spec c 304) as [->|H]; [reflexivity |].
    simpl. by rewrite orb_false_r.
Qed.

Lemma table_keepsLineFeeds : keepsLineFeeds Js.toLowerCase.
Proof.
  intros s. induction s as [|c t IH]; [reflexivity |].
  unfold Js.toLowerCase in *. simpl. by rewrite contains_app, lowerUnit_LF, IH.
Qed.

Lemma lowerUnit_single (c : N) :
  c ≠ 304%N → ∃ d, Js.lowerUnit c = [d].
Proof.
  intros Hc. unfold Js.lowerUnit. case_match; [by eexists |].
  destruct (N.eqb_spec c 304); [contradiction | by eexists].
Qed.

Lemma table_take (s : Js.string) :
  Forall (λ c, c ≠ 304%N) s →
  ∀ n, Js.toLowerCase (take n s) = take n (Js.toLowerCase s).
Proof.
  unfold Js.toLowerCase. induction 1 as [|c t Hc Ht IH]; intros n.
  - by destruct n.
  - destruct n as [|n]; [reflexivity |]. simpl.
    destruct (lowerUnit_single c Hc) as [d ->]. simpl. by rewrite IH.
Qed.

Lemma table_drop (s : Js.string) :
  Forall (λ c, c ≠ 304%N) s →
  ∀ p, Js.toLowerCase (drop p s) = drop p (Js.toLowerCase s).
Proof.
  unfold Js.toLowerCase. induction 1 as [|c t Hc Ht IH]; intros p.
  - by destruct p.
  - destruct p as [|p]; [reflexivity |]. simpl.
    destruct (lowerUnit_single c Hc) as [d ->]. simpl. by rewrite IH.
Qed.

Lemma table_inPlace (cs : bool) (s : Js.string) :
  Forall (λ c, c ≠ 304%N) s → inPlace Js.toLowerCase cs s.
Proof.
  intros Hs p n. destruct cs; [reflexivity |]. simpl.
  rewrite table_take by (by apply Forall_drop).
  by rewrite table_drop.
Qed.

Lemma table_length (s : Js.string) :
  Forall (λ c, c ≠ 304%N) s → length (Js.toLowerCase s) = length s.
Proof.
  unfold Js.toLowerCase. induction 1 as [|c t Hc Ht IH]; [reflexivity |].
  simpl. destruct (lowerUnit_single c Hc) as [d ->]. simpl. by rewrite IH.
Qed.

(** ** Single-document search: occurrences and order *)

(** C5, as the code has it.  For a query that is not blank and every physical
    line of the searched document, the columns reported on that line are
    columns of the line as the comparison sees it, that is of the lower-cased
    line when the search is not case-sensitive: the query, seen the same way,
    occurs there; each column lies past the previous match by the length of
    the trimmed query, so by at least one code unit; and every occurrence is
    reported or overlaps a reported match to its left.  Where lower-casing is
    in place on the line and keeps the length of the query, these are the
    columns at which the query stands in the line itself.  The search returns
    whenever the document opens and the signal is clear.  The line "ababab"
    with the query "ab" yields exactly three matches, at columns 0, 2 and 4.
    But the line of U+0130 and "x", two code units, searched for "x" without
    regard to case, yields one match at column 2, past the end of the line,
    where "x" stands at column 1: lower-casing turns U+0130 into two code
    units, and the column is taken in the lower-cased line. *)
Theorem all_occurrences_per_line :
  (∀ (workspace : Uri → Js.Error + TextDocument)
     (toLowerCase : Js.string → Js.string) (ts : TextSearcher) (u : Uri)
     (query : Js.string) (signal : option AbortSignal) (doc : TextDocument)
     (results : list SearchResult),
     Js.trim query ≠ [] → workspace u = inr doc →
     result (searchInSingleDocument workspace toLowerCase ts u query signal)
     = Return results →
     ∀ i, i < lineCount doc →
       (∀ c, c ∈ columnsOn i results →
          occursAt (normalise toLowerCase (getCaseSensitive ts) (lineAt doc i))
            (normalise toLowerCase (getCaseSensitive ts) (Js.trim query)) c)
       ∧ StronglySorted
           (λ a b, a < b ∧ a + length (Js.trim query) ≤ b)
           (columnsOn i results)
       ∧ (∀ p, occursAt
                 (normalise toLowerCase (getCaseSensitive ts) (lineAt doc i))
                 (normalise toLowerCase (getCaseSensitive ts) (Js.trim query))
                 p →
            ∃ c, c ∈ columnsOn i results ∧ c ≤ p
                 ∧ p < c + length (Js.trim query))
       ∧ (inPlace toLowerCase (getCaseSensitive ts) (lineAt doc i) →
          length (normalise toLowerCase (getCaseSensitive ts) (Js.trim query))
          = length (Js.trim query) →
          (∀ c, c ∈ columnsOn i results →
             standsAt toLowerCase (getCaseSensitive ts) (lineAt doc i)
               (Js.trim query) c)
          ∧ (∀ p, standsAt toLowerCase (getCaseSensitive ts) (lineAt doc i)
                    (Js.trim query) p →
               ∃ c, c ∈ columnsOn i results ∧ c ≤ p
                    ∧ p < c + length (Js.trim query))))
  ∧ (∀ (workspace : Uri → Js.Error + TextDocument)
       (toLowerCase : Js.string → Js.string) (ts : TextSearcher) (u : Uri)
       (query : Js.string) (signal : option AbortSignal) (doc : TextDocument),
       keepsText toLowerCase → Js.trim query ≠ [] → workspace u = inr doc →
       signalAborted signal = false →
       ∃ results,
         result (searchInSingleDocument workspace toLowerCase ts u query signal)
         = Return results)
  ∧ (∀ (cs : bool) (signal : option AbortSignal),
       signalAborted signal = false →
       result (searchInSingleDocument (oneFile sampleUri (str "ababab"))
                 Js.toLowerCase (idleSearcher cs) sampleUri (str "ab") signal)
       = Return [matchAt sampleUri (str "ab") 0 (str "ababab") 0;
                 matchAt sampleUri (str "ab") 0 (str "ababab") 2;
                 matchAt sampleUri (str "ab") 0 (str "ababab") 4])
  ∧ (result (searchInSingleDocument (oneFile sampleUri [304; 120]%N)
               Js.toLowerCase (idleSearcher false) sampleUri (str "x") None)
     = Return [matchAt sampleUri (str "x") 0 [304; 120]%N 2]
     ∧ lineAt {| getText := [304; 120]%N |} 0 = [304; 120]%N
     ∧ standsAt Js.toLowerCase false [304; 120]%N (str "x") 1
     ∧ ¬ standsAt Js.toLowerCase false [304; 120]%N (str "x") 2).
Proof.
  split; [| split; [| split]].
  - intros workspace toLowerCase ts u query signal doc results Hq Hw Hr i Hi.
    destruct (single_returned _ _ _ _ _ _ _ Hr Hq)
      as (doc' & Hw' & _ & Hn & ->).
    assert (doc' = doc) as -> by congruence.
    rewrite columnsOn_documentMatches by assumption.
    set (cs := getCaseSensitive ts) in *. set (q := Js.trim query) in *.
    pose proof (length_nonempty q Hq) as Hlen.
    assert (Hmax : Nat.max 1 (length q) = length q) by lia.
    rewrite Hmax.
    assert (Hsound : ∀ c,
               c ∈ scanColumns (S (length (normalise toLowerCase cs (lineAt doc i))))
                     (normalise toLowerCase cs (lineAt doc i))
                     (normalise toLowerCase cs q) (length q) 0 →
               occursAt (normalise toLowerCase cs (lineAt doc i))
                 (normalise toLowerCase cs q) c).
    { intros c Hc.
      pose proof (scanColumns_sound (normalise toLowerCase cs (lineAt doc i))
                    (normalise toLowerCase cs q) (length q) Hn Hlen
                    (S (length (normalise toLowerCase cs (lineAt doc i)))) 0)
        as Hs.
      rewrite Forall_forall in Hs. by destruct (Hs c Hc). }
    assert (Hcomplete : ∀ p,
               occursAt (normalise toLowerCase cs (lineAt doc i))
                 (normalise toLowerCase cs q) p →
               ∃ c, c ∈ scanColumns
                          (S (length (normalise toLowerCase cs (lineAt doc i))))
                          (normalise toLowerCase cs (lineAt doc i))
                          (normalise toLowerCase cs q) (length q) 0
                    ∧ c ≤ p ∧ p < c + length q).
    { intros p Hp.
      apply (scanColumns_complete _ _ (length q) Hn Hlen);
        [lia | lia | exact Hp]. }
    split; [exact Hsound | split; [| split; [exact Hcomplete |]]].
    + eapply StronglySorted_weaken;
        [| apply (scanColumns_sorted _ _ (length q) Hn Hlen)].
      intros a b Hab. cbv beta in *. lia.
    + intros Hin Hl. split.
      * intros c Hc. apply standsAt_occursAt; auto.
      * intros p Hp. apply Hcomplete. by apply standsAt_occursAt.
  - intros workspace toLowerCase ts u query signal doc Hk Hq Hw Hs.
    eexists. rewrite (single_returns _ _ _ _ _ _ doc);
      [reflexivity | by apply normalise_nonempty | assumption .. ].
  - intros cs signal Hs.
    rewrite (single_returns _ _ _ _ _ _ {| getText := str "ababab" |});
      [| by destruct cs; vm_compute | by vm_compute | reflexivity | assumption].
    by destruct cs.
  - split; [by vm_compute |]. split; [reflexivity |]. split.
    + split; [vm_compute; lia | reflexivity].
    + intros [H _]. vm_compute in H. lia.
Qed.

Lemma all_occurrences_per_line_witness :
  (∃ c, c ∈ columnsOn 0 [matchAt sampleUri (str "ab") 0 (str "ababab") 0;
                         matchAt sampleUri (str "ab") 0 (str "ababab") 2;
                         matchAt sampleUri (str "ab") 0 (str "ababab") 4]
        ∧ c ≤ 2 ∧ 2 < c + 2)
  ∧ standsAt Js.toLowerCase false (str "ababab") (str "ab") 4.
Proof.
  pose proof (proj1 all_occurrences_per_line (oneFile sampleUri (str "ababab"))
                Js.toLowerCase (idleSearcher false) sampleUri (str "ab") None
                {| getText := str "ababab" |} _
                ltac:(by vm_compute) eq_refl eq_refl 0 ltac:(vm_compute; lia))
    as (_ & _ & Hcover & Hline).
  split.
  - apply (Hcover 2). reflexivity.
  - apply (proj1 (Hline ltac:(apply table_inPlace; by repeat constructor)
                    eq_refl) 4).
    vm_compute. do 2 right. by left.
Defined.

(** C8. The result sequence of a single-document search is in document
    order: of two results, the earlier one lies on an earlier line, or on the
    same line at a smaller column. *)
Theorem results_in_document_order
    (workspace : Uri → Js.Error + TextDocument)
    (toLowerCase : Js.string → Js.string) (ts : TextSearcher) (u : Uri)
    (query : Js.string) (signal : option AbortSignal)
    (results : list SearchResult) :
  result (searchInSingleDocument workspace toLowerCase ts u query signal)
  = Return results →
  StronglySorted before results.
Proof.
  intros Hr.
  destruct (decide (Js.trim query = [])) as [Hq|Hq].
  - rewrite single_blank in Hr by assumption. simpl in Hr.
    injection Hr as <-. constructor.
  - destruct (single_returned _ _ _ _ _ _ _ Hr Hq) as (doc & _ & _ & Hn & ->).
    apply (lines_sorted _ _ _ _ _ Hn).
Qed.

Lemma results_in_document_order_witness :
  StronglySorted before
    [matchAt sampleUri (str "ab") 0 (str "ab") 0;
     matchAt sampleUri (str "ab") 1 (str "abab") 0;
     matchAt sampleUri (str "ab") 1 (str "abab") 2].
Proof.
  apply (results_in_document_order
           (oneFile sampleUri (str "ab" ++ LF :: str "abab")) Js.toLowerCase
           (idleSearcher true) sampleUri (str "ab") None).
  reflexivity.
Defined.

(** ** Single-document search: what a result says *)

Lemma documentMatches_result (toLowerCase : Js.string → Js.string) (cs : bool)
    (u : Uri) (q : Js.string) (doc : TextDocument) (r : SearchResult) :
  normalise toLowerCase cs q ≠ [] →
  In r (documentMatches toLowerCase cs u q doc) →
  startLine r < lineCount doc
  ∧ detail r = lineAt doc (startLine r)
  ∧ endLine r = startLine r
  ∧ endColumn r = startColumn r + length q
  ∧ occursAt (normalise toLowerCase cs (detail r)) (normalise toLowerCase cs q)
      (startColumn r).
Proof.
  intros Hq Hr.
  apply In_documentMatches in Hr as (i & Hi & Hr).
  apply In_lineMatches in Hr as (c & -> & Hc).
  unfold startLine, endLine, startColumn, endColumn. simpl.
  repeat split; try assumption.
  pose proof (scanColumns_sound (normalise toLowerCase cs (lineAt doc i))
                (normalise toLowerCase cs q) (Nat.max 1 (length q))
                Hq ltac:(lia)
                (S (length (normalise toLowerCase cs (lineAt doc i)))) 0) as Hs.
  rewrite Forall_forall in Hs. apply list_elem_of_In in Hc.
  by destruct (Hs c Hc).
Qed.

Lemma documentMatches_complete (toLowerCase : Js.string → Js.string)
    (cs : bool) (u : Uri) (q : Js.string) (doc : TextDocument) (i p : nat) :
  normalise toLowerCase cs q ≠ [] → q ≠ [] → i < lineCount doc →
  occursAt (normalise toLowerCase cs (lineAt doc i))
    (normalise toLowerCase cs q) p →
  ∃ r, In r (documentMatches toLowerCase cs u q doc) ∧ startLine r = i
       ∧ detail r = lineAt doc i
       ∧ startColumn r ≤ p ∧ p < startColumn r + length q.
Proof.
  intros Hn Hq Hi Hp.
  pose proof (length_nonempty q Hq) as Hlen.
  destruct (scanColumns_complete (normalise toLowerCase cs (lineAt doc i))
              (normalise toLowerCase cs q) (Nat.max 1 (length q))
              Hn ltac:(lia)
              (S (length (normalise toLowerCase cs (lineAt doc i)))) 0
              ltac:(lia) p ltac:(lia) Hp) as (c & Hc & Hle & Hlt).
  exists (matchAt u q i (lineAt doc i) c).
  unfold startLine, startColumn. simpl. repeat split; try lia.
  apply In_documentMatches. exists i. split; [assumption |].
  apply In_lineMatches. exists c. split; [reflexivity |].
  by apply list_elem_of_In.
Qed.

(** C4. When the searcher is not case-sensitive, a result stands where the
    lower-cased query occurs in the lower-cased line, and every line whose
    lower-cased text holds the lower-cased query yields a result; when it is
    case-sensitive the same holds of the query and the line as they are.  In
    both cases the [detail] of a result is the line as the document has it.
    This is so whatever the host's lower-casing does to a string.  A document
    "Hello" gives one match for "hello" when not case-sensitive, none when
    case-sensitive, and one for "Hello" when case-sensitive. *)
Theorem case_folding_before_comparison :
  (∀ (workspace : Uri → Js.Error + TextDocument)
     (toLowerCase : Js.string → Js.string) (ts : TextSearcher) (u : Uri)
     (query : Js.string) (signal : option AbortSignal) (doc : TextDocument)
     (results : list SearchResult),
     Js.trim query ≠ [] → workspace u = inr doc →
     result (searchInSingleDocument workspace toLowerCase ts u query signal)
     = Return results →
     (∀ r, In r results →
        startLine r < lineCount doc
        ∧ detail r = lineAt doc (startLine r)
        ∧ if getCaseSensitive ts
          then occursAt (detail r) (Js.trim query) (startColumn r)
          else occursAt (toLowerCase (detail r))
                 (toLowerCase (Js.trim query)) (startColumn r))
     ∧ (∀ i p, i < lineCount doc →
          (if getCaseSensitive ts
           then occursAt (lineAt doc i) (Js.trim query) p
           else occursAt (toLowerCase (lineAt doc i))
                  (toLowerCase (Js.trim query)) p) →
          ∃ r, In r results ∧ startLine r = i ∧ detail r = lineAt doc i))
  ∧ result (searchInSingleDocument (oneFile sampleUri (str "Hello"))
              Js.toLowerCase (idleSearcher false) sampleUri (str "hello") None)
    = Return [matchAt sampleUri (str "hello") 0 (str "Hello") 0]
  ∧ result (searchInSingleDocument (oneFile sampleUri (str "Hello"))
              Js.toLowerCase (idleSearcher true) sampleUri (str "hello") None)
    = Return []
  ∧ result (searchInSingleDocument (oneFile sampleUri (str "Hello"))
              Js.toLowerCase (idleSearcher true) sampleUri (str "Hello") None)
    = Return [matchAt sampleUri (str "Hello") 0 (str "Hello") 0].
Proof.
  split; [| by vm_compute].
  intros workspace toLowerCase ts u query signal doc results Hq Hw Hr.
  destruct (single_returned _ _ _ _ _ _ _ Hr Hq) as (doc' & Hw' & _ & Hn & ->).
  assert (doc' = doc) as -> by congruence.
  split.
  - intros r Hin.
    destruct (documentMatches_result _ _ _ _ _ _ Hn Hin)
      as (Hl & Hd & _ & _ & Ho).
    repeat split; try assumption. by destruct (getCaseSensitive ts).
  - intros i p Hi Hp.
    destruct (documentMatches_complete toLowerCase (getCaseSensitive ts) u
                (Js.trim query) doc i p Hn Hq Hi) as (r & Hin & Hl & Hd & _).
    + by destruct (getCaseSensitive ts).
    + by exists r.
Qed.

Lemma case_folding_before_comparison_witness :
  startLine (matchAt sampleUri (str "hello") 0 (str "Hello") 0) < 1
  ∧ detail (matchAt sampleUri (str "hello") 0 (str "Hello") 0) = str "Hello"
  ∧ occursAt
      (Js.toLowerCase (detail (matchAt sampleUri (str "hello") 0 (str "Hello") 0)))
      (str "hello")
      (startColumn (matchAt sampleUri (str "hello") 0 (str "Hello") 0)).
Proof.
  apply (proj1 (proj1 case_folding_before_comparison
                  (oneFile sampleUri (str "Hello")) Js.toLowerCase
                  (idleSearcher false) sampleUri
                  (str "hello") None {| getText := str "Hello" |}
                  [matchAt sampleUri (str "hello") 0 (str "Hello") 0]
                  ltac:(by vm_compute) eq_refl eq_refl)
           (matchAt sampleUri (str "hello") 0 (str "Hello") 0)).
  by left.
Defined.



(** ** Queries with a line break *)

Lemma contains_normalise (toLowerCase : Js.string → Js.string) (cs : bool)
    (s : Js.string) :
  keepsLineFeeds toLowerCase →
  contains LF (normalise toLowerCase cs s) = contains LF s.
Proof. intros Hk. destruct cs; [reflexivity | apply Hk]. Qed.

Lemma contains_drop (c : N) (s : Js.string) :
  ∀ p, contains c (drop p s) = true → contains c s = true.
Proof.
  induction s as [|d t IH]; intros p H; [by destruct p |].
  destruct p as [|p]; [exact H |]. simpl in *.
  rewrite (IH _ H). apply orb_true_r.
Qed.

Lemma contains_take (c : N) (s : Js.string) :
  ∀ n, contains c (take n s) = true → contains c s = true.
Proof.
  induction s as [|d t IH]; intros n H; [by destruct n |].
  destruct n as [|n]; [discriminate |]. simpl in *.
  destruct (d =? c)%N; [reflexivity |]. simpl in *. eauto.
Qed.

Lemma splitLines_no_LF (s : Js.string) :
  Forall (λ l, contains LF l = false) (splitLines s).
Proof.
  induction s as [|c t IH]; simpl; [by repeat constructor |].
  destruct (c =? LF)%N eqn:Ec; [by constructor |].
  destruct (c =? CR)%N eqn:Er.
  - destruct t as [|c' t']; [by constructor |].
    destruct (c' =? LF)%N eqn:Ec'; [| by constructor].
    constructor; [reflexivity |].
    simpl in IH. rewrite Ec' in IH. by inversion IH.
  - destruct (splitLines t) as [|l ls];
      [by repeat constructor; simpl; rewrite Ec |].
    inversion IH as [|? ? Hl Hls]; subst.
    constructor; [| assumption]. simpl. by rewrite Ec.
Qed.

Lemma lineAt_no_LF (doc : TextDocument) (i : nat) :
  contains LF (lineAt doc i) = false.
Proof.
  unfold lineAt.
  destruct (nth_in_or_default i (splitLines (getText doc)) []) as [H | ->];
    [| reflexivity].
  pose proof (splitLines_no_LF (getText doc)) as Hf.
  rewrite Forall_forall in Hf. apply Hf. by apply list_elem_of_In.
Qed.

Lemma lineMatches_line_break (toLowerCase : Js.string → Js.string) (cs : bool)
    (u : Uri) (q : Js.string) (i : nat) (doc : TextDocument) :
  keepsLineFeeds toLowerCase →
  contains LF q = true →
  lineMatches toLowerCase cs u q i (lineAt doc i) = [].
Proof.
  intros Hk Hq.
  assert (Hne : normalise toLowerCase cs q ≠ []).
  { intros E. rewrite <- (contains_normalise toLowerCase cs) in Hq by assumption.
    rewrite E in Hq. discriminate. }
  destruct (lineMatches toLowerCase cs u q i (lineAt doc i)) as [|r l] eqn:E;
    [reflexivity |].
  exfalso.
  assert (Hin : In r (lineMatches toLowerCase cs u q i (lineAt doc i)))
    by (rewrite E; by left).
  apply In_lineMatches in Hin as (c & _ & Hc).
  pose proof (scanColumns_sound (normalise toLowerCase cs (lineAt doc i))
                (normalise toLowerCase cs q) (Nat.max 1 (length q))
                Hne ltac:(lia)
                (S (length (normalise toLowerCase cs (lineAt doc i)))) 0) as Hs.
  rewrite Forall_forall in Hs. apply list_elem_of_In in Hc.
  destruct (Hs c Hc) as [_ Hocc]. unfold occursAt in Hocc.
  assert (Hhay : contains LF (normalise toLowerCase cs (lineAt doc i)) = true).
  { eapply contains_drop, contains_take. rewrite Hocc.
    by rewrite contains_normalise. }
  rewrite contains_normalise, lineAt_no_LF in Hhay by assumption.
  discriminate.
Qed.

(** C3, as the code has it.  A query that holds a line break is looked for in
    one physical line after the other, and a physical line holds no line
    break: the search returns no match at all, for every lower-casing that
    makes no line feed and loses none, and so for the one tabulated here.
    For the document "foo\nbar" and the query "foo\nbar" it opens the
    document and returns the empty list, where one match on the first line
    is expected. *)
Theorem multiline_query_finds_nothing :
  (∀ (workspace : Uri → Js.Error + TextDocument)
     (toLowerCase : Js.string → Js.string) (ts : TextSearcher) (u : Uri)
     (query : Js.string) (signal : option AbortSignal)
     (results : list SearchResult),
     keepsLineFeeds toLowerCase →
     contains LF (Js.trim query) = true →
     result (searchInSingleDocument workspace toLowerCase ts u query signal)
     = Return results →
     results = [])
  ∧ (∀ (workspace : Uri → Js.Error + TextDocument) (ts : TextSearcher)
       (u : Uri) (query : Js.string) (signal : option AbortSignal)
       (results : list SearchResult),
       contains LF (Js.trim query) = true →
       result (searchInSingleDocument workspace Js.toLowerCase ts u query signal)
       = Return results →
       results = [])
  ∧ (∀ cs : bool,
       searchInSingleDocument
         (oneFile sampleUri (str "foo" ++ LF :: str "bar")) Js.toLowerCase
         (idleSearcher cs) sampleUri (str "foo" ++ LF :: str "bar") None
       = ([EvOpenTextDocument sampleUri], Return [])).
Proof.
  assert (Hall : ∀ (workspace : Uri → Js.Error + TextDocument)
                   (toLowerCase : Js.string → Js.string) (ts : TextSearcher)
                   (u : Uri) (query : Js.string) (signal : option AbortSignal)
                   (results : list SearchResult),
             keepsLineFeeds toLowerCase →
             contains LF (Js.trim query) = true →
             result (searchInSingleDocument workspace toLowerCase ts u query
                       signal) = Return results →
             results = []).
  { intros workspace toLowerCase ts u query signal results Hk Hlf Hr.
    assert (Hq : Js.trim query ≠ [])
      by (intros E; rewrite E in Hlf; discriminate).
    destruct (single_returned _ _ _ _ _ _ _ Hr Hq) as (doc & _ & _ & _ & ->).
    unfold documentMatches. generalize 0.
    induction (lineCount doc) as [|n IH]; intros a; [reflexivity |].
    simpl. rewrite lineMatches_line_break by assumption. apply IH. }
  split; [exact Hall |]. split; [| by intros []].
  intros workspace ts u query signal results.
  apply Hall, table_keepsLineFeeds.
Qed.

Lemma multiline_query_finds_nothing_witness :
  ([] : list SearchResult) = [].
Proof.
  apply (proj1 multiline_query_finds_nothing
           (oneFile sampleUri (str "foo" ++ LF :: str "bar")) Js.toLowerCase
           (idleSearcher true) sampleUri (str "foo" ++ LF :: str "bar") None []);
    [apply table_keepsLineFeeds | reflexivity | reflexivity].
Defined.

(** ** Cancellation *)

Lemma search_in_current_file (workspace : Uri → Js.Error + TextDocument)
    (toLowerCase : Js.string → Js.string)
    (ts : TextSearcher) (own : option SearchOptions) (u : Uri)
    (query : Js.string) (signal : option AbortSignal) (t : list event) :
  waitForReady ts = (t, Return tt) →
  search workspace toLowerCase ts own query signal (inCurrentFile u)
  = tryCatch
      (t ++ calls (searchInSingleDocument workspace toLowerCase ts u query signal),
       result (searchInSingleDocument workspace toLowerCase ts u query signal))
      (λ error,
         if signalAborted signal then throw searchCancelled
         else (_ ← consoleError "Search provider error:" error; throw error)).
Proof.
  intros Hw. unfold search. rewrite Hw. simpl.
  by destruct (searchInSingleDocument workspace toLowerCase ts u query signal).
Qed.

(** C6. In single-document search the signal is looked at before each
    physical line is scanned: with lines left and the signal set the loop
    throws "Search cancelled" instead of scanning, and with the signal clear it
    scans the line.  A search for a query that is not blank, given a set
    signal, ends in that error and in no result, whether it is asked of the
    document or through [search]; a document that cannot be opened, the
    signal being clear, ends in the host's own error, which differs from
    "Search cancelled" as soon as its message does. *)
Theorem cancellation_checked_per_line :
  (∀ (toLowerCase : Js.string → Js.string) (signal : option AbortSignal)
     (cs : bool) (u : Uri) (q needle : Js.string)
     (doc : TextDocument) (remaining lineNo : nat)
     (results : list SearchResult),
     (signalAborted signal = true → 0 < remaining →
      forLines toLowerCase signal cs u q needle doc remaining lineNo results
      = Throw searchCancelled)
     ∧ (signalAborted signal = false →
        forLines toLowerCase signal cs u q needle doc (S remaining) lineNo
          results
        = match whileIndexOf
                  (S (length (normalise toLowerCase cs (lineAt doc lineNo))))
                  u q needle lineNo (lineAt doc lineNo)
                  (normalise toLowerCase cs (lineAt doc lineNo)) 0 results with
          | None => Diverge
          | Some results' =>
              forLines toLowerCase signal cs u q needle doc remaining
                (S lineNo) results'
          end))
  ∧ (∀ (workspace : Uri → Js.Error + TextDocument)
       (toLowerCase : Js.string → Js.string) (ts : TextSearcher)
       (u : Uri) (query : Js.string) (signal : option AbortSignal)
       (doc : TextDocument),
       Js.trim query ≠ [] → workspace u = inr doc →
       signalAborted signal = true →
       result (searchInSingleDocument workspace toLowerCase ts u query signal)
       = Throw searchCancelled)
  ∧ (∀ (workspace : Uri → Js.Error + TextDocument)
       (toLowerCase : Js.string → Js.string) (ts : TextSearcher)
       (own : option SearchOptions) (u : Uri) (query : Js.string)
       (signal : option AbortSignal),
       Js.trim query ≠ [] → signalAborted signal = true →
       result (waitForReady ts) ≠ Diverge →
       result (search workspace toLowerCase ts own query signal
                 (inCurrentFile u))
       = Throw searchCancelled)
  ∧ (∀ (workspace : Uri → Js.Error + TextDocument)
       (toLowerCase : Js.string → Js.string) (ts : TextSearcher)
       (own : option SearchOptions) (u : Uri) (query : Js.string)
       (signal : option AbortSignal) (e : Js.Error),
       Js.trim query ≠ [] → signalAborted signal = false →
       result (waitForReady ts) = Return tt → workspace u = inl e →
       result (search workspace toLowerCase ts own query signal
                 (inCurrentFile u))
       = Throw e
       ∧ (Js.message e ≠ "Search cancelled" →
          result (search workspace toLowerCase ts own query signal
                    (inCurrentFile u))
          ≠ Throw searchCancelled)).
Proof.
  split; [| split; [| split]].
  - intros. split.
    + intros. by apply forLines_aborted.
    + intros Hs. by rewrite forLines_step, Hs.
  - intros workspace toLowerCase ts u query signal doc Hq Hw Hs.
    by rewrite (single_cancelled _ _ _ _ _ _ doc).
  - intros workspace toLowerCase ts own u query signal Hq Hs Hready.
    destruct (waitForReady ts) as [t [[]|e|]] eqn:Ew; simpl in Hready.
    + rewrite (search_in_current_file _ _ _ _ _ _ _ t Ew).
      destruct (workspace u) as [e|doc] eqn:Hw.
      * rewrite (single_open_fails _ _ _ _ _ _ e) by assumption.
        simpl. by rewrite Hs.
      * rewrite (single_cancelled _ _ _ _ _ _ doc) by assumption.
        simpl. by rewrite Hs.
    + unfold search. rewrite Ew. simpl. by rewrite Hs.
    + congruence.
  - intros workspace toLowerCase ts own u query signal e Hq Hs Hready Hw.
    destruct (waitForReady ts) as [t r] eqn:Ew. simpl in Hready. subst r.
    rewrite (search_in_current_file _ _ _ _ _ _ _ t Ew).
    rewrite (single_open_fails _ _ _ _ _ _ e) by assumption.
    simpl. rewrite Hs. simpl. split; [reflexivity |].
    intros Hm [= He]. apply Hm. by rewrite He.
Qed.

Lemma cancellation_checked_per_line_witness :
  result (search (oneFile sampleUri (str "ab")) Js.toLowerCase
            (idleSearcher true) None (str "ab")
            (Some {| aborted := true |}) (inCurrentFile sampleUri))
  = Throw searchCancelled
  ∧ result (search (noFile (Js.mkError "cannot open file")) Js.toLowerCase
              (idleSearcher true) None (str "ab")
              (Some {| aborted := false |}) (inCurrentFile sampleUri))
    ≠ Throw searchCancelled.
Proof.
  split.
  - apply (proj1 (proj2 (proj2 cancellation_checked_per_line))).
    + by vm_compute.
    + reflexivity.
    + discriminate.
  - apply (proj2 (proj2 (proj2 cancellation_checked_per_line))
             (noFile (Js.mkError "cannot open file")) Js.toLowerCase
             (idleSearcher true) None
             sampleUri (str "ab") (Some {| aborted := false |})
             (Js.mkError "cannot open file")).
    + by vm_compute.
    + reflexivity.
    + reflexivity.
    + reflexivity.
    + by vm_compute.
Defined.

(** ** The modal, step by step *)

Ltac split_step :=
  repeat match goal with
         | |- context [match ?x with _ => _ end] => destruct x eqn:?
         | |- context [if ?x then _ else _] => destruct x eqn:?
         end.

Ltac open_step :=
  unfold step, performSearch_returned, performSearch_threw,
    toggleCaseSensitive, saveExcludePatterns, addToHistory, saveHistory,
    showFilePreview, showFilePreview_settled, setCaseSensitive,
    setExcludePatterns, TextSearcher_setCaseSensitive,
    TextSearcher_setExcludePatterns.

Section ModalFacts.

Variable basename : string → string.
Variable asRelativePath : Uri → string.

Lemma performSearch_modal (query : Js.string) (excludePatterns : list Js.string)
    (searchAllFiles : option bool) (m : SearchModal) (h : Host) :
  let s' := performSearch query excludePatterns searchAllFiles m h in
  currentSearchId (fst s') = S (currentSearchId m)
  ∧ abortController (fst s') = Some (controllers h)
  ∧ searchProvider (fst s') = searchProvider m
  ∧ controllers (snd s') = S (controllers h)
  ∧ abortedControllers (snd s')
    = match abortController m with
      | Some c => c :: abortedControllers h
      | None => abortedControllers h
      end
  ∧ previews (snd s') = previews h
  ∧ globalHistory (snd s') = globalHistory h.
Proof.
  unfold performSearch.
  destruct (abortController m); destruct (length query <? 2);
    simpl; repeat split; reflexivity.
Qed.

Lemma performSearch_short (query : Js.string) (excludePatterns : list Js.string)
    (searchAllFiles : option bool) (m : SearchModal) (h : Host) :
  length query < 2 →
  let s' := performSearch query excludePatterns searchAllFiles m h in
  currentResults (fst s') = []
  ∧ inflight (snd s') = inflight h
  ∧ trace (snd s')
    = trace h ++ superseding m
      ++ [Posted (SearchResults [] query (S (currentSearchId m)));
          Posted ClearPreview].
Proof.
  intros Hlen. apply Nat.ltb_lt in Hlen.
  unfold performSearch, superseding. rewrite Hlen.
  destruct (abortController m); simpl; repeat split;
    by rewrite <- ?app_assoc.
Qed.

Lemma performSearch_long (query : Js.string) (excludePatterns : list Js.string)
    (searchAllFiles : option bool) (m : SearchModal) (h : Host) :
  2 ≤ length query →
  let s' := performSearch query excludePatterns searchAllFiles m h in
  currentResults (fst s') = currentResults m
  ∧ inflight (snd s') = inflight h ++ [callOf query searchAllFiles m h]
  ∧ trace (snd s')
    = trace h ++ superseding m ++ [Called (callOf query searchAllFiles m h)].
Proof.
  intros Hlen. apply Nat.ltb_ge in Hlen.
  unfold performSearch, superseding, callOf. rewrite Hlen.
  destruct (abortController m); simpl; repeat split;
    by rewrite <- ?app_assoc.
Qed.


(** Whatever happens, request ids and controllers only grow, a controller
    once aborted stays aborted, and a result set or an error is posted only
    under the request id that is current when it is posted. *)
Lemma step_frame (a : action) (m : SearchModal) (h : Host) :
  let s' := step basename asRelativePath a (m, h) in
  currentSearchId m ≤ currentSearchId (fst s')
  ∧ controllers h ≤ controllers (snd s')
  ∧ (∀ c, c ∈ abortedControllers h → c ∈ abortedControllers (snd s'))
  ∧ ∃ added, trace (snd s') = trace h ++ added
             ∧ Forall (λ i, i = currentSearchId (fst s')) (deliveredIds added).
Proof.
  destruct a as [query excl saf|sid reply|path lineNo query|n reply|query| |pats en].
  - simpl.
    destruct (performSearch_modal query excl saf m h) as (Hid & _ & _ & Hc & Ha & _).
    rewrite Hid, Hc, Ha. repeat split; try lia.
    + intros c Hin. destruct (abortController m); [by right | assumption].
    + destruct (le_lt_dec 2 (length query)) as [Hl|Hl].
      * destruct (performSearch_long query excl saf m h Hl) as (_ & _ & Ht).
        eexists. split; [exact Ht |].
        unfold superseding. destruct (abortController m); constructor.
      * destruct (performSearch_short query excl saf m h Hl) as (_ & _ & Ht).
        eexists. split; [exact Ht |].
        unfold superseding. destruct (abortController m); simpl;
          by repeat constructor.
  - open_step. split_step; simpl; repeat split; try lia; try (intros; assumption);
      try (exists []; split; [by rewrite app_nil_r | constructor]);
      (eexists; split; [rewrite <- ?app_assoc; reflexivity |]);
      simpl; repeat constructor;
      try (by apply Nat.eqb_eq);
      rewrite negb_false_iff in *; by apply Nat.eqb_eq.
  - open_step. simpl. repeat split; try lia; try (intros; assumption).
    exists []. split; [by rewrite app_nil_r | constructor].
  - open_step. split_step; simpl; repeat split; try lia; try (intros; assumption);
      try (exists []; split; [by rewrite app_nil_r | constructor]);
      try (eexists; split; [reflexivity |]; simpl; repeat constructor).
  - open_step. split_step; simpl; repeat split; try lia; try (intros; assumption);
      try (exists []; split; [by rewrite app_nil_r | constructor]).
    eexists. split; [by rewrite <- app_assoc |]. simpl. constructor.
  - open_step. simpl. repeat split; try lia; try (intros; assumption).
    eexists. split; [reflexivity |]. simpl. constructor.
  - open_step. simpl. repeat split; try lia; try (intros; assumption).
    exists []. split; [by rewrite app_nil_r | constructor].
Qed.


(** Only [performSearch] touches the controllers. *)
Lemma step_controllers (a : action) (m : SearchModal) (h : Host) :
  (∀ query excl saf, a ≠ DoSearch query excl saf) →
  let s' := step basename asRelativePath a (m, h) in
  currentSearchId (fst s') = currentSearchId m
  ∧ abortController (fst s') = abortController m
  ∧ abortedControllers (snd s') = abortedControllers h
  ∧ controllers (snd s') = controllers h.
Proof.
  intros Ha.
  destruct a as [query excl saf|sid reply|path lineNo query|n reply|query| |pats en];
    [by destruct (Ha query excl saf) | ..];
    open_step; split_step; simpl; by repeat split.
Qed.

(** A completion whose request id is not the current one changes nothing in
    the modal and posts nothing; a failure is written to the console. *)
Lemma settle_stale (sid : nat) (reply : outcome (list SearchResult))
    (m : SearchModal) (h : Host) :
  sid ≠ currentSearchId m →
  let s' := step basename asRelativePath (SearchSettles sid reply) (m, h) in
  fst s' = m
  ∧ postedIn (trace (snd s')) = postedIn (trace h)
  ∧ (trace (snd s') = trace h
     ∨ ∃ e, reply = Throw e
            ∧ trace (snd s') = trace h ++ [Logged "Search error:" e]).
Proof.
  intros Hne. simpl.
  destruct (list_find (λ c, callId c = sid) (inflight h)) as [[i call]|] eqn:E;
    [| by repeat split; try left].
  apply list_find_Some in E as (_ & Hid & _).
  assert (Hb : (callId call =? currentSearchId m) = false)
    by (apply Nat.eqb_neq; congruence).
  destruct reply as [results|error|]; [| | by repeat split; try left].
  - unfold performSearch_returned. rewrite Hb. by repeat split; try left.
  - unfold performSearch_threw. rewrite Hb. simpl. split; [reflexivity |].
    split; [| right; by exists error].
    unfold postedIn. rewrite omap_app. simpl. by rewrite app_nil_r.
Qed.

(** A stale failure of a search that is in flight is written to the
    console. *)
Lemma settle_stale_threw (sid : nat) (e : Js.Error) (call : SearchCall)
    (m : SearchModal) (h : Host) :
  sid ≠ currentSearchId m → call ∈ inflight h → callId call = sid →
  trace (snd (step basename asRelativePath (SearchSettles sid (Throw e)) (m, h)))
  = trace h ++ [Logged "Search error:" e].
Proof.
  intros Hne Hin Hid. simpl.
  destruct (list_find (λ c, callId c = sid) (inflight h)) as [[i c]|] eqn:E.
  - apply list_find_Some in E as (_ & Hc & _).
    assert (Hb : (callId c =? currentSearchId m) = false)
      by (apply Nat.eqb_neq; congruence).
    unfold performSearch_threw. by rewrite Hb.
  - apply list_find_None in E. rewrite Forall_forall in E.
    by destruct (E call Hin).
Qed.

Lemma run_snoc (l : list action) (a : action) (s : SearchModal * Host) :
  run basename asRelativePath (l ++ [a]) s
  = step basename asRelativePath a (run basename asRelativePath l s).
Proof. unfold run. by rewrite fold_left_app. Qed.

Lemma run_frame (l : list action) (s : SearchModal * Host) :
  let s' := run basename asRelativePath l s in
  currentSearchId (fst s) ≤ currentSearchId (fst s')
  ∧ controllers (snd s) ≤ controllers (snd s')
  ∧ (∀ c, c ∈ abortedControllers (snd s) → c ∈ abortedControllers (snd s')).
Proof.
  induction l as [|a l IH] using rev_ind; [by repeat split |].
  rewrite run_snoc. destruct IH as (H1 & H2 & H3).
  destruct (run basename asRelativePath l s) as [m h].
  destruct (step_frame a m h) as (G1 & G2 & G3 & _).
  cbv zeta in *. simpl in *. repeat split; [lia | lia | auto].
Qed.

Lemma step_liveOrAborted (c : nat) (a : action) (s : SearchModal * Host) :
  liveOrAborted c s → liveOrAborted c (step basename asRelativePath a s).
Proof.
  destruct s as [m h]. intros [Hc Hlt]. simpl in Hc, Hlt.
  destruct a as [query excl saf|sid reply|path lineNo query|n reply|query| |pats en].
  1: { simpl step.
       destruct (performSearch_modal query excl saf m h)
         as (_ & _ & _ & Hn & Ha & _).
       split; [right | cbv zeta in *; lia].
       cbv zeta in Ha. rewrite Ha.
       destruct Hc as [-> | Hc]; [by left |].
       destruct (abortController m); [by right | assumption]. }
  all: match goal with
       | |- liveOrAborted _ (step _ _ ?a _) =>
           destruct (step_controllers a m h ltac:(discriminate))
             as (_ & E1 & E2 & E3)
       end;
    unfold liveOrAborted; cbv zeta in *; by rewrite E1, E2, E3.
Qed.

Lemma run_liveOrAborted (c : nat) (l : list action) (s : SearchModal * Host) :
  liveOrAborted c s → liveOrAborted c (run basename asRelativePath l s).
Proof.
  intros H. induction l as [|a l IH] using rev_ind; [assumption |].
  rewrite run_snoc. by apply step_liveOrAborted.
Qed.

(** C1, as the code has it.  Of two search requests issued one after the
    other, whatever happens in between and afterwards: the second has the
    strictly larger request id; the controller whose signal the first
    request's search was given is aborted once the second is issued, and
    stays so; when the first request's search then settles, with a result or
    with an error, the modal is left as it was and no message is posted to
    the webview: for a result the trace gains nothing, and for an error of a
    search still in flight it gains the one entry of
    [console.error('Search error:', error)], which [performSearch] writes
    before it compares the request ids.  And whatever happens to a modal, a
    result set or an error it posts carries the request id that is current at
    that moment. *)
Theorem latest_request_wins
    (s0 : SearchModal * Host)
    (q1 : Js.string) (e1 : list Js.string) (f1 : option bool) (between : list action)
    (q2 : Js.string) (e2 : list Js.string) (f2 : option bool) (later : list action)
    (reply : outcome (list SearchResult)) :
  let s1 := step basename asRelativePath (DoSearch q1 e1 f1) s0 in
  let s3 := step basename asRelativePath (DoSearch q2 e2 f2)
              (run basename asRelativePath between s1) in
  let s4 := run basename asRelativePath later s3 in
  let s5 := step basename asRelativePath
              (SearchSettles (currentSearchId (fst s1)) reply) s4 in
  currentSearchId (fst s1) < currentSearchId (fst s3)
  ∧ (∃ c1, abortController (fst s1) = Some c1
           ∧ (2 ≤ length q1 →
              ∃ call, inflight (snd s1) = inflight (snd s0) ++ [call]
                      ∧ callId call = currentSearchId (fst s1)
                      ∧ callController call = c1
                      ∧ callQuery call = q1)
           ∧ aborted (signalOf c1 (snd s3)) = true
           ∧ aborted (signalOf c1 (snd s4)) = true)
  ∧ fst s5 = fst s4
  ∧ postedIn (trace (snd s5)) = postedIn (trace (snd s4))
  ∧ (trace (snd s5) = trace (snd s4)
     ∨ ∃ e, reply = Throw e
            ∧ trace (snd s5) = trace (snd s4) ++ [Logged "Search error:" e])
  ∧ (∀ results, reply = Return results → trace (snd s5) = trace (snd s4))
  ∧ (∀ e call,
       reply = Throw e → call ∈ inflight (snd s4) →
       callId call = currentSearchId (fst s1) →
       trace (snd s5) = trace (snd s4) ++ [Logged "Search error:" e])
  ∧ (∀ (a : action) (s : SearchModal * Host),
       ∃ added,
         trace (snd (step basename asRelativePath a s)) = trace (snd s) ++ added
         ∧ Forall (λ i, i = currentSearchId (fst (step basename asRelativePath a s)))
             (deliveredIds added)).
Proof.
  intros s1 s3 s4 s5. destruct s0 as [m0 h0].
  destruct (performSearch_modal q1 e1 f1 m0 h0) as (Hid1 & Hc1 & _ & Hn1 & _).
  fold (step basename asRelativePath (DoSearch q1 e1 f1) (m0, h0)) in Hid1, Hc1, Hn1.
  fold s1 in Hid1, Hc1, Hn1. cbv zeta in *.
  set (s2 := run basename asRelativePath between s1) in *.
  destruct (run_frame between s1) as (Hm2 & _). fold s2 in Hm2.
  assert (Hid3 : currentSearchId (fst s3) = S (currentSearchId (fst s2))).
  { subst s3. destruct s2 as [m2 h2].
    by destruct (performSearch_modal q2 e2 f2 m2 h2) as (? & _). }
  destruct (run_frame later s3) as (Hm4 & _ & Ha4). fold s4 in Hm4, Ha4.
  assert (Hlive : liveOrAborted (controllers h0) s2).
  { apply run_liveOrAborted. split; [left; exact Hc1 | rewrite Hn1; lia]. }
  assert (Hab3 : controllers h0 ∈ abortedControllers (snd s3)).
  { subst s3. destruct s2 as [m2 h2]. destruct Hlive as [Hl _]. simpl in Hl.
    destruct (performSearch_modal q2 e2 f2 m2 h2) as (_ & _ & _ & _ & Ha & _).
    simpl step. cbv zeta in Ha. rewrite Ha.
    destruct Hl as [-> | Hl]; [by left |].
    destruct (abortController m2); [by right | assumption]. }
  split; [lia |]. split; [| split; [| split; [| split; [| split; [| split]]]]].
  - exists (controllers h0). split; [exact Hc1 |]. split; [| split].
    + intros Hlen.
      destruct (performSearch_long q1 e1 f1 m0 h0 Hlen) as (_ & Hin & _).
      exists (callOf q1 f1 m0 h0). split; [exact Hin |].
      split; [by rewrite Hid1 | by split].
    + by apply bool_decide_eq_true.
    + apply bool_decide_eq_true. by apply Ha4.
  - subst s5. destruct s4 as [m4 h4].
    apply settle_stale. simpl in *. lia.
  - subst s5. destruct s4 as [m4 h4].
    apply settle_stale. simpl in *. lia.
  - subst s5. destruct s4 as [m4 h4].
    apply settle_stale. simpl in *. lia.
  - intros results ->. subst s5. destruct s4 as [m4 h4].
    destruct (settle_stale (currentSearchId (fst s1)) (Return results) m4 h4)
      as (_ & _ & [E | (e & He & _)]); [simpl in *; lia | exact E | discriminate].
  - intros e call -> Hin Hid. subst s5. destruct s4 as [m4 h4].
    apply (settle_stale_threw _ e call); [simpl in *; lia | exact Hin | exact Hid].
  - intros a [m h]. by destruct (step_frame a m h) as (_ & _ & _ & H).
Qed.

End ModalFacts.

(** ** The history *)

Lemma dedupe_NoDup (l : list Js.string) : NoDup (dedupe l).
Proof.
  induction l as [|x t IH]; simpl; [constructor |].
  apply NoDup_cons. split; [| apply NoDup_filter, IH].
  rewrite list_elem_of_filter. intros [Hx _]. by apply Hx.
Qed.

Lemma filter_absent (x : Js.string) (l : list Js.string) :
  x ∉ l → filter (λ y, y ≠ x) l = l.
Proof.
  induction l as [|y l IH]; intros Hx; [reflexivity |].
  apply not_elem_of_cons in Hx as [Hne Hx].
  rewrite filter_cons_True by congruence. by rewrite IH.
Qed.

(** Cutting a list without repetition one entry later does not change what
    is left of it once [x] is removed and the cut is made. *)
Lemma take_filter_take (x : Js.string) (l : list Js.string) :
  NoDup l →
  ∀ n, take n (filter (λ y, y ≠ x) (take (S n) l))
       = take n (filter (λ y, y ≠ x) l).
Proof.
  induction 1 as [|y l Hy Hl IH]; intros n; [reflexivity |].
  destruct n as [|n]; [by rewrite !take_0 |].
  change (take (S (S n)) (y :: l)) with (y :: take (S n) l).
  destruct (decide (y = x)) as [->|Hne].
  - rewrite !filter_cons_False by (intros Hx; by apply Hx).
    rewrite (filter_absent x l) by assumption.
    rewrite filter_absent; [by rewrite take_take, Nat.min_id |].
    intros Hin. apply Hy. apply elem_of_take in Hin as (i & Hi & _).
    by eapply list_elem_of_lookup_2.
  - rewrite !filter_cons_True by assumption. simpl. by rewrite IH.
Qed.

Lemma addToHistory_history (query : Js.string) (h : Host) :
  loadHistory (addToHistory query h)
  = if Js.isEmpty (Js.trim query) then loadHistory h
    else take MAX_HISTORY
           (Js.trim query
              :: filter (λ x, x ≠ Js.trim query) (loadHistory h)).
Proof. unfold addToHistory. by destruct (Js.isEmpty (Js.trim query)). Qed.

Lemma accepted_snoc (l : list Js.string) (query : Js.string) :
  accepted (l ++ [query])
  = accepted l ++ (if Js.isEmpty (Js.trim query) then [] else [Js.trim query]).
Proof.
  unfold accepted. rewrite map_app, filter_app. f_equal. simpl.
  destruct (Js.trim query) eqn:E; simpl.
  - by rewrite filter_cons_False by (intros Hx; by apply Hx).
  - by rewrite filter_cons_True by discriminate.
Qed.

Lemma recentFirst_snoc (l : list Js.string) (x : Js.string) :
  recentFirst (l ++ [x])
  = take MAX_HISTORY (x :: filter (λ y, y ≠ x) (recentFirst l)).
Proof.
  unfold recentFirst, MAX_HISTORY. rewrite reverse_snoc. simpl. f_equal.
  symmetry. apply take_filter_take, dedupe_NoDup.
Qed.

Section History.

Variable basename : string → string.
Variable asRelativePath : Uri → string.

Lemma step_history (a : action) (m : SearchModal) (h : Host) :
  loadHistory (snd (step basename asRelativePath a (m, h)))
  = match a with
    | CommitHistory query => loadHistory (addToHistory query h)
    | _ => loadHistory h
    end.
Proof.
  destruct a as [query excl saf|sid reply|path lineNo query|n reply|query| |pats en].
  1: { simpl. unfold loadHistory.
       by destruct (performSearch_modal query excl saf m h)
         as (_ & _ & _ & _ & _ & _ & ->). }
  all: open_step; split_step; reflexivity.
Qed.

Lemma run_history (l : list action) (m : SearchModal) :
  loadHistory (snd (run basename asRelativePath l (m, newHost)))
  = recentFirst (accepted (committed l)).
Proof.
  induction l as [|a l IH] using rev_ind; [reflexivity |].
  rewrite run_snoc.
  destruct (run basename asRelativePath l (m, newHost)) as [m' h'] eqn:E.
  rewrite step_history. simpl in IH.
  unfold committed. rewrite omap_app. fold (committed l).
  destruct a; simpl; rewrite ?app_nil_r; try exact IH.
  rewrite accepted_snoc, addToHistory_history, IH.
  destruct (Js.isEmpty (Js.trim query)); [by rewrite app_nil_r |].
  by rewrite recentFirst_snoc.
Qed.

End History.

Lemma latest_request_wins_witness :
  let s4 := run (λ s, s) fsPath
              [DoSearch (str "ab") [] None; DoSearch (str "abc") [] None]
              (newSearchModal (idleSearcher true) (Some sampleUri) None, newHost) in
  postedIn (trace (snd (step (λ s, s) fsPath
                          (SearchSettles 1 (Return [matchAt sampleUri (str "ab") 0 (str "ab") 0]))
                          s4)))
  = postedIn (trace (snd s4)).
Proof.
  exact (proj1 (proj2 (proj2 (proj2
           (latest_request_wins (λ s, s) fsPath
              (newSearchModal (idleSearcher true) (Some sampleUri) None, newHost)
              (str "ab") [] None [] (str "abc") [] None []
              (Return [matchAt sampleUri (str "ab") 0 (str "ab") 0])))))).
Defined.

(** C1, as stated, fails.  The search of request 1 is in flight when request
    2 is issued and its signal aborted; it then rejects with "Search
    cancelled".  Request 1 is no longer the current one, and nothing is
    posted for it, but the completion is not discarded silently: the failure
    is written to the console as an error. *)
Lemma stale_failure_is_logged :
  let s4 := run (λ s, s) fsPath
              [DoSearch (str "ab") [] None; DoSearch (str "abc") [] None]
              (newSearchModal (idleSearcher true) (Some sampleUri) None, newHost) in
  let s5 := step (λ s, s) fsPath (SearchSettles 1 (Throw searchCancelled)) s4 in
  currentSearchId (fst s4) = 2
  ∧ aborted (signalOf 0 (snd s4)) = true
  ∧ map callId (inflight (snd s4)) = [1; 2]
  ∧ postedIn (trace (snd s5)) = postedIn (trace (snd s4))
  ∧ trace (snd s5)
    = trace (snd s4) ++ [Logged "Search error:" searchCancelled]
  ∧ trace (snd s5) ≠ trace (snd s4).
Proof. by vm_compute. Qed.

(** ** History, settings and short queries *)

(** C7. Whatever happens to a modal that starts with an empty store, the
    stored history is the list of the committed texts (trimmed, blank ones
    left out), most recent first, each text once, cut to [MAX_HISTORY]
    entries: it holds at most 20 entries and no text twice, and right after a
    commit of a text that is not blank that text, trimmed, is its head. *)
Theorem history_recent_first_bounded
    (basename : string → string) (asRelativePath : Uri → string)
    (l : list action) (m : SearchModal) :
  let stored := loadHistory (snd (run basename asRelativePath l (m, newHost))) in
  stored = recentFirst (accepted (committed l))
  ∧ length stored ≤ 20
  ∧ NoDup stored
  ∧ (∀ l' query, l = l' ++ [CommitHistory query] →
       Js.trim query ≠ [] → head stored = Some (Js.trim query)).
Proof.
  intros stored. subst stored. rewrite run_history.
  split; [reflexivity |]. split; [| split].
  - unfold recentFirst, MAX_HISTORY. rewrite length_take. lia.
  - unfold recentFirst. eapply sublist_NoDup; [apply dedupe_NoDup |].
    apply sublist_take.
  - intros l' query -> Hq.
    unfold committed. rewrite omap_app. fold (committed l'). simpl.
    rewrite accepted_snoc. rewrite (proj2 (isEmpty_false _) Hq).
    by rewrite recentFirst_snoc.
Qed.

Lemma history_recent_first_bounded_witness :
  head (loadHistory
          (snd (run (λ s, s) fsPath
                  [CommitHistory (str "foo"); CommitHistory (str "bar"); CommitHistory (str " foo ")]
                  (newSearchModal (idleSearcher true) None None, newHost))))
  = Some (str "foo").
Proof.
  apply (proj2 (proj2 (proj2
           (history_recent_first_bounded (λ s, s) fsPath
              [CommitHistory (str "foo"); CommitHistory (str "bar"); CommitHistory (str " foo ")]
              (newSearchModal (idleSearcher true) None None))))
           [CommitHistory (str "foo"); CommitHistory (str "bar")] (str " foo ")).
  - reflexivity.
  - by vm_compute.
Defined.

(** C9. Toggling case sensitivity flips the [caseSensitive] flag of the
    search state and saving exclude patterns stores the patterns and their
    switch, each leaving the other settings as they were; neither calls
    [searchProvider.search], posts a result set or an error, or touches the
    current results, the current request id, the controller or the searches in
    flight. *)
Theorem settings_mutators_do_not_search (m : SearchModal) (h : Host) :
  (let s' := toggleCaseSensitive m h in
   searchState (textSearcher (searchProvider (fst s')))
   = {| caseSensitive :=
          negb (caseSensitive (searchState (textSearcher (searchProvider m))));
        excludePatterns :=
          excludePatterns (searchState (textSearcher (searchProvider m)));
        excludeEnabled :=
          excludeEnabled (searchState (textSearcher (searchProvider m))) |}
   ∧ currentResults (fst s') = currentResults m
   ∧ currentSearchId (fst s') = currentSearchId m
   ∧ abortController (fst s') = abortController m
   ∧ inflight (snd s') = inflight h
   ∧ abortedControllers (snd s') = abortedControllers h
   ∧ searchCallsIn (trace (snd s')) = searchCallsIn (trace h)
   ∧ deliveredIds (trace (snd s')) = deliveredIds (trace h))
  ∧ (∀ (patterns : list Js.string) (enabled : bool),
       let s' := saveExcludePatterns patterns enabled m h in
       searchState (textSearcher (searchProvider (fst s')))
       = {| caseSensitive :=
              caseSensitive (searchState (textSearcher (searchProvider m)));
            excludePatterns := patterns;
            excludeEnabled := enabled |}
       ∧ currentResults (fst s') = currentResults m
       ∧ currentSearchId (fst s') = currentSearchId m
       ∧ abortController (fst s') = abortController m
       ∧ snd s' = h).
Proof.
  split.
  - simpl. repeat split.
    + unfold searchCallsIn. rewrite omap_app. simpl. by rewrite app_nil_r.
    + unfold deliveredIds, postedIn. rewrite !omap_app. simpl.
      by rewrite app_nil_r.
  - intros. simpl. by repeat split.
Qed.

(** C2, as the code has it.  [performSearch] measures the query as it is,
    untrimmed: for a query of fewer than two code units it empties the current
    results and posts an empty result set under the new request id, then
    clears the preview, without calling [searchProvider.search] and without an
    error message.  Single-document search returns the empty list, without
    opening the document, for a query that is empty once trimmed, and opens
    the document for every other query. *)
Theorem short_query_returns_empty :
  (∀ (query : Js.string) (excl : list Js.string) (saf : option bool)
     (m : SearchModal) (h : Host),
     length query < 2 →
     let s' := performSearch query excl saf m h in
     currentResults (fst s') = []
     ∧ inflight (snd s') = inflight h
     ∧ searchCallsIn (trace (snd s')) = searchCallsIn (trace h)
     ∧ trace (snd s')
       = trace h ++ superseding m
         ++ [Posted (SearchResults [] query (S (currentSearchId m)));
             Posted ClearPreview])
  ∧ (∀ (workspace : Uri → Js.Error + TextDocument)
       (toLowerCase : Js.string → Js.string) (ts : TextSearcher)
       (u : Uri) (query : Js.string) (signal : option AbortSignal),
       (Js.trim query = [] →
        searchInSingleDocument workspace toLowerCase ts u query signal
        = ([], Return []))
       ∧ (Js.trim query ≠ [] →
          calls (searchInSingleDocument workspace toLowerCase ts u query signal)
          = [EvOpenTextDocument u])).
Proof.
  split.
  - intros query excl saf m h Hlen.
    destruct (performSearch_short query excl saf m h Hlen) as (Hr & Hi & Ht).
    cbv zeta in *. repeat split; try assumption.
    rewrite Ht. unfold searchCallsIn, superseding. rewrite !omap_app.
    destruct (abortController m); simpl; by rewrite app_nil_r.
  - intros workspace toLowerCase ts u query signal.
    split; [by apply single_blank |].
    intros Hq. destruct (workspace u) as [e|doc] eqn:Hw.
    + by rewrite (single_open_fails _ _ _ _ _ _ e).
    + by rewrite (single_opened _ _ _ _ _ _ doc).
Qed.

Lemma short_query_returns_empty_witness :
  trace (snd (performSearch (str "a") [] None
                (newSearchModal (idleSearcher true) None None) newHost))
  = [Posted (SearchResults [] (str "a") 1); Posted ClearPreview]
  ∧ searchInSingleDocument (oneFile sampleUri (str "banana")) Js.toLowerCase
      (idleSearcher true) sampleUri (str " ") None = ([], Return []).
Proof.
  split.
  - apply (proj1 short_query_returns_empty (str "a") [] None
             (newSearchModal (idleSearcher true) None None) newHost).
    vm_compute. lia.
  - apply (proj1 (proj2 short_query_returns_empty _ _ _ _ _ _)). reflexivity.
Defined.

(** C2, as stated, fails.  The query "a" is shorter than two code units, yet
    single-document search opens the document and returns its three
    occurrences in "banana"; and the query " a", which is that short once
    trimmed, passes the length test of [performSearch], which calls the
    provider with it. *)
Lemma short_trimmed_query_is_searched :
  length (Js.trim (str "a")) < 2
  ∧ searchInSingleDocument (oneFile sampleUri (str "banana")) Js.toLowerCase
      (idleSearcher true) sampleUri (str "a") None
    = ([EvOpenTextDocument sampleUri],
       Return [matchAt sampleUri (str "a") 0 (str "banana") 1;
               matchAt sampleUri (str "a") 0 (str "banana") 3;
               matchAt sampleUri (str "a") 0 (str "banana") 5])
  ∧ length (Js.trim (str " a")) < 2
  ∧ searchCallsIn
      (trace (snd (performSearch (str " a") [] (Some false)
                     (newSearchModal (idleSearcher true) (Some sampleUri) None)
                     newHost)))
    = [{| callId := 1; callController := 0; callQuery := (str " a");
          callOptions := {| currentFileOnly := Some true;
                            currentFileUri := Some sampleUri |} |}]
  ∧ result (search (oneFile sampleUri (str "banana")) Js.toLowerCase
              (idleSearcher true) None (str " a")
              (Some {| aborted := false |}) (inCurrentFile sampleUri))
    = Return [matchAt sampleUri (str "a") 0 (str "banana") 1;
              matchAt sampleUri (str "a") 0 (str "banana") 3;
              matchAt sampleUri (str "a") 0 (str "banana") 5].
Proof. vm_compute. repeat split; lia. Qed.

(** * Further properties *)

(** ** More on [search] *)

(** X1.  [search] opens a document only when the effective options ask for
    the current file and name a uri.  In every other case its outcome is the
    same in every workspace: it waits for the searcher and runs the indexed
    search, and a failure of either goes to its handler, which throws
    [Error('Search cancelled')] under an aborted signal and logs and rethrows
    the error otherwise. *)
Theorem search_without_document_uses_index
    (workspace workspace' : Uri → Js.Error + TextDocument)
    (toLowerCase : Js.string → Js.string) (ts : TextSearcher)
    (own : option SearchOptions) (query : Js.string)
    (signal : option AbortSignal) (options : option SearchOptions) :
  nullish (options ≫= currentFileOnly) (own ≫= currentFileOnly) ≠ Some true
  ∨ nullish (options ≫= currentFileUri) (own ≫= currentFileUri) = None →
  search workspace toLowerCase ts own query signal options
  = search workspace' toLowerCase ts own query signal options
  ∧ search workspace toLowerCase ts own query signal options
    = tryCatch (_ ← waitForReady ts; indexSearch ts query signal)
        (λ error,
           if signalAborted signal then throw searchCancelled
           else (_ ← consoleError "Search provider error:" error; throw error)).
Proof.
  intros H. unfold search.
  destruct (nullish (options ≫= currentFileOnly) (own ≫= currentFileOnly))
    as [[|]|] eqn:E1;
    destruct (nullish (options ≫= currentFileUri) (own ≫= currentFileUri))
    as [u|] eqn:E2; try (by split).
  destruct H; congruence.
Qed.

Lemma search_without_document_uses_index_witness :
  search (oneFile sampleUri (str "ab")) Js.toLowerCase (idleSearcher true) None
    (str "ab") None
    (Some {| currentFileOnly := Some true; currentFileUri := None |})
  = search (noFile searchCancelled) Js.toLowerCase (idleSearcher true) None
      (str "ab") None
      (Some {| currentFileOnly := Some true; currentFileUri := None |}).
Proof.
  apply (search_without_document_uses_index (oneFile sampleUri (str "ab"))
           (noFile searchCancelled) Js.toLowerCase (idleSearcher true) None
           (str "ab") None
           (Some {| currentFileOnly := Some true; currentFileUri := None |})).
  by right.
Defined.

(** X2.  When [search] fails under an aborted signal, the error it throws is
    [Error('Search cancelled')], whatever had failed.  When it fails under a
    signal that is not aborted, or without a signal, the last thing it did
    was [console.error('Search provider error:', e)] for the error [e] that
    it rethrows. *)
Theorem search_failure_reporting
    (workspace : Uri → Js.Error + TextDocument)
    (toLowerCase : Js.string → Js.string) (ts : TextSearcher)
    (own : option SearchOptions) (query : Js.string)
    (signal : option AbortSignal) (options : option SearchOptions)
    (e : Js.Error) :
  result (search workspace toLowerCase ts own query signal options) = Throw e →
  (signalAborted signal = true → e = searchCancelled)
  ∧ (signalAborted signal = false →
     ∃ t, calls (search workspace toLowerCase ts own query signal options)
          = t ++ [EvConsoleError "Search provider error:" e]).
Proof.
  unfold search, tryCatch.
  match goal with
  | |- context [match ?b with _ => _ end] => destruct b as [t [r|e'|]]
  end; simpl; try discriminate.
  destruct (signalAborted signal); simpl; intros [= <-]; split;
    try discriminate; try reflexivity.
  intros _. by exists t.
Qed.

Lemma search_failure_reporting_witness :
  ∃ t, calls (search (noFile (Js.mkError "gone")) Js.toLowerCase
                (idleSearcher true) None (str "ab")
                None (inCurrentFile sampleUri))
       = t ++ [EvConsoleError "Search provider error:" (Js.mkError "gone")].
Proof.
  apply (search_failure_reporting (noFile (Js.mkError "gone")) Js.toLowerCase
           (idleSearcher true) None (str "ab") None (inCurrentFile sampleUri)
           (Js.mkError "gone") eq_refl).
  reflexivity.
Defined.

(** ** More on the history *)

(** X3.  [addToHistory] does nothing for a query that is blank after
    trimming.  For every other query it stores the first [MAX_HISTORY]
    entries of the new list (the trimmed query, then the old entries other
    than it) and posts [historyUpdated] with the whole new list: with a full
    history and a query that is not in it, the posted list has one entry more
    than the stored one. *)
Theorem history_update_pushed (query : Js.string) (h : Host) :
  (Js.trim query = [] → addToHistory query h = h)
  ∧ (Js.trim query ≠ [] →
     ∃ next,
       next = Js.trim query
                :: filter (λ x, x ≠ Js.trim query) (loadHistory h)
       ∧ trace (addToHistory query h)
         = trace h ++ [Stored (take MAX_HISTORY next);
                       Posted (HistoryUpdated next)]
       ∧ loadHistory (addToHistory query h) = take MAX_HISTORY next
       ∧ (length (loadHistory h) = MAX_HISTORY →
          Js.trim query ∉ loadHistory h →
          length next = S MAX_HISTORY
          ∧ length (loadHistory (addToHistory query h)) = MAX_HISTORY)).
Proof.
  split.
  - intros E. unfold addToHistory. by rewrite E.
  - intros Hq. eexists. split; [reflexivity |].
    unfold addToHistory. rewrite (proj2 (isEmpty_false _) Hq).
    set (old := loadHistory h).
    split; [| split].
    + simpl. by rewrite <- app_assoc.
    + reflexivity.
    + intros Hlen Hnot. rewrite filter_absent by assumption.
      split; [simpl; by rewrite Hlen |].
      change (length (take MAX_HISTORY (Js.trim query :: old)) = MAX_HISTORY).
      rewrite length_take. cbn [length]. fold old in Hlen. rewrite Hlen.
      unfold MAX_HISTORY. lia.
Qed.

Lemma history_update_pushed_witness :
  addToHistory (str "  ") newHost = newHost
  ∧ loadHistory (addToHistory (str " ab ") newHost) = [str "ab"].
Proof.
  split.
  - apply (proj1 (history_update_pushed (str "  ") newHost)). reflexivity.
  - destruct (proj2 (history_update_pushed (str " ab ") newHost) ltac:(by vm_compute))
      as (next & -> & _ & E & _).
    exact E.
Defined.

(** ** What every reachable modal satisfies *)

Lemma StronglySorted_sublist {A : Type} (R : relation A) (l1 l2 : list A) :
  l1 `sublist_of` l2 → StronglySorted R l2 → StronglySorted R l1.
Proof.
  induction 1 as [|x l1 l2 Hs IH|x l1 l2 Hs IH]; intros H2.
  - constructor.
  - apply StronglySorted_cons in H2 as [Hx H2].
    apply StronglySorted_cons. split; [| by apply IH].
    rewrite Forall_forall in *. intros y Hy. apply Hx.
    by eapply elem_of_sublist.
  - apply StronglySorted_cons in H2 as [_ H2]. by apply IH.
Qed.

Section Reachable.

Variable basename : string → string.
Variable asRelativePath : Uri → string.

(** Apart from [performSearch], nothing adds a search in flight. *)
Lemma step_inflight (a : action) (m : SearchModal) (h : Host) :
  (∀ query excl saf, a ≠ DoSearch query excl saf) →
  inflight (snd (step basename asRelativePath a (m, h))) `sublist_of` inflight h.
Proof.
  intros Ha.
  destruct a as [query excl saf|sid reply|path lineNo query|n reply|query| |pats en];
    [by destruct (Ha query excl saf) | ..].
  - unfold step.
    destruct (list_find (λ c, callId c = sid) (inflight h)) as [[i call]|];
      [| reflexivity].
    destruct reply as [results|error|]; [| | reflexivity].
    + unfold performSearch_returned. split_step; simpl; apply sublist_delete.
    + unfold performSearch_threw. split_step; simpl; apply sublist_delete.
  - reflexivity.
  - open_step. split_step; reflexivity.
  - open_step. split_step; reflexivity.
  - open_step. split_step; reflexivity.
  - open_step. split_step; reflexivity.
Qed.

Lemma wellFormed_new (ts : TextSearcher) (editor : option Uri)
    (opts : option SearchOptions) :
  wellFormed (newSearchModal ts editor opts, newHost).
Proof.
  split; [| split; [| split]]; simpl.
  - discriminate.
  - intros c Hc. by apply elem_of_nil in Hc.
  - intros call Hc. by apply elem_of_nil in Hc.
  - constructor.
Qed.

Lemma wellFormed_step (a : action) (s : SearchModal * Host) :
  wellFormed s → wellFormed (step basename asRelativePath a s).
Proof.
  destruct s as [m h]. intros (Hlive & Hab & Hcalls & Hsorted).
  simpl in Hlive, Hab, Hcalls, Hsorted.
  assert (Hcase : (∃ query excl saf, a = DoSearch query excl saf)
                  ∨ ∀ query excl saf, a ≠ DoSearch query excl saf)
    by (destruct a; (left; by eauto) || (right; discriminate)).
  destruct Hcase as [(query & excl & saf & ->) | Ha].
  - simpl step.
    destruct (performSearch_modal query excl saf m h)
      as (Hid & Hc & _ & Hn & Ha & _).
    cbv zeta in *.
    assert (Hin : inflight (snd (performSearch query excl saf m h)) = inflight h
                  ∨ inflight (snd (performSearch query excl saf m h))
                    = inflight h ++ [callOf query saf m h]).
    { destruct (le_lt_dec 2 (length query)) as [Hl|Hl].
      - right. by destruct (performSearch_long query excl saf m h Hl) as (_ & ? & _).
      - left. by destruct (performSearch_short query excl saf m h Hl) as (_ & ? & _). }
    assert (Hab' : ∀ c, c ∈ abortedControllers (snd (performSearch query excl saf m h))
                        → c < controllers h).
    { intros c. rewrite Ha. destruct (abortController m) as [c0|] eqn:E.
      - intros [->|Hc0]%elem_of_cons; [by destruct (Hlive c0) | by apply Hab].
      - apply Hab. }
    assert (Hold : ∀ call, call ∈ inflight h →
              callId call ≤ S (currentSearchId m)
              ∧ (callId call = S (currentSearchId m) →
                 Some (controllers h) = Some (callController call))
              ∧ (callId call < S (currentSearchId m) →
                 callController call
                 ∈ abortedControllers (snd (performSearch query excl saf m h)))).
    { intros call Hcall. destruct (Hcalls call Hcall) as (Hle & Hcur & Hstale).
      split; [lia |]. split; [lia |]. intros _. rewrite Ha.
      destruct (decide (callId call = currentSearchId m)) as [E|E].
      - rewrite (Hcur E). by left.
      - specialize (Hstale ltac:(lia)).
        destruct (abortController m); [by right | assumption]. }
    unfold wellFormed. rewrite Hid, Hc, Hn. split; [| split; [| split]].
    + intros c [= <-]. split; [lia |].
      intros Hin'. specialize (Hab' _ Hin'). lia.
    + intros c Hin'. specialize (Hab' _ Hin'). lia.
    + intros call Hcall. destruct Hin as [E | E]; rewrite E in Hcall;
        [by apply Hold |].
      rewrite elem_of_app in Hcall.
      destruct Hcall as [Hcall | ->%list_elem_of_singleton]; [by apply Hold |].
      simpl. repeat split; [lia | lia].
    + destruct Hin as [-> | ->]; [assumption |].
      apply StronglySorted_app. repeat split; [| assumption | by repeat constructor].
      intros x y Hx ->%list_elem_of_singleton. simpl.
      destruct (Hcalls x Hx) as (? & _). lia.
  - destruct (step_controllers basename asRelativePath a m h Ha)
      as (E1 & E2 & E3 & E4).
    pose proof (step_inflight a m h Ha) as Hsub.
    cbv zeta in *. unfold wellFormed. rewrite E1, E2, E3, E4.
    split; [| split; [| split]].
    + assumption.
    + assumption.
    + intros call Hcall. by apply Hcalls, (elem_of_sublist _ _ _ Hcall Hsub).
    + by eapply StronglySorted_sublist.
Qed.

Lemma wellFormed_run (l : list action) (s : SearchModal * Host) :
  wellFormed s → wellFormed (run basename asRelativePath l s).
Proof.
  intros H. induction l as [|a l IH] using rev_ind; [assumption |].
  rewrite run_snoc. by apply wellFormed_step.
Qed.

(** X4.  In every state the modal reaches from a new one: a search in flight
    has an aborted signal exactly when its request id is not the current
    one; the searches in flight carry strictly growing request ids; and when
    a search with an aborted signal settles, with results or with an error,
    the modal's fields and the messages posted to the webview stay as they
    were. *)
Theorem cancellation_never_delivered
    (ts : TextSearcher) (editor : option Uri) (opts : option SearchOptions)
    (l : list action) :
  let s := run basename asRelativePath l (newSearchModal ts editor opts, newHost) in
  (∀ call, call ∈ inflight (snd s) →
     aborted (signalOf (callController call) (snd s)) = true
     ↔ callId call ≠ currentSearchId (fst s))
  ∧ StronglySorted (λ a b, callId a < callId b) (inflight (snd s))
  ∧ (∀ call reply, call ∈ inflight (snd s) →
       aborted (signalOf (callController call) (snd s)) = true →
       let s' := step basename asRelativePath (SearchSettles (callId call) reply) s in
       fst s' = fst s ∧ postedIn (trace (snd s')) = postedIn (trace (snd s))).
Proof.
  intros s.
  assert (Hwf : wellFormed s) by apply wellFormed_run, wellFormed_new.
  destruct Hwf as (Hlive & Hab & Hcalls & Hsorted).
  assert (Hiff : ∀ call, call ∈ inflight (snd s) →
            aborted (signalOf (callController call) (snd s)) = true
            ↔ callId call ≠ currentSearchId (fst s)).
  { intros call Hcall. destruct (Hcalls call Hcall) as (Hle & Hcur & Hstale).
    unfold signalOf. simpl. rewrite bool_decide_eq_true. split.
    - intros Hin E. destruct (Hlive _ (Hcur E)) as [_ Hnot]. by apply Hnot.
    - intros Hne. apply Hstale. lia. }
  split; [exact Hiff |]. split; [exact Hsorted |].
  intros call reply Hcall Hsig s'. subst s'.
  apply Hiff in Hsig; [| assumption].
  destruct s as [m h].
  destruct (settle_stale basename asRelativePath (callId call) reply m h Hsig)
    as (? & ? & _).
  by split.
Qed.

End Reachable.

(** ** Delivery of the results of a document *)

Lemma performSearch_returned_current
    (basename : string → string) (asRelativePath : Uri → string)
    (call : SearchCall) (results : list SearchResult) (m : SearchModal)
    (h : Host) :
  callId call = currentSearchId m →
  performSearch_returned basename asRelativePath call results m h
  = (setCurrentResults (map (toItem basename asRelativePath) results) m,
     let posted :=
       postMessage
         (SearchResults (map (toItem basename asRelativePath) results)
            (callQuery call) (callId call)) h in
     match map (toItem basename asRelativePath) results with
     | first :: _ =>
         showFilePreview (filePath first) (lineNumber first) (callQuery call)
           posted
     | [] => postMessage ClearPreview posted
     end).
Proof.
  intros Hid. unfold performSearch_returned. rewrite Hid, Nat.eqb_refl.
  by destruct results.
Qed.

(** X5.  When the results of a single-document search are delivered for the
    current request, the modal holds one item per result; each item carries
    a line number between 1 and the line count of the document, the text of
    that line and the path of the document; the webview is sent
    [searchResults] with these items, and [clearPreview] when there are
    none; and the preview is asked for the first result, at its start line
    counted from 1. *)
Theorem delivered_items_reflect_document
    (basename : string → string) (asRelativePath : Uri → string)
    (workspace : Uri → Js.Error + TextDocument)
    (toLowerCase : Js.string → Js.string) (ts : TextSearcher) (u : Uri)
    (query : Js.string) (signal : option AbortSignal) (doc : TextDocument)
    (results : list SearchResult) (call : SearchCall) (m : SearchModal)
    (h : Host) :
  Js.trim query ≠ [] → workspace u = inr doc →
  result (searchInSingleDocument workspace toLowerCase ts u query signal)
  = Return results →
  callId call = currentSearchId m →
  let s' := performSearch_returned basename asRelativePath call results m h in
  length (currentResults (fst s')) = length results
  ∧ Forall (λ item, 1 ≤ lineNumber item ∧ lineNumber item ≤ lineCount doc
                    ∧ lineText item = lineAt doc (lineNumber item - 1)
                    ∧ filePath item = fsPath u)
      (currentResults (fst s'))
  ∧ postedIn (trace (snd s'))
    = postedIn (trace h)
      ++ SearchResults (currentResults (fst s')) (callQuery call) (callId call)
         :: (if currentResults (fst s') is [] then [ClearPreview] else [])
  ∧ previews (snd s')
    = previews h
      ++ match results with
         | r :: _ => [{| previewPath := fsPath u;
                         previewLine := startLine r + 1;
                         previewQuery := callQuery call |}]
         | [] => []
         end.
Proof.
  intros Hq Hw Hr Hid.
  destruct (single_returned _ _ _ _ _ _ _ Hr Hq)
    as (doc' & Hw' & _ & Hn & Hres).
  assert (doc' = doc) as -> by congruence.
  assert (Hall : Forall (λ r, startLine r < lineCount doc
                              ∧ detail r = lineAt doc (startLine r)
                              ∧ uri r = u) results).
  { rewrite Forall_forall. intros r Hin. apply list_elem_of_In in Hin.
    rewrite Hres in Hin.
    destruct (documentMatches_result _ _ _ _ _ _ Hn Hin) as (? & ? & _).
    repeat split; try assumption.
    apply In_documentMatches in Hin as (i & _ & Hin).
    by apply In_lineMatches in Hin as (c & -> & _). }
  rewrite performSearch_returned_current by assumption. cbv zeta.
  cbn [fst snd currentResults setCurrentResults].
  split; [by rewrite length_map |]. split; [| split].
  - clear Hres Hr. induction Hall as [|r l (Hl & Hd & Hu) _ IH]; simpl;
      constructor; [| exact IH].
    unfold startLine in *. simpl. rewrite Hd, Hu.
    repeat split; try lia. f_equal. lia.
  - destruct results as [|r l]; simpl.
    + unfold postedIn. rewrite !omap_app. simpl. by rewrite <- app_assoc.
    + unfold postedIn. rewrite !omap_app. reflexivity.
  - destruct results as [|r l]; simpl; [by rewrite app_nil_r |].
    apply Forall_cons in Hall as [(_ & _ & ->) _]. reflexivity.
Qed.

Lemma delivered_items_reflect_document_witness :
  length (currentResults
            (fst (performSearch_returned (λ s, s) fsPath
                    {| callId := 0; callController := 0; callQuery := (str "ab");
                       callOptions := {| currentFileOnly := Some true;
                                         currentFileUri := Some sampleUri |} |}
                    [matchAt sampleUri (str "ab") 0 (str "xab") 1]
                    (newSearchModal (idleSearcher true) None None) newHost)))
  = 1.
Proof.
  apply (delivered_items_reflect_document (λ s, s) fsPath
           (oneFile sampleUri (str "xab")) Js.toLowerCase (idleSearcher true)
           sampleUri (str "ab") None
           {| getText := str "xab" |} [matchAt sampleUri (str "ab") 0 (str "xab") 1]
           {| callId := 0; callController := 0; callQuery := (str "ab");
              callOptions := {| currentFileOnly := Some true;
                                currentFileUri := Some sampleUri |} |}
           (newSearchModal (idleSearcher true) None None) newHost
           ltac:(by vm_compute) eq_refl eq_refl eq_refl).
Defined.

(** ** The initial query and the scope of a revealed modal *)

(** X6.  [getInitialQuery] returns a trimmed text: the empty text when
    there is neither an initial nor an active editor; the trimmed selection
    when the selection is not empty and not blank; and otherwise the trimmed
    word at the cursor, or the empty text where there is no word. *)
Theorem initial_query_is_trimmed (editor active : option TextEditor) :
  Js.trim (getInitialQuery editor active) = getInitialQuery editor active
  ∧ (nullish editor active = None → getInitialQuery editor active = [])
  ∧ (∀ e, nullish editor active = Some e →
       (selectionIsEmpty e = false → Js.trim (selectedText e) ≠ [] →
        getInitialQuery editor active = Js.trim (selectedText e))
       ∧ (selectionIsEmpty e = true ∨ Js.trim (selectedText e) = [] →
          getInitialQuery editor active
          = match wordAtCursor e with
            | Some w => Js.trim w
            | None => []
            end)).
Proof.
  assert (Hword : ∀ w, (if Js.isEmpty (Js.trim w) then [] else Js.trim w)
                       = Js.trim w).
  { intros w. destruct (Js.trim w); reflexivity. }
  unfold getInitialQuery. destruct (nullish editor active) as [e|];
    [| by repeat split].
  split; [| split; [discriminate |]].
  - destruct (selectionIsEmpty e); simpl;
      [| destruct (Js.isEmpty (Js.trim (selectedText e))) eqn:E;
         [| apply trim_idempotent]];
      (destruct (wordAtCursor e) as [w|]; [| reflexivity]);
      rewrite Hword; apply trim_idempotent.
  - intros e' [= <-]. split.
    + intros -> Hq. simpl. by rewrite (proj2 (isEmpty_false _) Hq).
    + intros [-> | Hq]; simpl.
      * destruct (wordAtCursor e); [apply Hword | reflexivity].
      * rewrite Hq. simpl.
        destruct (selectionIsEmpty e); simpl;
          (destruct (wordAtCursor e); [apply Hword | reflexivity]).
Qed.

Lemma initial_query_is_trimmed_witness :
  getInitialQuery
    (Some {| editorUri := sampleUri; selectionIsEmpty := false;
             selectedText := (str "  "); wordAtCursor := Some (str " foo") |}) None
  = (str "foo").
Proof.
  apply (proj2 (proj2 (proj2 (initial_query_is_trimmed
           (Some {| editorUri := sampleUri; selectionIsEmpty := false;
                    selectedText := (str "  "); wordAtCursor := Some (str " foo") |}) None))
           _ eq_refl)).
  by right.
Defined.

Section Reveal.

Variable basename : string → string.
Variable asRelativePath : Uri → string.

Lemma step_options (a : action) (s : SearchModal * Host) :
  options (fst (step basename asRelativePath a s)) = options (fst s)
  ∧ initialEditor (fst (step basename asRelativePath a s)) = initialEditor (fst s).
Proof.
  destruct s as [m h].
  destruct a as [query excl saf|sid reply|path lineNo query|n reply|query| |pats en].
  1: { simpl step. unfold performSearch.
       destruct (abortController m); destruct (length query <? 2);
         by split. }
  all: open_step; split_step; by split.
Qed.

Lemma invoke_current_file (c : command) (cur : option SearchModal)
    (ts : TextSearcher) (active : option TextEditor) :
  c = SearchInCurrentFile
  ∨ (∃ m, cur = Some m ∧ truthy (options m ≫= currentFileOnly) = true) →
  truthy (options (fst (invoke c cur ts active)) ≫= currentFileOnly) = true.
Proof.
  intros [-> | (m & -> & Hm)].
  - destruct cur as [m|]; destruct active as [e|]; reflexivity.
  - destruct c; [| destruct active as [e|]; reflexivity].
    unfold invoke, createOrShow. simpl. exact Hm.
Qed.

(** X7.  While its panel stays open, a modal that the command
    [easySearch.searchInCurrentFile] has been run on stays in current-file
    mode: after any further commands and actions its options still have
    [currentFileOnly] set, and every later command,
    [easySearch.searchInFiles] too, reveals it with [searchAllFiles: false]
    and the initial query of the active editor. *)
Theorem current_file_scope_is_kept (ts : TextSearcher)
    (before after : list extensionEvent) (active : option TextEditor) :
  ∃ s, extensionRun basename asRelativePath ts
         (before ++ Command SearchInCurrentFile active :: after) None = Some s
       ∧ truthy (options (fst s) ≫= currentFileOnly) = true
       ∧ ∀ c active' msgs m',
           invoke c (Some (fst s)) ts active' = (m', msgs) →
           msgs = [SetInitialQuery
                     (getInitialQuery active' active') false; FocusSearch].
Proof.
  unfold extensionRun. rewrite fold_left_app. cbn [fold_left].
  set (s0 := fold_left _ before None).
  assert (H1 : ∃ s1, extensionStep basename asRelativePath ts s0
                       (Command SearchInCurrentFile active) = Some s1
                     ∧ truthy (options (fst s1) ≫= currentFileOnly) = true).
  { destruct s0 as [[m h]|]; simpl; eexists; (split; [reflexivity |]); simpl.
    - apply (invoke_current_file SearchInCurrentFile (Some m) ts active). by left.
    - apply (invoke_current_file SearchInCurrentFile None ts active). by left. }
  destruct H1 as (s1 & -> & H1). clear s0.
  revert s1 H1. induction after as [|e after IH]; intros s1 H1; cbn [fold_left].
  - exists s1. split; [reflexivity |]. split; [assumption |].
    intros c active' msgs m' Hinv.
    pose proof (invoke_current_file c (Some (fst s1)) ts active'
                  (or_intror (ex_intro _ _ (conj eq_refl H1)))) as Hc.
    rewrite Hinv in Hc. simpl in Hc.
    unfold invoke, createOrShow in Hinv. injection Hinv as <- <-.
    unfold invoke, createOrShow in Hc. simpl in Hc.
    by rewrite Hc.
  - destruct s1 as [m h]. destruct e as [c active'|a]; cbn [extensionStep]; apply IH.
    + simpl. apply (invoke_current_file c (Some m) ts active'). right. by exists m.
    + destruct (step_options a (m, h)) as [-> _]. exact H1.
Qed.

End Reveal.

(** X8.  A search of two code units or more with the scope box unchecked,
    on a revealed modal: after [easySearch.searchInCurrentFile] with an
    active editor the provider is asked for that editor's document; after
    [easySearch.searchInFiles] it is asked for the uri that the modal's
    options hold already, and for the active editor's document only when
    they hold none. *)
Theorem current_file_search_target (modal : SearchModal) (ts : TextSearcher)
    (active : option TextEditor) (query : Js.string) (excl : list Js.string)
    (h : Host) :
  2 ≤ length query →
  (∀ e, active = Some e →
     ∃ call,
       inflight (snd (performSearch query excl (Some false)
                        (fst (invoke SearchInCurrentFile (Some modal) ts active)) h))
       = inflight h ++ [call]
       ∧ callOptions call
         = {| currentFileOnly := Some true;
              currentFileUri := Some (editorUri e) |})
  ∧ (∃ call,
       inflight (snd (performSearch query excl (Some false)
                        (fst (invoke SearchInFiles (Some modal) ts active)) h))
       = inflight h ++ [call]
       ∧ callOptions call
         = {| currentFileOnly := Some true;
              currentFileUri :=
                nullish (options modal ≫= currentFileUri)
                  (editorUri <$> active) |}).
Proof.
  intros Hlen. split.
  - intros e ->.
    destruct (performSearch_long query excl (Some false)
                (fst (invoke SearchInCurrentFile (Some modal) ts (Some e))) h Hlen)
      as (_ & Hin & _).
    eexists. split; [exact Hin | reflexivity].
  - destruct (performSearch_long query excl (Some false)
                (fst (invoke SearchInFiles (Some modal) ts active)) h Hlen)
      as (_ & Hin & _).
    eexists. split; [exact Hin | reflexivity].
Qed.

Lemma current_file_search_target_witness :
  ∃ call,
    inflight (snd (performSearch (str "ab") [] (Some false)
                     (fst (invoke SearchInFiles
                             (Some (fst (invoke SearchInCurrentFile None
                                           (idleSearcher true)
                                           (Some {| editorUri := sampleUri;
                                                    selectionIsEmpty := true;
                                                    selectedText := [];
                                                    wordAtCursor := None |}))))
                             (idleSearcher true)
                             (Some {| editorUri := {| fsPath := "/w/b.txt" |};
                                      selectionIsEmpty := true;
                                      selectedText := [];
                                      wordAtCursor := None |})))
                     newHost))
    = [] ++ [call]
    ∧ callOptions call
      = {| currentFileOnly := Some true; currentFileUri := Some sampleUri |}.
Proof.
  apply (proj2 (current_file_search_target
                  (fst (invoke SearchInCurrentFile None (idleSearcher true)
                          (Some {| editorUri := sampleUri;
                                   selectionIsEmpty := true;
                                   selectedText := [];
                                   wordAtCursor := None |})))
                  (idleSearcher true)
                  (Some {| editorUri := {| fsPath := "/w/b.txt" |};
                           selectionIsEmpty := true;
                           selectedText := [];
                           wordAtCursor := None |})
                  (str "ab") [] newHost ltac:(vm_compute; lia))).
Defined.

Ltac webview_open :=
  unfold Webview.step, Webview.onMessage, Webview.navigateResults,
    Webview.selectResult, Webview.openCurrentFile, Webview.openResult,
    Webview.selectFile, Webview.onInput, Webview.inputTimerFired,
    Webview.performNewSearch, Webview.postSearch,
    Webview.commitHistoryIfNeeded, Webview.scheduleCommitHistory,
    Webview.saveExcludePatterns, Webview.setQueryInInput,
    Webview.updateResultsCount, Webview.post.

Ltac webview_split :=
  repeat match goal with
         | |- context [match ?x with _ => _ end] => destruct x eqn:?
         | |- context [if ?x then _ else _] => destruct x eqn:?
         end.

Ltac searches_norm :=
  unfold Webview.searches; cbn -[omap]; rewrite ?omap_app; cbn;
  rewrite ?app_nil_r.

(** One event posts at most one search request. *)
Lemma webview_step_searches (e : Webview.Event) (s : Webview.State) :
  (Webview.searches (Webview.sent (Webview.step e s))
   = Webview.searches (Webview.sent s)
   ∧ Webview.currentSearchId (Webview.step e s) = Webview.currentSearchId s)
  ∨ (∃ q, Webview.searches (Webview.sent (Webview.step e s))
          = Webview.searches (Webview.sent s)
            ++ [(q, S (Webview.currentSearchId s))]
          ∧ 2 ≤ length q
          ∧ Webview.searchInitialized s = true
          ∧ Webview.isSearching (Webview.step e s) = true
          ∧ Webview.currentSearchId (Webview.step e s)
            = S (Webview.currentSearchId s)
          ∧ (Webview.isSearching s = false
             ∨ ∃ cs, e = Webview.Receive
                           (Webview.FromSearch (CaseSensitiveChanged cs)))).
Proof.
  destruct e; webview_open; webview_split; searches_norm;
    try (left; split; reflexivity).
  all: right; eexists; split; [reflexivity |].
  all: repeat match goal with
              | H : _ && _ = true |- _ => apply andb_true_iff in H as [? ?]
              | H : negb _ = true |- _ => apply negb_true_iff in H
              | H : (_ <=? _) = true |- _ => apply Nat.leb_le in H
              end.
  all: cbn in *; repeat split; try assumption; try (by left); try congruence.
  all: try (right; by eexists).
Qed.

Lemma webview_run_snoc (l : list Webview.Event) (e : Webview.Event)
    (s : Webview.State) :
  Webview.run (l ++ [e]) s = Webview.step e (Webview.run l s).
Proof. unfold Webview.run. by rewrite fold_left_app. Qed.

Lemma webview_step_in_flight (e : Webview.Event) (s : Webview.State) :
  Webview.isSearching s = true → answered e s = false →
  Webview.isSearching (Webview.step e s) = true.
Proof.
  intros Hs Ha. destruct e; try exact Hs; simpl in Ha;
    webview_open; webview_split; cbn in *; congruence.
Qed.

(** The handler of [caseSensitiveChanged] posts a search for the last
    query, whether or not the page waits for one. *)
Lemma caseSensitiveChanged_searches (cs : bool) (s : Webview.State) :
  Webview.searches
    (Webview.sent
       (Webview.step
          (Webview.Receive (Webview.FromSearch (CaseSensitiveChanged cs))) s))
  = Webview.searches (Webview.sent s)
    ++ (if (2 <=? length (Webview.lastQuery s)) && Webview.searchInitialized s
        then [(Webview.lastQuery s, S (Webview.currentSearchId s))]
        else []).
Proof.
  webview_open. cbn. webview_split; searches_norm; reflexivity.
Qed.

(** X9.  While the page waits for a search ([isSearching]): a result set
    that arrives while the box holds less than two code units is dropped
    whole, so it does not end the wait; only a result set or an error that
    the page takes ends the wait; an event posts another search only when it
    is a [caseSensitiveChanged] message, the last query has two code units
    or more and the search is initialised, and such a message does post a
    search for the last query, which is the text of the box as last typed,
    under the next request id; so nothing the user or a timer does in the
    page itself, in any number of steps, ends the wait or posts a search. *)
Theorem search_in_flight_blocks_the_page
    (l : list Webview.Event) (s : Webview.State) :
  Webview.isSearching s = true →
  (∀ results query searchId,
     length (Webview.lastQuery s) < 2 →
     Webview.step
       (Webview.Receive (Webview.FromSearch (SearchResults results query searchId)))
       s = s)
  ∧ (∀ e,
       (Webview.isSearching (Webview.step e s) = false → answered e s = true)
       ∧ (Webview.searches (Webview.sent (Webview.step e s))
          = Webview.searches (Webview.sent s)
          ∨ ∃ cs,
              e = Webview.Receive (Webview.FromSearch (CaseSensitiveChanged cs))
              ∧ 2 ≤ length (Webview.lastQuery s)
              ∧ Webview.searchInitialized s = true))
  ∧ (∀ cs,
       2 ≤ length (Webview.lastQuery s) → Webview.searchInitialized s = true →
       Webview.searches
         (Webview.sent
            (Webview.step
               (Webview.Receive (Webview.FromSearch (CaseSensitiveChanged cs)))
               s))
       = Webview.searches (Webview.sent s)
         ++ [(Webview.lastQuery s, S (Webview.currentSearchId s))])
  ∧ (Forall (λ e, inPage e = true) l →
     Webview.isSearching (Webview.run l s) = true
     ∧ Webview.searches (Webview.sent (Webview.run l s))
       = Webview.searches (Webview.sent s)).
Proof.
  intros Hs. split; [| split; [| split]].
  - intros results query searchId Hlen. simpl. unfold Webview.taken.
    apply Nat.leb_gt in Hlen. by rewrite Hlen, andb_false_r.
  - intros e. split.
    + intros Hend. destruct (answered e s) eqn:Ha; [reflexivity |].
      rewrite (webview_step_in_flight e s Hs Ha) in Hend. discriminate.
    + destruct (webview_step_searches e s)
        as [[E _] | (q & E & Hq & Hi & _ & _ & [Hno | [cs ->]])].
      * by left.
      * congruence.
      * right. exists cs. split; [reflexivity |]. split; [| exact Hi].
        rewrite caseSensitiveChanged_searches in E.
        destruct ((2 <=? length (Webview.lastQuery s))
                  && Webview.searchInitialized s) eqn:Eb.
        -- apply andb_true_iff in Eb as [Hl _]. by apply Nat.leb_le.
        -- rewrite app_nil_r in E.
           apply (f_equal length) in E. rewrite length_app in E.
           simpl in E. lia.
  - intros cs Hlen Hi. rewrite caseSensitiveChanged_searches.
    apply Nat.leb_le in Hlen. by rewrite Hlen, Hi.
  - induction l as [|e l IH] using rev_ind; [by split |].
    intros [Hl He]%Forall_app. apply Forall_cons in He as [He _].
    destruct (IH Hl) as [IH1 IH2]. rewrite webview_run_snoc.
    split.
    + apply webview_step_in_flight; [assumption | by destruct e].
    + destruct (webview_step_searches e (Webview.run l s))
        as [[E _] | (q & _ & _ & _ & _ & _ & [E | [cs ->]])].
      * by rewrite E.
      * congruence.
      * discriminate.
Qed.

Lemma search_in_flight_blocks_the_page_witness :
  Webview.searches
    (Webview.sent
       (Webview.run
          [Webview.Input (str "abc"); Webview.SearchTimerFires;
           Webview.ExcludeToggleClicked]
          (Webview.run
             [Webview.Receive (Webview.FromPanel (SearchInitialized false));
              Webview.Input (str "ab"); Webview.SearchTimerFires; Webview.Input (str "a");
              Webview.Receive (Webview.FromSearch (SearchResults [] (str "ab") 1))]
             Webview.initial)))
  = [(str "ab", 1)].
Proof.
  apply (proj2 (proj2 (proj2 (search_in_flight_blocks_the_page
                  [Webview.Input (str "abc"); Webview.SearchTimerFires;
                   Webview.ExcludeToggleClicked]
                  (Webview.run
                     [Webview.Receive (Webview.FromPanel (SearchInitialized false));
                      Webview.Input (str "ab"); Webview.SearchTimerFires;
                      Webview.Input (str "a");
                      Webview.Receive
                        (Webview.FromSearch (SearchResults [] (str "ab") 1))]
                     Webview.initial) eq_refl)))).
  by repeat constructor.
Defined.

(** X10.  [navigateResults] does nothing when there are no results.  With
    results it moves the selection by [direction], clamped to the first and
    the last result, leaves the results as they are, and the last message it
    posts asks for the preview of the result selected then, with the text of
    the search box as the query. *)
Theorem navigation_stays_in_bounds (direction : Z) (s : Webview.State) :
  (Webview.currentResults s = [] → Webview.navigateResults direction s = s)
  ∧ (Webview.currentResults s ≠ [] →
     let s' := Webview.navigateResults direction s in
     Webview.currentResults s' = Webview.currentResults s
     ∧ (0 ≤ Webview.selectedIndex s'
        < Z.of_nat (length (Webview.currentResults s)))%Z
     ∧ Webview.selectedIndex s'
       = Z.max 0 (Z.min (Z.of_nat (length (Webview.currentResults s)) - 1)
                    (Webview.selectedIndex s + direction))
     ∧ ∃ r, Webview.currentResults s !! Z.to_nat (Webview.selectedIndex s')
            = Some r
            ∧ last (Webview.sent s')
              = Some (Webview.PostSelectFile (filePath r) (lineNumber r)
                        (Webview.searchInputValue s))).
Proof.
  split.
  - intros E. unfold Webview.navigateResults. by rewrite E.
  - intros Hne s'.
    assert (Hlen : 0 < length (Webview.currentResults s))
      by (destruct (Webview.currentResults s); [congruence | simpl; lia]).
    set (i := Z.max 0 (Z.min (Z.of_nat (length (Webview.currentResults s)) - 1)
                         (Webview.selectedIndex s + direction))).
    assert (Hi : (0 ≤ i < Z.of_nat (length (Webview.currentResults s)))%Z)
      by (subst i; lia).
    destruct (lookup_lt_is_Some_2 (Webview.currentResults s) (Z.to_nat i)
                ltac:(lia)) as [r Hr].
    assert (Hat : Webview.at_ (Webview.currentResults s) i = Some r).
    { unfold Webview.at_. destruct (Z.ltb_spec i 0); [lia | exact Hr]. }
    subst s'. unfold Webview.navigateResults.
    rewrite (proj2 (Nat.eqb_neq _ _)) by lia.
    cbn [Webview.currentResults Webview.selectedIndex Webview.set_selectedIndex].
    fold i. rewrite Hat. unfold Webview.selectFile, Webview.commitHistoryIfNeeded.
    webview_split; cbn; repeat split; try lia; exists r;
      (split; [exact Hr |]); unfold Webview.post; cbn; by rewrite last_snoc.
Qed.

Lemma navigation_stays_in_bounds_witness :
  let item n := {| filePath := "/w/a.txt"; fileName := "a.txt";
                   relativePath := "a.txt"; lineNumber := n;
                   lineText := (str "needle");
                   itemRange := {| start := {| line := n - 1; character := 0 |};
                                   end_ := {| line := n - 1; character := 6 |} |} |} in
  let s := Webview.run
             [Webview.Receive (Webview.FromPanel (SearchInitialized false));
              Webview.Input (str "needle"); Webview.SearchTimerFires;
              Webview.Receive
                (Webview.FromSearch (SearchResults [item 1; item 4] (str "needle") 1))]
             Webview.initial in
  Webview.selectedIndex (Webview.navigateResults 5 s) = 1%Z
  ∧ Webview.selectedIndex (Webview.navigateResults (-1) s) = 0%Z.
Proof.
  cbv zeta. split.
  - refine (proj1 (proj2 (proj2 (proj2 (navigation_stays_in_bounds 5 _) _)))).
    discriminate.
  - refine (proj1 (proj2 (proj2 (proj2 (navigation_stays_in_bounds (-1) _) _)))).
    discriminate.
Defined.

(** ** The webview and the modal together *)

Lemma webview_run_searches (l : list Webview.Event) :
  map snd (Webview.searches (Webview.sent (Webview.run l Webview.initial)))
  = seq 1 (Webview.currentSearchId (Webview.run l Webview.initial))
  ∧ Forall (λ p, 2 ≤ length (fst p))
      (Webview.searches (Webview.sent (Webview.run l Webview.initial))).
Proof.
  induction l as [|e l [IH1 IH2]] using rev_ind; [by split |].
  rewrite webview_run_snoc.
  destruct (webview_step_searches e (Webview.run l Webview.initial))
    as [[E1 E2] | (q & E1 & Hq & _ & _ & E2 & _)]; rewrite E1, E2.
  - by split.
  - split.
    + rewrite map_app, IH1, seq_S. reflexivity.
    + apply Forall_app. split; [assumption | by repeat constructor].
Qed.

Ltac commits_norm :=
  unfold Webview.commits; cbn -[omap]; rewrite ?omap_app; cbn;
  rewrite ?app_nil_r.

(** One event commits at most one query, which is trimmed, two code units
    long or more, and not the one committed last. *)
Lemma webview_step_commits (e : Webview.Event) (s : Webview.State) :
  (Webview.commits (Webview.sent (Webview.step e s))
   = Webview.commits (Webview.sent s)
   ∧ Webview.lastCommittedQuery (Webview.step e s)
     = Webview.lastCommittedQuery s)
  ∨ (∃ q, Webview.commits (Webview.sent (Webview.step e s))
          = Webview.commits (Webview.sent s) ++ [q]
          ∧ Webview.lastCommittedQuery (Webview.step e s) = q
          ∧ q ≠ Webview.lastCommittedQuery s
          ∧ Js.trim q = q
          ∧ 2 ≤ length q
          ∧ 0 < Webview.currentResultsCount s).
Proof.
  destruct e; webview_open; webview_split; commits_norm;
    try (left; split; reflexivity).
  all: right; eexists; split; [reflexivity |].
  all: repeat match goal with
              | H : (_ <? _) = false |- _ => apply Nat.ltb_ge in H
              | H : (_ <=? _) = false |- _ => apply Nat.leb_gt in H
              | H : Js.eqb _ _ = false |- _ =>
                  unfold Js.eqb in H; apply bool_decide_eq_false in H
              end.
  all: cbn in *; repeat split; try assumption; try apply trim_idempotent;
    try congruence.
Qed.

Lemma webview_run_commits (l : list Webview.Event) :
  let w := Webview.run l Webview.initial in
  Forall (λ q, Js.trim q = q ∧ 2 ≤ length q)
    (Webview.commits (Webview.sent w))
  ∧ (∀ a q q' b, Webview.commits (Webview.sent w) = a ++ q :: q' :: b →
       q ≠ q')
  ∧ (∀ q, last (Webview.commits (Webview.sent w)) = Some q →
       q = Webview.lastCommittedQuery w).
Proof.
  induction l as [|e l (IH1 & IH2 & IH3)] using rev_ind.
  - simpl. split; [constructor |]. split; [| discriminate].
    intros a q q' b H. by destruct a as [|? [|? ?]].
  - cbv zeta in *. rewrite webview_run_snoc.
    destruct (webview_step_commits e (Webview.run l Webview.initial))
      as [[E1 E2] | (q0 & E1 & E2 & Hne & Htrim & Hlen & _)]; rewrite E1, E2.
    + by repeat split.
    + split; [| split].
      * apply Forall_app. split; [assumption | by repeat constructor].
      * intros a q q' b H.
        destruct b as [|y b _] using rev_ind.
        -- change (a ++ q :: [q']) with (a ++ [q] ++ [q']) in H.
           rewrite !app_assoc in H. apply app_inj_tail in H as [H ->].
           intros ->. apply Hne, IH3. rewrite H. apply last_snoc.
        -- change (a ++ q :: q' :: b ++ [y])
             with (a ++ (q :: q' :: b) ++ [y]) in H.
           rewrite app_assoc in H. apply app_inj_tail in H as [H _].
           by apply (IH2 a q q' b).
      * intros q. rewrite last_snoc. by intros [= ->].
Qed.

Lemma searches_app (a b : list Webview.Outgoing) :
  Webview.searches (a ++ b) = Webview.searches a ++ Webview.searches b.
Proof. apply omap_app. Qed.

Section Together.

Variable basename : string → string.
Variable asRelativePath : Uri → string.

Lemma step_calls (a : action) (s : SearchModal * Host) :
  (∀ query excl saf, a ≠ DoSearch query excl saf) →
  searchCallsIn (trace (snd (step basename asRelativePath a s)))
  = searchCallsIn (trace (snd s)).
Proof.
  intros Ha. destruct s as [m h].
  destruct a as [query excl saf|sid reply|path lineNo query|n reply|query| |pats en];
    [by destruct (Ha query excl saf) | ..];
    open_step; split_step; unfold searchCallsIn; cbn -[omap];
    rewrite ?omap_app; cbn; by rewrite ?app_nil_r.
Qed.

Lemma modal_follows_webview (out : list Webview.Outgoing) (m : SearchModal)
    (h : Host) :
  Forall (λ p, 2 ≤ length (fst p)) (Webview.searches out) →
  map snd (Webview.searches out)
  = seq (S (currentSearchId m)) (length (Webview.searches out)) →
  let s := run basename asRelativePath (omap dispatch out) (m, h) in
  map queryAndId (searchCallsIn (trace (snd s)))
  = map queryAndId (searchCallsIn (trace h)) ++ Webview.searches out
  ∧ currentSearchId (fst s) = currentSearchId m + length (Webview.searches out).
Proof.
  induction out as [|x out IH] using rev_ind; intros Hlen Hids.
  - simpl. split; [by rewrite app_nil_r | lia].
  - rewrite searches_app in Hlen, Hids. rewrite searches_app, omap_app.
    assert (Hx : (∃ q i saf excl, x = Webview.PostSearch q i saf excl)
                 ∨ ∀ q i saf excl, x ≠ Webview.PostSearch q i saf excl)
      by (destruct x; (left; by eauto) || (right; discriminate)).
    destruct Hx as [(q & i & saf & excl & ->) | Hx].
    + simpl in Hlen, Hids |- *.
      apply Forall_app in Hlen as [Hlen Hq].
      apply Forall_cons in Hq as [Hq _]. simpl in Hq.
      rewrite map_app, length_app, seq_app in Hids. simpl in Hids.
      apply app_inj_1 in Hids as [Hids Hi];
        [| by rewrite length_map, length_seq].
      injection Hi as ->.
      destruct (IH Hlen Hids) as [IH1 IH2]. clear IH.
      rewrite run_snoc.
      destruct (run basename asRelativePath (omap dispatch out) (m, h))
        as [m' h'] eqn:E.
      simpl in IH1, IH2. simpl step.
      destruct (performSearch_long q excl (Some saf) m' h' Hq) as (_ & _ & Ht).
      destruct (performSearch_modal q excl (Some saf) m' h') as (Hid & _).
      cbv zeta in *. rewrite Ht, Hid. split; [| rewrite length_app; simpl; lia].
      unfold searchCallsIn. rewrite !omap_app.
      fold (searchCallsIn (trace h')). rewrite !map_app, IH1.
      unfold superseding. destruct (abortController m'); simpl;
        rewrite <- app_assoc; repeat f_equal; unfold queryAndId; simpl;
        f_equal; lia.
    + assert (Hs : Webview.searches [x] = [])
        by (destruct x; try reflexivity; exfalso; eapply Hx; reflexivity).
      rewrite Hs, app_nil_r in Hlen, Hids |- *.
      destruct (IH Hlen Hids) as [IH1 IH2]. clear IH.
      simpl (omap dispatch [x]).
      destruct (dispatch x) as [a|] eqn:Ed; [| rewrite app_nil_r; by split].
      rewrite run_snoc.
      assert (Ha : ∀ query excl saf, a ≠ DoSearch query excl saf).
      { intros query excl saf ->.
        destruct x; first [discriminate | by eapply Hx]. }
      cbv zeta. rewrite step_calls by assumption.
      destruct (run basename asRelativePath (omap dispatch out) (m, h))
        as [m' h'] eqn:E.
      destruct (step_controllers basename asRelativePath a m' h' Ha) as (-> & _).
      by split.
Qed.

(** X11.  Within one load of the page, whatever happens in it, the searches
    it posts are numbered 1, 2, 3, ... without a gap and have queries of two
    code units or more; and a new modal that handles these messages in the
    order posted calls the provider once per posted search, with the same
    query under the same number: the [currentSearchId] of the page and that
    of the modal agree. *)
Theorem posted_searches_reach_the_provider
    (l : list Webview.Event) (ts : TextSearcher) (editor : option Uri)
    (opts : option SearchOptions) :
  let w := Webview.run l Webview.initial in
  let s := run basename asRelativePath (omap dispatch (Webview.sent w))
             (newSearchModal ts editor opts, newHost) in
  map snd (Webview.searches (Webview.sent w))
  = seq 1 (Webview.currentSearchId w)
  ∧ Forall (λ p, 2 ≤ length (fst p)) (Webview.searches (Webview.sent w))
  ∧ currentSearchId (fst s) = Webview.currentSearchId w
  ∧ map queryAndId (searchCallsIn (trace (snd s)))
    = Webview.searches (Webview.sent w).
Proof.
  intros w s. destruct (webview_run_searches l) as [Hids Hlen].
  fold w in Hids, Hlen.
  assert (Hn : length (Webview.searches (Webview.sent w))
               = Webview.currentSearchId w).
  { rewrite <- (length_map snd), Hids. apply length_seq. }
  destruct (modal_follows_webview (Webview.sent w)
              (newSearchModal ts editor opts) newHost Hlen) as [H1 H2].
  { simpl. by rewrite Hn. }
  fold s in H1, H2. repeat split; try assumption.
  simpl in H2. lia.
Qed.

Lemma committed_dispatch (out : list Webview.Outgoing) :
  committed (omap dispatch out) = Webview.commits out.
Proof.
  induction out as [|x out IH]; [reflexivity |].
  change (x :: out) with ([x] ++ out).
  unfold committed, Webview.commits in *.
  rewrite !omap_app, IH. f_equal. by destruct x.
Qed.

Lemma accepted_trimmed (l : list Js.string) :
  Forall (λ q, Js.trim q = q ∧ 2 ≤ length q) l → accepted l = l.
Proof.
  unfold accepted. induction 1 as [|q l [Hq Hn] _ IH]; [reflexivity |].
  change (map Js.trim (q :: l)) with (Js.trim q :: map Js.trim l).
  rewrite Hq, filter_cons_True.
  - f_equal. exact IH.
  - intros ->. simpl in Hn. lia.
Qed.

(** X12.  Within one load of the page, every query it commits to the history
    is trimmed and two code units long or more, and no query is committed
    twice in a row.  So a new modal with an empty store that handles these
    messages ends with the committed queries as its stored history: most
    recent first, each once, cut to [MAX_HISTORY]. *)
Theorem committed_queries_reach_the_history
    (l : list Webview.Event) (ts : TextSearcher) (editor : option Uri)
    (opts : option SearchOptions) :
  let w := Webview.run l Webview.initial in
  let s := run basename asRelativePath (omap dispatch (Webview.sent w))
             (newSearchModal ts editor opts, newHost) in
  Forall (λ q, Js.trim q = q ∧ 2 ≤ length q)
    (Webview.commits (Webview.sent w))
  ∧ (∀ a q q' b, Webview.commits (Webview.sent w) = a ++ q :: q' :: b →
       q ≠ q')
  ∧ loadHistory (snd s) = recentFirst (Webview.commits (Webview.sent w)).
Proof.
  intros w s.
  destruct (webview_run_commits l) as (Hall & Hadj & _). fold w in Hall, Hadj.
  split; [assumption |]. split; [assumption |].
  subst s. rewrite run_history, committed_dispatch.
  by rewrite accepted_trimmed.
Qed.

End Together.

(** ** The exclude box *)

Lemma splitComma_nonempty (s : Js.string) : Webview.splitComma s ≠ [].
Proof.
  induction s as [|c t IH]; simpl; [discriminate |].
  destruct (c =? 44)%N; [discriminate |].
  by destruct (Webview.splitComma t).
Qed.

Lemma splitComma_no_comma (s : Js.string) :
  Forall (λ p, contains 44 p = false) (Webview.splitComma s).
Proof.
  induction s as [|c t IH]; simpl; [by repeat constructor |].
  destruct (c =? 44)%N eqn:E; [by constructor |].
  destruct (Webview.splitComma t) as [|p ps] eqn:Es;
    [by apply splitComma_nonempty in Es |].
  apply Forall_cons in IH as [Hp Hps].
  constructor; [| assumption]. simpl. by rewrite E.
Qed.

(** A code unit that the text has not is in none of its parts. *)
Lemma splitComma_without (d : N) (s : Js.string) :
  contains d s = false →
  Forall (λ p, contains d p = false) (Webview.splitComma s).
Proof.
  induction s as [|c t IH]; simpl; [by repeat constructor |].
  intros H. apply orb_false_iff in H as [Hc Ht]. specialize (IH Ht).
  destruct (c =? 44)%N; [by constructor |].
  destruct (Webview.splitComma t) as [|p ps] eqn:Es;
    [by apply splitComma_nonempty in Es |].
  apply Forall_cons in IH as [Hp Hps].
  constructor; [| assumption]. simpl. by rewrite Hc.
Qed.

Lemma splitComma_plain (p : Js.string) :
  contains 44 p = false → Webview.splitComma p = [p].
Proof.
  induction p as [|c t IH]; simpl; [reflexivity |].
  destruct (c =? 44)%N; [discriminate |]. simpl.
  intros H. by rewrite IH.
Qed.

Lemma splitComma_app (p rest : Js.string) :
  contains 44 p = false →
  Webview.splitComma (p ++ 44%N :: rest) = p :: Webview.splitComma rest.
Proof.
  induction p as [|c t IH]; simpl; [reflexivity |].
  destruct (c =? 44)%N; [discriminate |]. simpl.
  intros H. by rewrite IH.
Qed.

Lemma contains_trimStart (c : N) (s : Js.string) :
  contains c s = false → contains c (Js.trimStart s) = false.
Proof.
  induction s as [|d t IH]; simpl; [done |].
  intros H. apply orb_false_iff in H as [Hd Ht].
  destruct (Js.isWhiteSpace d); [by apply IH |].
  simpl. by rewrite Hd, Ht.
Qed.

Lemma contains_trimEnd (c : N) (s : Js.string) :
  contains c s = false → contains c (Js.trimEnd s) = false.
Proof.
  induction s as [|d t IH]; [done |].
  intros H. simpl in H. apply orb_false_iff in H as [Hd Ht].
  specialize (IH Ht). rewrite trimEnd_cons.
  destruct (Js.trimEnd t) as [|d' t'].
  - destruct (Js.isWhiteSpace d); [reflexivity |]. simpl. by rewrite Hd.
  - change (contains c (d :: d' :: t')) with ((d =? c)%N || contains c (d' :: t')).
    by rewrite Hd, IH.
Qed.

Lemma contains_trim (c : N) (s : Js.string) :
  contains c s = false → contains c (Js.trim s) = false.
Proof. intros H. unfold Js.trim. by apply contains_trimEnd, contains_trimStart. Qed.

(** The value of an [input] has neither LF nor CR, and a text without them
    is its own value. *)
Lemma inputValue_cons (c : N) (raw : Js.string) :
  Webview.inputValue (c :: raw)
  = if (c =? LF)%N || (c =? CR)%N then Webview.inputValue raw
    else c :: Webview.inputValue raw.
Proof.
  unfold Webview.inputValue, Js.string. rewrite filter_cons.
  destruct (N.eqb_spec c LF) as [H1|H1]; destruct (N.eqb_spec c CR) as [H2|H2];
    simpl; case_decide as H; try reflexivity;
    exfalso; first [ by destruct H | apply H; by split ].
Qed.

Lemma inputValue_without (raw : Js.string) :
  contains LF (Webview.inputValue raw) = false
  ∧ contains CR (Webview.inputValue raw) = false.
Proof.
  induction raw as [|c t [IH1 IH2]]; [by split |].
  rewrite inputValue_cons.
  destruct (c =? LF)%N eqn:E1; [by split |].
  destruct (c =? CR)%N eqn:E2; [by split |].
  simpl. by rewrite E1, E2.
Qed.

Lemma inputValue_same (s : Js.string) :
  contains LF s = false → contains CR s = false → Webview.inputValue s = s.
Proof.
  induction s as [|c t IH]; [reflexivity |]. simpl.
  intros [H1 Ht1]%orb_false_iff [H2 Ht2]%orb_false_iff.
  rewrite inputValue_cons, H1, H2. simpl. by rewrite IH.
Qed.

Lemma joinPatterns_cons (p q : Js.string) (ps : list Js.string) :
  Webview.joinPatterns (p :: q :: ps)
  = p ++ 44%N :: 32%N :: Webview.joinPatterns (q :: ps).
Proof. reflexivity. Qed.

Lemma joinPatterns_without (d : N) (ps : list Js.string) :
  d ≠ 44%N → d ≠ 32%N →
  Forall (λ p, contains d p = false) ps →
  contains d (Webview.joinPatterns ps) = false.
Proof.
  intros H44 H32. induction 1 as [|p ps Hp Hps IH]; [reflexivity |].
  destruct ps as [|q ps]; [exact Hp |].
  rewrite joinPatterns_cons, contains_app, Hp.
  change (contains d (44%N :: 32%N :: Webview.joinPatterns (q :: ps)))
    with ((44 =? d)%N || ((32 =? d)%N
          || contains d (Webview.joinPatterns (q :: ps)))).
  rewrite IH.
  destruct (N.eqb_spec 44 d); [congruence |].
  by destruct (N.eqb_spec 32 d); [congruence |].
Qed.

Lemma trim_padded (p : Js.string) (pad : bool) :
  Js.trim (if pad then 32%N :: p else p) = Js.trim p.
Proof. by destruct pad. Qed.

Lemma parsePatterns_cons (p rest : Js.string) :
  plainPattern p →
  ∀ pad : bool,
    Webview.parsePatterns ((if pad then 32%N :: p else p) ++ 44%N :: rest)
    = p :: Webview.parsePatterns rest.
Proof.
  intros (Ht & Hne & Hc & _) pad. unfold Webview.parsePatterns.
  assert (Hpc : contains 44 (if pad then 32%N :: p else p) = false)
    by (by destruct pad).
  rewrite splitComma_app by assumption.
  cbn [map].
  rewrite trim_padded, Ht, filter_cons_True; [reflexivity |].
  destruct p; [done | simpl; lia].
Qed.

Lemma parsePatterns_one (p : Js.string) :
  plainPattern p →
  ∀ pad : bool,
    Webview.parsePatterns (if pad then 32%N :: p else p) = [p].
Proof.
  intros (Ht & Hne & Hc & _) pad. unfold Webview.parsePatterns.
  assert (Hpc : contains 44 (if pad then 32%N :: p else p) = false)
    by (by destruct pad).
  rewrite splitComma_plain by assumption.
  cbn [map].
  rewrite trim_padded, Ht, filter_cons_True; [reflexivity |].
  destruct p; [done | simpl; lia].
Qed.

Lemma parsePatterns_join (ps : list Js.string) :
  Forall plainPattern ps →
  ∀ pad : bool,
    ps ≠ [] →
    Webview.parsePatterns
      (if pad then 32%N :: Webview.joinPatterns ps
       else Webview.joinPatterns ps) = ps.
Proof.
  induction 1 as [|p ps Hp Hps IH]; intros pad Hne; [done |].
  destruct ps as [|q ps].
  - simpl. by apply parsePatterns_one.
  - rewrite joinPatterns_cons.
    transitivity
      (p :: Webview.parsePatterns (32%N :: Webview.joinPatterns (q :: ps))).
    + destruct pad;
        [exact (parsePatterns_cons p _ Hp true)
        | exact (parsePatterns_cons p _ Hp false)].
    + f_equal. by apply (IH true).
Qed.

(** X13.  The exclude box is an [input] of type [text], whose value has
    neither LF nor CR.  The patterns read from its value are trimmed, not
    empty and free of commas, LF and CR, so a glob with a comma inside
    braces is cut in two; and reading back the value the box has once
    [loadExcludePatterns] has written such patterns into it gives these
    patterns again.  A stored pattern with a line feed does not come back:
    the box drops the line feed, and "a\nb", "c" are read back as "ab",
    "c". *)
Theorem exclude_patterns_round_trip :
  (∀ raw, Forall plainPattern (Webview.parsePatterns (Webview.inputValue raw)))
  ∧ (∀ ps, Forall plainPattern ps →
       Webview.excludeBoxValue ps = Webview.joinPatterns ps
       ∧ Webview.parsePatterns (Webview.excludeBoxValue ps) = ps)
  ∧ Webview.parsePatterns
      (Webview.excludeBoxValue [str "a" ++ LF :: str "b"; str "c"])
    = [str "ab"; str "c"]
  ∧ Webview.parsePatterns (Webview.inputValue (str "*.{js,ts}"))
    = [str "*.{js"; str "ts}"].
Proof.
  split; [| split; [| split; reflexivity]].
  - intros raw. unfold Webview.parsePatterns.
    apply Forall_forall. intros p Hp.
    apply list_elem_of_filter in Hp as [Hlen Hin].
    apply list_elem_of_In, in_map_iff in Hin as (r & <- & Hr).
    apply list_elem_of_In in Hr.
    destruct (inputValue_without raw) as [Hlf Hcr].
    pose proof (splitComma_no_comma (Webview.inputValue raw)) as Hall.
    pose proof (splitComma_without LF _ Hlf) as Hall1.
    pose proof (splitComma_without CR _ Hcr) as Hall2.
    rewrite Forall_forall in Hall, Hall1, Hall2.
    split; [apply trim_idempotent |]. split; [| split; [| split]].
    + intros E. rewrite E in Hlen. simpl in Hlen. lia.
    + apply contains_trim. by apply Hall.
    + apply contains_trim. by apply Hall1.
    + apply contains_trim. by apply Hall2.
  - intros ps Hps.
    assert (E : Webview.excludeBoxValue ps = Webview.joinPatterns ps).
    { unfold Webview.excludeBoxValue. apply inputValue_same.
      - apply joinPatterns_without; [discriminate | discriminate |].
        eapply Forall_impl; [exact Hps |]. by intros p (_ & _ & _ & ? & _).
      - apply joinPatterns_without; [discriminate | discriminate |].
        eapply Forall_impl; [exact Hps |]. by intros p (_ & _ & _ & _ & ?). }
    split; [exact E |]. rewrite E.
    destruct ps as [|p ps]; [reflexivity |].
    by apply (parsePatterns_join (p :: ps) Hps false).
Qed.

Lemma exclude_patterns_round_trip_witness :
  Forall plainPattern [str "node_modules"; str "*.min.js"]
  ∧ Webview.parsePatterns
      (Webview.excludeBoxValue [str "node_modules"; str "*.min.js"])
    = [str "node_modules"; str "*.min.js"].
Proof.
  assert (H : Forall plainPattern [str "node_modules"; str "*.min.js"])
    by (repeat constructor; discriminate).
  split; [exact H |].
  exact (proj2 (proj1 (proj2 exclude_patterns_round_trip) _ H)).
Defined.

(** ** Highlighting *)

(** [s.substring(a, b)] with [a <= b] is the stretch of [b - a] code units
    from [a], as much of it as [s] has. *)
Lemma substring_take_drop (s : Js.string) (a b : nat) :
  a ≤ b → Js.substring s a b = take (b - a) (drop a s).
Proof.
  intros Hab. unfold Js.substring. cbv zeta.
  destruct (le_lt_dec a (length s)) as [Ha|Ha].
  - rewrite (Nat.min_l a) by lia.
    rewrite (Nat.min_l a (Nat.min b (length s))),
      (Nat.max_r a (Nat.min b (length s))) by lia.
    destruct (le_lt_dec b (length s)) as [Hb|Hb].
    + by rewrite (Nat.min_l b) by lia.
    + rewrite (Nat.min_r b) by lia.
      rewrite !take_ge; [reflexivity | |]; rewrite length_drop; lia.
  - rewrite (Nat.min_r a), (Nat.min_r b) by lia.
    rewrite Nat.min_id, Nat.max_id, Nat.sub_diag.
    rewrite (drop_ge s a) by lia. by rewrite take_nil.
Qed.

Lemma substring_to_end (s : Js.string) (a : nat) :
  Js.substring s a (length s) = drop a s.
Proof.
  destruct (le_lt_dec a (length s)) as [Ha|Ha].
  - rewrite substring_take_drop by assumption.
    apply take_ge. rewrite length_drop. lia.
  - unfold Js.substring. cbv zeta.
    rewrite (Nat.min_r a), Nat.min_id by lia.
    rewrite Nat.min_id, Nat.max_id, Nat.sub_diag.
    by rewrite (drop_ge s a) by lia.
Qed.

Lemma take_drop_drop (s : Js.string) (a k : nat) :
  take k (drop a s) ++ drop (a + k) s = drop a s.
Proof. rewrite <- drop_drop. apply take_drop. Qed.

Lemma take_drop_take (s : Js.string) (k m n : nat) :
  k + m ≤ n → take m (drop k (take n s)) = take m (drop k s).
Proof.
  intros H. rewrite skipn_firstn_comm, take_take.
  by rewrite Nat.min_l by lia.
Qed.

Lemma occursAt_stretch (hay needle : Js.string) (a n k : nat) :
  needle ≠ [] →
  occursAt (take n (drop a hay)) needle k →
  k + length needle ≤ n ∧ occursAt hay needle (a + k).
Proof.
  intros Hne Hk. pose proof (occursAt_bound _ _ _ Hne Hk) as Hb.
  rewrite length_take, length_drop in Hb.
  split; [lia |]. unfold occursAt in *.
  rewrite take_drop_take in Hk by lia. by rewrite drop_drop in Hk.
Qed.

Lemma occursAt_rest (hay needle : Js.string) (a k : nat) :
  occursAt (drop a hay) needle k → occursAt hay needle (a + k).
Proof. unfold occursAt. by rewrite drop_drop. Qed.

(** What the comparison sees of the rest of a text that it sees in place. *)
Lemma inPlace_rest (toLowerCase : Js.string → Js.string) (cs : bool)
    (s : Js.string) (a : nat) :
  inPlace toLowerCase cs s →
  normalise toLowerCase cs (drop a s) = drop a (normalise toLowerCase cs s).
Proof.
  intros H.
  specialize (H a (Nat.max (length s) (length (normalise toLowerCase cs s)))).
  rewrite !take_ge in H; [exact H | |]; rewrite length_drop; lia.
Qed.

Lemma length_escapeChar (c : N) : 1 ≤ length (Webview.escapeChar c).
Proof.
  unfold Webview.escapeChar.
  repeat match goal with
         | |- context [if ?x then _ else _] => destruct x
         end; simpl; lia.
Qed.

Lemma length_escapeHtml (s : Js.string) :
  length s ≤ length (Webview.escapeHtml s).
Proof.
  unfold Webview.escapeHtml. induction s as [|c t IH]; simpl; [lia |].
  rewrite length_app. pose proof (length_escapeChar c). lia.
Qed.

Lemma joined_cons (x : Js.string) (l : list Js.string) :
  joined (x :: l) = x ++ joined l.
Proof. reflexivity. Qed.

Lemma joined_one (x : Js.string) : joined [x] = x.
Proof. apply app_nil_r. Qed.

(** The loop of [highlightText] ends when the query it looks for has code
    units, and cuts the rest of the escaped text into pieces. *)
Lemma highlightLoop_pieces (toLowerCase : Js.string → Js.string) (cs : bool)
    (escapedText escapedQuery : Js.string) :
  1 ≤ length escapedQuery →
  let searchText := normalise toLowerCase cs escapedText in
  let searchQuery := normalise toLowerCase cs escapedQuery in
  searchQuery ≠ [] →
  ∀ fuel cur result,
    length searchText < fuel + Nat.min cur (length searchText) →
    ∃ pieces result' cur',
      Webview.highlightLoop fuel escapedText escapedQuery searchText
        searchQuery cur (Js.indexOf searchText searchQuery cur) result
      = Some (result', cur')
      ∧ result' ++ drop cur' escapedText
        = result ++ joined (map renderPiece pieces)
      ∧ joined (map pieceText pieces) = drop cur escapedText
      ∧ ((∃ t, Marked t ∈ pieces) ∨ pieces = [Plain (drop cur escapedText)])
      ∧ (inPlace toLowerCase cs escapedText →
         length searchQuery = length escapedQuery →
         Forall (pieceOK toLowerCase cs escapedQuery) pieces).
Proof.
  intros query_long searchText searchQuery Hne.
  induction fuel as [|fuel IH]; intros cur result Hfuel; [lia |].
  simpl. destruct (Js.indexOf searchText searchQuery cur) as [found|] eqn:E.
  - destruct (indexOf_Some _ _ _ _ Hne E) as (Hge & Hb & Hocc & Hmin).
    pose proof (length_nonempty _ Hne) as Hlen.
    destruct (IH (found + length escapedQuery)
                ((result ++ Js.substring escapedText cur found)
                 ++ ((Webview.spanOpen
                       ++ Js.substring escapedText found
                            (found + length escapedQuery))
                      ++ Webview.spanClose)))
      as (pieces & result' & cur' & Hrun & Hres & Htext & _ & Hok); [lia |].
    exists (Plain (Js.substring escapedText cur found)
            :: Marked (Js.substring escapedText found
                         (found + length escapedQuery))
            :: pieces), result', cur'.
    split; [exact Hrun |].
    split; [| split; [| split]].
    + rewrite Hres. cbn [map renderPiece]. rewrite !joined_cons.
      by rewrite <- !app_assoc.
    + cbn [map pieceText]. rewrite !joined_cons, Htext.
      rewrite !substring_take_drop by lia.
      replace (found + length escapedQuery - found)
        with (length escapedQuery) by lia.
      rewrite take_drop_drop.
      replace found with (cur + (found - cur)) at 2 by lia.
      apply take_drop_drop.
    + left. eexists. apply list_elem_of_further, list_elem_of_here.
    + intros Hin Hq. constructor; [| constructor; [| by apply Hok]].
      * intros k Hk. simpl in Hk.
        rewrite substring_take_drop in Hk by lia.
        rewrite Hin in Hk. fold searchText searchQuery in Hk.
        destruct (occursAt_stretch _ _ _ _ _ Hne Hk) as [Hbk Hat].
        apply (Hmin (cur + k)); [lia | lia | exact Hat].
      * simpl. rewrite substring_take_drop by lia.
        rewrite Hin. fold searchText searchQuery.
        replace (found + length escapedQuery - found)
          with (length searchQuery) by lia.
        exact Hocc.
  - exists [Plain (drop cur escapedText)], result, cur.
    split; [reflexivity |].
    split; [| split; [| split]].
    + cbn [map renderPiece]. by rewrite joined_one.
    + cbn [map pieceText]. by rewrite joined_one.
    + by right.
    + intros Hin Hq. constructor; [| constructor].
      intros k Hk. simpl in Hk. rewrite inPlace_rest in Hk by assumption.
      fold searchText searchQuery in Hk.
      apply (indexOf_None _ _ _ Hne E (cur + k)); [lia |].
      by apply occursAt_rest.
Qed.

(** X14.  [highlightText] terminates, for a host whose lower-casing keeps
    text, and only adds markup: its result is the escaped text cut into
    pieces, some of them wrapped into the highlighting [span].  For a query
    of less than two code units the whole escaped text is one plain piece;
    for every other query some piece is wrapped unless the whole escaped
    text is one plain piece.  Where lower-casing is in place on the escaped
    text and keeps the length of the escaped query, each wrapped piece is the
    escaped query as the comparison sees it (lower-cased unless
    [caseSensitive]) and no plain piece has an occurrence of it.  Where
    lower-casing lengthens the text the wrapping is misplaced: in the text of
    U+0130 and "stanbul test", searched for "test" without regard to case,
    the piece wrapped is "est". *)
Theorem highlighting_keeps_the_text (toLowerCase : Js.string → Js.string)
    (s : Webview.State) (text query : Js.string) :
  keepsText toLowerCase →
  (∃ pieces,
     Webview.highlightText toLowerCase s text query
     = Some (joined (map renderPiece pieces))
     ∧ joined (map pieceText pieces) = Webview.escapeHtml text
     ∧ (length query < 2 → pieces = [Plain (Webview.escapeHtml text)])
     ∧ (2 ≤ length query →
        ((∃ t, Marked t ∈ pieces)
         ∨ pieces = [Plain (Webview.escapeHtml text)])
        ∧ (inPlace toLowerCase (Webview.caseSensitive s)
             (Webview.escapeHtml text) →
           length (normalise toLowerCase (Webview.caseSensitive s)
                     (Webview.escapeHtml query))
           = length (Webview.escapeHtml query) →
           Forall
             (pieceOK toLowerCase (Webview.caseSensitive s)
                (Webview.escapeHtml query))
             pieces)))
  ∧ (Webview.caseSensitive s = false →
     Webview.highlightText Js.toLowerCase s (304%N :: str "stanbul test")
       (str "test")
     = Some (304%N :: str "stanbul t"
             ++ renderPiece (Marked (str "est")))).
Proof.
  intros Hk. split.
  - unfold Webview.highlightText.
    destruct (Nat.ltb_spec (length query) 2) as [Hshort|Hlong].
    + rewrite orb_true_r. exists [Plain (Webview.escapeHtml text)].
      cbn [map renderPiece pieceText]. rewrite joined_one.
      split; [reflexivity |]. split; [reflexivity |].
      split; [reflexivity | lia].
    + assert (Hq : Js.isEmpty query = false)
        by (destruct query; [simpl in Hlong; lia | reflexivity]).
      rewrite Hq. cbn [orb]. cbv zeta.
      pose proof (length_escapeHtml query) as Hlen.
      assert (Hne : normalise toLowerCase (Webview.caseSensitive s)
                      (Webview.escapeHtml query) ≠ []).
      { apply normalise_nonempty; [exact Hk |].
        intros E. rewrite E in Hlen. simpl in Hlen. lia. }
      destruct (highlightLoop_pieces toLowerCase (Webview.caseSensitive s)
                  (Webview.escapeHtml text) (Webview.escapeHtml query)
                  ltac:(lia) Hne
                  (S (length (normalise toLowerCase (Webview.caseSensitive s)
                                (Webview.escapeHtml text)))) 0
                  [] ltac:(lia))
        as (pieces & result' & cur' & Hrun & Hres & Htext & Hmark & Hok).
      rewrite drop_0 in Htext, Hmark.
      unfold normalise in Hrun.
      exists pieces. rewrite Hrun, substring_to_end.
      split; [by rewrite Hres |].
      split; [exact Htext |]. split; [lia | by intros _].
  - intros Hcs. unfold Webview.highlightText. rewrite Hcs. reflexivity.
Qed.

Lemma highlighting_keeps_the_text_witness :
  ∃ pieces,
    Webview.highlightText Js.toLowerCase Webview.initial
      (str "a<b AB ab") (str "ab")
    = Some (joined (map renderPiece pieces))
    ∧ joined (map pieceText pieces) = str "a&lt;b AB ab".
Proof.
  destruct (proj1 (highlighting_keeps_the_text Js.toLowerCase Webview.initial
                     (str "a<b AB ab") (str "ab") table_keepsText))
    as (pieces & Hrun & Htext & _).
  exists pieces. split; [exact Hrun | exact Htext].
Defined.

(** ** Start-up *)

Lemma webview_step_uninitialized (e : Webview.Event) (s : Webview.State) :
  Webview.searchInitialized s = false →
  (∀ cs, e ≠ Webview.Receive (Webview.FromPanel (SearchInitialized cs))) →
  Webview.searchInitialized (Webview.step e s) = false.
Proof.
  intros Hs He. destruct e as [| | | | | | | | | | | | | | | | | |msg];
    try (webview_open; webview_split; cbn in *; congruence).
  destruct msg as [msg|msg|m p]; [destruct msg | destruct msg |];
    try (webview_open; webview_split; cbn in *; congruence).
  exfalso. eapply He. reflexivity.
Qed.

(** X15.  As long as [searchInitialized] is unset and no
    [searchInitialized] message arrives, the page posts no search, whatever
    is typed, toggled or received. *)
Theorem no_search_before_the_index_is_ready
    (s : Webview.State) (l : list Webview.Event) :
  Webview.searchInitialized s = false →
  (∀ cs, Webview.Receive (Webview.FromPanel (SearchInitialized cs)) ∉ l) →
  Webview.searches (Webview.sent (Webview.run l s))
  = Webview.searches (Webview.sent s)
  ∧ Webview.searchInitialized (Webview.run l s) = false.
Proof.
  intros Hs. induction l as [|e l IH] using rev_ind; intros Hl; [by split |].
  destruct IH as [IH1 IH2].
  { intros cs Hin. apply (Hl cs), elem_of_app. by left. }
  rewrite webview_run_snoc. split.
  - destruct (webview_step_searches e (Webview.run l s))
      as [[E _] | (q & _ & _ & Hinit & _)]; [by rewrite E | congruence].
  - apply webview_step_uninitialized; [assumption |].
    intros cs ->. apply (Hl cs), elem_of_app. right. apply list_elem_of_here.
Qed.

Lemma no_search_before_the_index_is_ready_witness :
  Webview.searches
    (Webview.sent
       (Webview.run [Webview.Input (str "needle"); Webview.SearchTimerFires;
                     Webview.ExcludeToggleClicked; Webview.ScopeChanged false;
                     Webview.SearchTimerFires]
          Webview.initial)) = [].
Proof.
  apply (no_search_before_the_index_is_ready Webview.initial
           [Webview.Input (str "needle"); Webview.SearchTimerFires;
            Webview.ExcludeToggleClicked; Webview.ScopeChanged false;
            Webview.SearchTimerFires]).
  - reflexivity.
  - intros cs Hin. repeat (apply elem_of_cons in Hin as [Hin | Hin];
                           [discriminate |]).
    by apply elem_of_nil in Hin.
Defined.

(** X16.  Start-up, when the searcher gets ready and the exclude patterns
    load: with the three messages of [initializeSearch], received by a
    freshly loaded page with nothing in between, the page is initialized and
    holds the searcher's case sensitivity, the stored history, the patterns
    and the scope, and its box holds the initial query.  For an initial
    query of two code units or more the pending timer then posts the search
    numbered 1 for it; for a shorter one the page posts [clearPreview] and
    no timer is pending. *)
Theorem startup_starts_the_initial_search
    (m : SearchModal) (h : Host) (editor active : option TextEditor)
    (patterns : list Js.string) (enabled : bool) :
  result (waitForReady (textSearcher (searchProvider m))) = Return tt →
  let q := Webview.textareaValue (getInitialQuery editor active) in
  let allFiles := negb (truthy (options m ≫= currentFileOnly)) in
  let w := Webview.run
             (received (initializeSearch m h editor active
                          (Return (patterns, enabled))))
             Webview.initial in
  Webview.searchInitialized w = true
  ∧ Webview.caseSensitive w = getCaseSensitive (textSearcher (searchProvider m))
  ∧ Webview.history w = loadHistory h
  ∧ Webview.excludePatterns w = patterns
  ∧ Webview.excludeEnabled w = enabled
  ∧ Webview.searchAllFiles w = allFiles
  ∧ Webview.searchInputValue w = q
  ∧ Webview.lastQuery w = q
  ∧ (length q < 2 →
     Webview.searchTimeout w = None
     ∧ Webview.sent w = [Webview.PostInitializeSearch; Webview.PostClearPreview])
  ∧ (2 ≤ length q →
     Webview.sent w = [Webview.PostInitializeSearch]
     ∧ Webview.sent (Webview.step Webview.SearchTimerFires w)
       = [Webview.PostInitializeSearch;
          Webview.PostSearch q 1 allFiles (if enabled then patterns else [])]).
Proof.
  intros Hready q allFiles w. subst w. unfold initializeSearch.
  rewrite Hready. unfold received. cbn [omap list_omap].
  unfold Webview.run. cbn [fold_left].
  subst q. destruct (getInitialQuery editor active) as [|c t] eqn:Eq.
  - cbn. do 8 (split; [reflexivity |]).
    split; [by intros _ | intros Hq; lia].
  - set (q := Webview.textareaValue (c :: t)).
    unfold Webview.step, Webview.onMessage, Webview.onInput,
      Webview.setQueryInInput, Webview.inputTimerFired, Webview.postSearch,
      Webview.updateResultsCount, Webview.post.
    cbn -[Webview.textareaValue length Nat.ltb Nat.eqb Nat.leb].
    fold q.
    destruct (Nat.eqb_spec (length q) 0) as [E0|E0];
      [| destruct (Nat.ltb_spec (length q) 2) as [E2|E2]];
      cbn -[Webview.textareaValue length Nat.ltb Nat.eqb Nat.leb].
    + do 8 (split; [reflexivity |]).
      split; [by intros _ | intros Hq; lia].
    + do 8 (split; [reflexivity |]).
      split; [by intros _ | intros Hq; lia].
    + do 8 (split; [reflexivity |]).
      split; [intros Hq; lia | intros _].
      split; [reflexivity |].
      destruct (Nat.leb_spec 2 (length q)) as [_|E]; [| lia].
      reflexivity.
Qed.

Lemma startup_starts_the_initial_search_witness :
  let editor := Some {| editorUri := sampleUri;
                        selectionIsEmpty := false;
                        selectedText := (str " needle ");
                        wordAtCursor := None |} in
  let w := Webview.run
             (received (initializeSearch
                          (newSearchModal (idleSearcher true) None None) newHost
                          editor None (Return ([str "dist"], true))))
             Webview.initial in
  Webview.sent (Webview.step Webview.SearchTimerFires w)
  = [Webview.PostInitializeSearch; Webview.PostSearch (str "needle") 1 true [str "dist"]].
Proof.
  refine (proj2 (proj2 (proj2 (proj2 (proj2 (proj2 (proj2 (proj2 (proj2 (proj2
    (startup_starts_the_initial_search
       (newSearchModal (idleSearcher true) None None) newHost
       (Some {| editorUri := sampleUri;
                selectionIsEmpty := false;
                selectedText := (str " needle ");
                wordAtCursor := None |})
       None [str "dist"] true eq_refl))))))))) _)).
  vm_compute. lia.
Defined.
